(** * SimpleITK transform handles: copy-on-write sharing, dispatch and the
      Euler3D accessor bindings

    A shallow embedding of [Code/Common/src/sitkTransform.cxx] and
    [Code/Common/src/sitkEuler3DTransform.cxx].

    The C++ objects live in explicit stores: the caller's [Transform]
    variables, the [PimpleTransform] wrappers they own through
    [m_PimpleTransform], and the reference-counted ITK transform objects the
    wrappers point to.  Every member function is a state transformer that
    ends normally, throws, or has undefined behaviour (a dereference of a
    null or freed pointer).  ITK itself is the external library: its
    transforms are values with the operations the two files call. *)

From Stdlib Require Import ZArith NArith String Floats.PrimFloat.
From stdpp Require Import gmap list.

Local Open Scope string_scope.
Local Open Scope Z_scope.

(** ** Addresses, variables and numbers *)

Abbreviation addr := positive.   (* heap addresses *)
Abbreviation var := positive.    (* the caller's C++ objects, by name *)
Abbreviation double := float.

Definition zeros (n : nat) : list double := replicate n 0%float.
Definition ones (n : nat) : list double := replicate n 1%float.

(** ** The enumerations of the headers *)

(** Modelled from the spec: the enumerators of [TransformEnum], declared in
    sitkTransform.h; the spec's closed table of kinds gives them.  A C++
    enum can hold an integer that names no enumerator, which is what
    [sitkUnlisted] stands for. *)
Inductive TransformEnum : Set :=
| sitkIdentity
| sitkTranslation
| sitkScale
| sitkScaleLogarithmic
| sitkEuler
| sitkSimilarity
| sitkQuaternionRigid
| sitkVersor
| sitkVersorRigid
| sitkAffine
| sitkComposite
| sitkDisplacementField
| sitkUnlisted (raw : Z).

(** Modelled from the spec: the pixel ids of sitkPixelIDValues.h that the
    displacement-field constructor tells apart: the vector-of-doubles id it
    registers, and the others. *)
Inductive PixelIDValueEnum : Set :=
| sitkUInt8
| sitkFloat32
| sitkFloat64
| sitkVectorFloat32
| sitkVectorFloat64
| sitkOtherPixelID (raw : Z).

(** The one exception class of the layer ([sitkExceptionMacro] throws a
    [GenericException] that carries the message), the exception of the
    external library, and the standard library's exception for a call
    through an empty [nsstd::function]. *)
Inductive Exception : Set :=
| GenericException (what : string)
| itkExceptionObject (what : string)
| bad_function_call.

(** ** The external transform library

    The ITK classes the source instantiates.  An object carries its class,
    its dimension, the flat parameter vectors, the Euler3D [ComputeZYX]
    flag, the composite's queue (each sub-transform with its to-optimize
    flag) and the displacement field it was given. *)

Inductive ITKClass : Set :=
| IdentityTransform
| TranslationTransform
| ScaleTransform
| ScaleLogarithmicTransform
| Euler2DTransform
| Euler3DTransformClass
| Similarity2DTransform
| Similarity3DTransform
| QuaternionRigidTransform
| VersorTransform
| VersorRigid3DTransform
| AffineTransform
| CompositeTransform
| DisplacementFieldTransform.

Definition ITKClass_eqb (a b : ITKClass) : bool :=
  match a, b with
  | IdentityTransform, IdentityTransform
  | TranslationTransform, TranslationTransform
  | ScaleTransform, ScaleTransform
  | ScaleLogarithmicTransform, ScaleLogarithmicTransform
  | Euler2DTransform, Euler2DTransform
  | Euler3DTransformClass, Euler3DTransformClass
  | Similarity2DTransform, Similarity2DTransform
  | Similarity3DTransform, Similarity3DTransform
  | QuaternionRigidTransform, QuaternionRigidTransform
  | VersorTransform, VersorTransform
  | VersorRigid3DTransform, VersorRigid3DTransform
  | AffineTransform, AffineTransform
  | CompositeTransform, CompositeTransform
  | DisplacementFieldTransform, DisplacementFieldTransform => true
  | _, _ => false
  end.

(** An ITK image of vectors wrapped around a pixel buffer: the buffer's
    address and whether this container frees it. *)
Record ITKImage : Set := {
  m_ImportPointer : addr;
  m_ContainerManageMemory : bool
}.

#[local] Set Warnings "-register-all".
Inductive ITKTransform : Set := mkITKTransform {
  NameOfClass : ITKClass;
  InputSpaceDimension : N;
  m_Parameters : list double;
  m_FixedParameters : list double;
  m_ComputeZYX : bool;
  m_TransformQueue : list (ITKTransform * bool);
  m_DisplacementField : option ITKImage
}.

Definition leaf (c : ITKClass) (d : N) (p f : list double) : ITKTransform :=
  mkITKTransform c d p f false [] None.

(** The identity matrix of [AffineTransform], row by row. *)
Definition identityMatrix (d : nat) : list double :=
  concat (map (fun i => map (fun j => if Nat.eqb i j then 1%float else 0%float)
                            (seq 0 d)) (seq 0 d)).

(** [T::New()]: the identity configuration of a freshly created object. *)
Definition itkNew (c : ITKClass) (d : N) : ITKTransform :=
  let n := N.to_nat d in
  match c with
  | IdentityTransform => leaf c d [] []
  | TranslationTransform => leaf c d (zeros n) []
  | ScaleTransform => leaf c d (ones n) (zeros n)
  | ScaleLogarithmicTransform => leaf c d (zeros n) (zeros n)
  | Euler2DTransform => leaf c d (zeros 3) (zeros 2)
  | Euler3DTransformClass => leaf c d (zeros 6) (zeros 3)
  | Similarity2DTransform => leaf c d (1%float :: zeros 3) (zeros 2)
  | Similarity3DTransform => leaf c d (zeros 6 ++ [1%float]) (zeros 3)
  | QuaternionRigidTransform => leaf c d (zeros 3 ++ 1%float :: zeros 3) (zeros 3)
  | VersorTransform => leaf c d (zeros 3) (zeros 3)
  | VersorRigid3DTransform => leaf c d (zeros 6) (zeros 3)
  | AffineTransform => leaf c d (identityMatrix n ++ zeros n) (zeros n)
  | CompositeTransform => leaf c d [] []
  | DisplacementFieldTransform => leaf c d [] []
  end.

(** *** The composite's queue *)

Definition IsTransformQueueEmpty (t : ITKTransform) : bool :=
  match m_TransformQueue t with [] => true | _ => false end.

Definition withQueue (t : ITKTransform) (q : list (ITKTransform * bool)) : ITKTransform :=
  mkITKTransform (NameOfClass t) (InputSpaceDimension t) (m_Parameters t)
    (m_FixedParameters t) (m_ComputeZYX t) q (m_DisplacementField t).

(** [AddTransform] pushes at the back; a new entry is optimized by default. *)
Definition itkAddTransform (t sub : ITKTransform) : ITKTransform :=
  withQueue t (m_TransformQueue t ++ [(sub, true)]).

Definition SetAllTransformsToOptimizeOff (t : ITKTransform) : ITKTransform :=
  withQueue t (map (fun e => (fst e, false)) (m_TransformQueue t)).

(** All flags off, then the flag of the last entry (index
    [GetNumberOfTransforms() - 1]) on. *)
Definition SetOnlyMostRecentTransformToOptimizeOn (t : ITKTransform) : ITKTransform :=
  let q := map (fun e => (fst e, false)) (m_TransformQueue t) in
  withQueue t (alter (fun e => (fst e, true)) (length q - 1)%nat q).

Definition toOptimizeFlags (t : ITKTransform) : list bool :=
  map snd (m_TransformQueue t).

(** *** Parameters

    The result of a call into the library: it returns, it raises its
    exception, or its behaviour is undefined. *)
Inductive LibResult (A : Type) : Type :=
| Done (a : A)
| Raised (what : string)
| Unspecified.
Arguments Done {A} a.
Arguments Raised {A} what.
Arguments Unspecified {A}.

(** The flat vector of a plain transform: its parameters, or its fixed
    parameters when [fixed] is set. *)
Definition leafVector (fixed : bool) (p f : list double) : list double :=
  if fixed then f else p.

(** A composite reads and writes the vectors of the sub-transforms that are
    flagged to optimize, from the back of the queue to the front; with none
    flagged the library's loop runs off the queue. *)
Fixpoint itkGetVector (fixed : bool) (t : ITKTransform) : LibResult (list double) :=
  match t with
  | mkITKTransform c _ p f _ q _ =>
      match c with
      | CompositeTransform =>
          let fix collect (q : list (ITKTransform * bool)) : LibResult (list (list double)) :=
            match q with
            | [] => Done []
            | (sub, true) :: q' =>
                match itkGetVector fixed sub, collect q' with
                | Done ps, Done r => Done (ps :: r)
                | Unspecified, _ | _, Unspecified => Unspecified
                | Raised w, _ | _, Raised w => Raised w
                end
            | (_, false) :: q' => collect q'
            end in
          match collect q with
          | Done [] => Unspecified
          | Done r => Done (concat (rev r))
          | Raised w => Raised w
          | Unspecified => Unspecified
          end
      | _ => Done (leafVector fixed p f)
      end
  end.

Fixpoint itkVectorSize (fixed : bool) (t : ITKTransform) : nat :=
  match t with
  | mkITKTransform c _ p f _ q _ =>
      match c with
      | CompositeTransform =>
          (fix count (q : list (ITKTransform * bool)) : nat :=
            match q with
            | [] => 0
            | (sub, true) :: q' => itkVectorSize fixed sub + count q'
            | (_, false) :: q' => count q'
            end)%nat q
      | _ => length (leafVector fixed p f)
      end
  end.

Definition sizeMismatch : string := "Input parameter list size is not expected size.".

Fixpoint itkSetVector (fixed : bool) (t : ITKTransform) (v : list double)
  : LibResult ITKTransform :=
  match t with
  | mkITKTransform c d p f z q fld =>
      match c with
      | CompositeTransform =>
          let fix spread (q : list (ITKTransform * bool)) (v : list double)
            : LibResult (list (ITKTransform * bool) * list double * bool) :=
            match q with
            | [] => Done ([], v, false)
            | (sub, true) :: q' =>
                match spread q' v with
                | Done (r, rest, _) =>
                    let n := itkVectorSize fixed sub in
                    match itkSetVector fixed sub (take n rest) with
                    | Done sub' => Done ((sub', true) :: r, drop n rest, true)
                    | Raised w => Raised w
                    | Unspecified => Unspecified
                    end
                | Raised w => Raised w
                | Unspecified => Unspecified
                end
            | (sub, false) :: q' =>
                match spread q' v with
                | Done (r, rest, any) => Done ((sub, false) :: r, rest, any)
                | Raised w => Raised w
                | Unspecified => Unspecified
                end
            end in
          if negb (Nat.eqb (length v) (itkVectorSize fixed t)) then Raised sizeMismatch
          else match spread q v with
               | Done (r, _, true) => Done (mkITKTransform c d p f z r fld)
               | Done (_, _, false) => Unspecified
               | Raised w => Raised w
               | Unspecified => Unspecified
               end
      | _ =>
          if negb (Nat.eqb (length v) (length (leafVector fixed p f))) then Raised sizeMismatch
          else Done (if fixed then mkITKTransform c d p v z q fld
                     else mkITKTransform c d v f z q fld)
      end
  end.

Definition itkGetParameters := itkGetVector false.
Definition itkGetFixedParameters := itkGetVector true.
Definition itkSetParameters := itkSetVector false.
Definition itkSetFixedParameters := itkSetVector true.

(** *** The accessors of [itk::Euler3DTransform<double>]

    Its six parameters are the three angles followed by the translation;
    its fixed parameters are the centre. *)

Definition withParameters (t : ITKTransform) (p : list double) : ITKTransform :=
  mkITKTransform (NameOfClass t) (InputSpaceDimension t) p (m_FixedParameters t)
    (m_ComputeZYX t) (m_TransformQueue t) (m_DisplacementField t).

Definition withFixedParameters (t : ITKTransform) (f : list double) : ITKTransform :=
  mkITKTransform (NameOfClass t) (InputSpaceDimension t) (m_Parameters t) f
    (m_ComputeZYX t) (m_TransformQueue t) (m_DisplacementField t).

Definition withComputeZYX (t : ITKTransform) (z : bool) : ITKTransform :=
  mkITKTransform (NameOfClass t) (InputSpaceDimension t) (m_Parameters t)
    (m_FixedParameters t) z (m_TransformQueue t) (m_DisplacementField t).

Definition itkGetAngleX (t : ITKTransform) : double := nth 0 (m_Parameters t) 0%float.
Definition itkGetAngleY (t : ITKTransform) : double := nth 1 (m_Parameters t) 0%float.
Definition itkGetAngleZ (t : ITKTransform) : double := nth 2 (m_Parameters t) 0%float.
Definition itkGetTranslation (t : ITKTransform) : list double := drop 3 (m_Parameters t).
Definition itkGetCenter (t : ITKTransform) : list double := m_FixedParameters t.
Definition itkGetComputeZYX (t : ITKTransform) : bool := m_ComputeZYX t.

Definition itkSetRotation (ax ay az : double) (t : ITKTransform) : ITKTransform :=
  withParameters t ([ax; ay; az] ++ drop 3 (m_Parameters t)).
Definition itkSetTranslation (v : list double) (t : ITKTransform) : ITKTransform :=
  withParameters t (take 3 (m_Parameters t) ++ v).
Definition itkSetCenter (c : list double) (t : ITKTransform) : ITKTransform :=
  withFixedParameters t c.
Definition itkSetComputeZYX (z : bool) (t : ITKTransform) : ITKTransform :=
  withComputeZYX t z.

(** [sitkSTLVectorToITK<T, double>]: the first [Dimension] entries of the
    vector, an exception when it is shorter. *)
Definition sitkSTLVectorToITK (Dimension : nat) (v : list double) : option (list double) :=
  if (length v <? Dimension)%nat then None else Some (take Dimension v).

(** ** The stores *)

(** A [PimpleTransform<T>]: the wrapper around a smart pointer to the ITK
    transform. *)
Record PimpleTransform : Set := { m_Transform : addr }.

(** An ITK object on the heap, with the reference count of [itk::LightObject]. *)
Record LightObject : Set := {
  m_ReferenceCount : Z;
  itk : ITKTransform
}.

(** A [Transform] (sub)object: its one data member. *)
Record Transform : Set := { m_PimpleTransform : option addr }.

(** The bound accessors of an [Euler3DTransform]: each [nsstd::function]
    is empty or a closure over the raw pointer [t] it was bound to. *)
Record Euler3DSlots : Set := {
  m_pfSetCenter : option addr;
  m_pfGetCenter : option addr;
  m_pfSetTranslation : option addr;
  m_pfGetTranslation : option addr;
  m_pfSetRotation : option addr;
  m_pfGetAngleX : option addr;
  m_pfGetAngleY : option addr;
  m_pfGetAngleZ : option addr;
  m_pfSetComputeZYX : option addr;
  m_pfGetComputeZYX : option addr
}.

(** A [sitk::Image] as the displacement-field constructor sees it. *)
Record Image : Set := {
  PixelID : PixelIDValueEnum;
  Dimension : N;
  NumberOfComponentsPerPixel : N;
  m_PixelContainer : ITKImage
}.

Record State : Type := {
  transforms : gmap var Transform;
  euler3d : gmap var Euler3DSlots;
  images : gmap var Image;
  pimples : gmap addr PimpleTransform;
  objects : gmap addr LightObject;
  buffers : gmap addr (list double)
}.

Definition set_transforms (f : gmap var Transform -> gmap var Transform) (s : State) : State :=
  {| transforms := f (transforms s); euler3d := euler3d s; images := images s;
     pimples := pimples s; objects := objects s; buffers := buffers s |}.
Definition set_euler3d (f : gmap var Euler3DSlots -> gmap var Euler3DSlots) (s : State) : State :=
  {| transforms := transforms s; euler3d := f (euler3d s); images := images s;
     pimples := pimples s; objects := objects s; buffers := buffers s |}.
Definition set_images (f : gmap var Image -> gmap var Image) (s : State) : State :=
  {| transforms := transforms s; euler3d := euler3d s; images := f (images s);
     pimples := pimples s; objects := objects s; buffers := buffers s |}.
Definition set_pimples (f : gmap addr PimpleTransform -> gmap addr PimpleTransform) (s : State) : State :=
  {| transforms := transforms s; euler3d := euler3d s; images := images s;
     pimples := f (pimples s); objects := objects s; buffers := buffers s |}.
Definition set_objects (f : gmap addr LightObject -> gmap addr LightObject) (s : State) : State :=
  {| transforms := transforms s; euler3d := euler3d s; images := images s;
     pimples := pimples s; objects := f (objects s); buffers := buffers s |}.
Definition set_buffers (f : gmap addr (list double) -> gmap addr (list double)) (s : State) : State :=
  {| transforms := transforms s; euler3d := euler3d s; images := images s;
     pimples := pimples s; objects := objects s; buffers := f (buffers s) |}.

Definition emptyState : State :=
  {| transforms := ∅; euler3d := ∅; images := ∅; pimples := ∅; objects := ∅; buffers := ∅ |}.

(** ** Computations *)

Inductive Outcome (A : Type) : Type :=
| Normal (a : A) (s : State)
| Throws (e : Exception) (s : State)
| Undefined.
Arguments Normal {A} a s.
Arguments Throws {A} e s.
Arguments Undefined {A}.

Definition M (A : Type) : Type := State -> Outcome A.

Definition ret {A} (a : A) : M A := fun s => Normal a s.
Definition bind {A B} (c : M A) (k : A -> M B) : M B :=
  fun s => match c s with
           | Normal a s' => k a s'
           | Throws e s' => Throws e s'
           | Undefined => Undefined
           end.
Definition throw {A} (e : Exception) : M A := fun s => Throws e s.
Definition undefined {A} : M A := fun _ => Undefined.
Definition modify (f : State -> State) : M unit := fun s => Normal tt (f s).

Notation "x <- c ;; k" := (bind c (fun x => k))
  (at level 100, c at next level, right associativity).

Definition sitkExceptionMacro {A} (what : string) : M A := throw (GenericException what).

(** A pointer dereference: undefined behaviour when nothing lives there. *)
Definition deref {A} (o : option A) : M A :=
  match o with Some a => ret a | None => undefined end.

(** The state an outcome leaves behind, and the value it returns. *)
Definition final {A} (r : Outcome A) : option State :=
  match r with Normal _ s | Throws _ s => Some s | Undefined => None end.
Definition value {A} (r : Outcome A) : option A :=
  match r with Normal a _ => Some a | _ => None end.

(** ** Smart pointers of the external library *)

(** A transform with another displacement field. *)
Definition withField (t : ITKTransform) (fld : option ITKImage) : ITKTransform :=
  mkITKTransform (NameOfClass t) (InputSpaceDimension t) (m_Parameters t)
    (m_FixedParameters t) (m_ComputeZYX t) (m_TransformQueue t) fld.

(** [T::New()] and [Clone()] hand out an object held by one smart pointer. *)
Definition allocObject (t : ITKTransform) : M addr :=
  fun s => let o := fresh (dom (objects s)) in
           Normal o (set_objects (insert o {| m_ReferenceCount := 1; itk := t |}) s).

Definition Register (o : addr) : M unit :=
  c <- (fun s => deref (objects s !! o) s) ;;
  modify (set_objects (insert o {| m_ReferenceCount := m_ReferenceCount c + 1; itk := itk c |})).

(** The destructor of a transform releases the pixel buffer its
    displacement field manages. *)
Definition destroyObject (o : addr) (t : ITKTransform) : M unit :=
  _ <- modify (set_objects (delete o)) ;;
  match m_DisplacementField t with
  | Some f => if m_ContainerManageMemory f
              then modify (set_buffers (delete (m_ImportPointer f)))
              else ret tt
  | None => ret tt
  end.

(** [UnRegister]: the object is deleted when the count reaches zero. *)
Definition UnRegister (o : addr) : M unit :=
  c <- (fun s => deref (objects s !! o) s) ;;
  if m_ReferenceCount c - 1 <=? 0 then destroyObject o (itk c)
  else modify (set_objects (insert o {| m_ReferenceCount := m_ReferenceCount c - 1; itk := itk c |})).

(** [Clone()]: an independent copy; a displacement field is duplicated
    into a buffer of its own, which the copy manages. *)
Definition Clone (o : addr) : M addr :=
  c <- (fun s => deref (objects s !! o) s) ;;
  match m_DisplacementField (itk c) with
  | None => allocObject (itk c)
  | Some f =>
      px <- (fun s => deref (buffers s !! m_ImportPointer f) s) ;;
      b <- (fun s => let b := fresh (dom (buffers s)) in
                     Normal b (set_buffers (insert b px) s)) ;;
      allocObject (withField (itk c)
                     (Some {| m_ImportPointer := b; m_ContainerManageMemory := true |}))
  end.

(** ** sitkPimpleTransform.hxx

    The header of [PimpleTransformBase] and [PimpleTransform<T>] is not
    among the sources; its operations follow the spec's Backend Interface:
    each one delegates to the ITK object behind the wrapper's smart
    pointer. *)

Definition allocPimple (o : addr) : M addr :=
  fun s => let p := fresh (dom (pimples s)) in
           Normal p (set_pimples (insert p {| m_Transform := o |}) s).

(** Modelled from the spec: [PimpleTransform()], the wrapper around a new
    ITK object of its class, which the wrapper alone holds. *)
Definition new_PimpleTransform (c : ITKClass) (d : N) : M addr :=
  o <- allocObject (itkNew c d) ;;
  allocPimple o.

(** Modelled from the spec: [PimpleTransform( TransformType * p )], the
    wrapper around an existing ITK object, whose count it increments. *)
Definition new_PimpleTransform_from (o : addr) : M addr :=
  _ <- Register o ;;
  allocPimple o.

(** Modelled from the spec: the destructor of the wrapper releases its
    smart pointer.  [delete] of a null pointer does nothing. *)
Definition delete_PimpleTransform (p : option addr) : M unit :=
  match p with
  | None => ret tt
  | Some p =>
      w <- (fun s => deref (pimples s !! p) s) ;;
      _ <- modify (set_pimples (delete p)) ;;
      UnRegister (m_Transform w)
  end.

Definition thePimple (p : option addr) : M PimpleTransform :=
  a <- deref p ;;
  fun s => deref (pimples s !! a) s.

(** Modelled from the spec: [ShallowCopy] returns a new wrapper that shares
    the same ITK transform, with the shared count incremented. *)
Definition ShallowCopy (p : option addr) : M addr :=
  w <- thePimple p ;;
  new_PimpleTransform_from (m_Transform w).

(** Modelled from the spec: [DeepCopy] returns a new wrapper with an
    independently cloned ITK transform, whose count is 1. *)
Definition DeepCopy (p : option addr) : M addr :=
  w <- thePimple p ;;
  c <- Clone (m_Transform w) ;;
  q <- new_PimpleTransform_from c ;;
  _ <- UnRegister c ;;
  ret q.

(** Modelled from the spec: [GetReferenceCount] is the count of the ITK
    transform. *)
Definition GetReferenceCount (p : option addr) : M Z :=
  w <- thePimple p ;;
  c <- (fun s => deref (objects s !! m_Transform w) s) ;;
  ret (m_ReferenceCount c).

(** Modelled from the spec: [GetTransformBase] and [GetInputDimension], by
    delegation to the ITK object. *)
Definition GetTransformBase (p : option addr) : M addr :=
  w <- thePimple p ;;
  ret (m_Transform w).

Definition GetInputDimension (p : option addr) : M N :=
  w <- thePimple p ;;
  c <- (fun s => deref (objects s !! m_Transform w) s) ;;
  ret (InputSpaceDimension (itk c)).

(** Modelled from the spec: a read of the wrapped object through the
    library; the library's exception passes through unchanged. *)
Definition readObject {A} (g : ITKTransform -> LibResult A) (p : option addr) : M A :=
  w <- thePimple p ;;
  c <- (fun s => deref (objects s !! m_Transform w) s) ;;
  match g (itk c) with
  | Done a => ret a
  | Raised what => throw (itkExceptionObject what)
  | Unspecified => undefined
  end.

(** Modelled from the spec: a write of the wrapped object through the
    library, in place; the library's exception passes through unchanged. *)
Definition writeObject (g : ITKTransform -> LibResult ITKTransform) (p : option addr) : M unit :=
  w <- thePimple p ;;
  c <- (fun s => deref (objects s !! m_Transform w) s) ;;
  match g (itk c) with
  | Done t => modify (set_objects (insert (m_Transform w)
                        {| m_ReferenceCount := m_ReferenceCount c; itk := t |}))
  | Raised what => throw (itkExceptionObject what)
  | Unspecified => undefined
  end.

Definition Pimple_GetParameters : option addr -> M (list double) := readObject itkGetParameters.
Definition Pimple_GetFixedParameters : option addr -> M (list double) := readObject itkGetFixedParameters.
Definition Pimple_SetParameters (p : option addr) (v : list double) : M unit :=
  writeObject (fun t => itkSetParameters t v) p.
Definition Pimple_SetFixedParameters (p : option addr) (v : list double) : M unit :=
  writeObject (fun t => itkSetFixedParameters t v) p.

(** ** class Transform (sitkTransform.cxx) *)

Definition get_m_PimpleTransform (this : var) : M (option addr) :=
  h <- (fun s => deref (transforms s !! this) s) ;;
  ret (m_PimpleTransform h).

Definition set_m_PimpleTransform (this : var) (p : option addr) : M unit :=
  modify (set_transforms (insert this {| m_PimpleTransform := p |})).

(** A constructor runs its body on the new object, whose pointer member
    starts as [init]; when the body throws, the object never existed. *)
Definition constructing (this : var) (init : option addr) (body : M unit) : M unit :=
  fun s => match (_ <- set_m_PimpleTransform this init ;; body) s with
           | Throws e s' => Throws e (set_transforms (delete this) s')
           | r => r
           end.

Definition updateObject (o : addr) (g : ITKTransform -> ITKTransform) : M unit :=
  c <- (fun s => deref (objects s !! o) s) ;;
  modify (set_objects (insert o {| m_ReferenceCount := m_ReferenceCount c; itk := g (itk c) |})).

(** [TransformTraits<double, VDimension>] *)
Definition EulerTransformType (VDimension : N) : ITKClass :=
  if (VDimension =? 2)%N then Euler2DTransform else Euler3DTransformClass.
Definition SimilarityTransformType (VDimension : N) : ITKClass :=
  if (VDimension =? 2)%N then Similarity2DTransform else Similarity3DTransform.

(** [dynamic_cast<itk::CompositeTransform<double, VDimension>*>( base )] *)
Definition isComposite (VDimension : N) (t : ITKTransform) : bool :=
  ITKClass_eqb (NameOfClass t) CompositeTransform && (InputSpaceDimension t =? VDimension)%N.

(** [Transform::InternalInitialization<VDimension>( type, base )] *)
Definition InternalInitialization (VDimension : N) (this : var) (type : TransformEnum)
    (base : option addr) : M unit :=
  let install (c : ITKClass) : M unit :=
    p <- new_PimpleTransform c VDimension ;;
    set_m_PimpleTransform this (Some p) in
  match type with
  | sitkTranslation => install TranslationTransform
  | sitkScale => install ScaleTransform
  | sitkScaleLogarithmic => install ScaleLogarithmicTransform
  | sitkEuler => install (EulerTransformType VDimension)
  | sitkSimilarity => install (SimilarityTransformType VDimension)
  | sitkQuaternionRigid =>
      if negb (VDimension =? 3)%N
      then sitkExceptionMacro "A sitkQuaternionRigid Transform only works for 3D!"
      else install QuaternionRigidTransform
  | sitkVersor =>
      if negb (VDimension =? 3)%N
      then sitkExceptionMacro "A sitkVersor Transform only works for 3D!"
      else install VersorTransform
  | sitkVersorRigid =>
      if negb (VDimension =? 3)%N
      then sitkExceptionMacro "A sitkVersorRigid Transform only works for 3D!"
      else install VersorRigid3DTransform
  | sitkAffine => install AffineTransform
  | sitkComposite =>
      (* the local smart pointer [compositeTransform] holds one reference
         until the end of the block *)
      compositeTransform <-
        match base with
        | None => allocObject (itkNew CompositeTransform VDimension)
        | Some b =>
            c <- (fun s => deref (objects s !! b) s) ;;
            if isComposite VDimension (itk c)
            then _ <- Register b ;; ret b
            else sitkExceptionMacro "Unexpectedly unable to convert to CompositeTransform"
        end ;;
      c <- (fun s => deref (objects s !! compositeTransform) s) ;;
      _ <- (if IsTransformQueueEmpty (itk c)
            then updateObject compositeTransform
                   (fun t => itkAddTransform t (itkNew IdentityTransform VDimension))
            else ret tt) ;;
      _ <- updateObject compositeTransform SetAllTransformsToOptimizeOff ;;
      _ <- updateObject compositeTransform SetOnlyMostRecentTransformToOptimizeOn ;;
      p <- new_PimpleTransform_from compositeTransform ;;
      _ <- set_m_PimpleTransform this (Some p) ;;
      UnRegister compositeTransform
  | sitkDisplacementField =>
      sitkExceptionMacro "Incorrect constructor for transform type."
  | sitkIdentity
  | sitkUnlisted _ => install IdentityTransform
  end.

(** [Transform::Transform( )] *)
Definition Transform_ctor_default (this : var) : M unit :=
  constructing this None
    (p <- new_PimpleTransform IdentityTransform 3 ;;
     set_m_PimpleTransform this (Some p)).

(** [Transform::Transform( unsigned int dimensions, TransformEnum type )] *)
Definition Transform_ctor (this : var) (dimensions : N) (type : TransformEnum) : M unit :=
  constructing this None
    (if (dimensions =? 2)%N then InternalInitialization 2 this type None
     else if (dimensions =? 3)%N then InternalInitialization 3 this type None
     else sitkExceptionMacro "Invalid dimension for transform").

(** Modelled from the spec: the constructor of sitkTransform.h that wraps
    an existing composite ([ReadTransform] calls it), by handing it to
    [InternalInitialization] as [base]. *)
Definition Transform_ctor_composite (this : var) (NDimension : N) (compositeTransform : addr)
  : M unit :=
  constructing this None
    (InternalInitialization NDimension this sitkComposite (Some compositeTransform)).

(** [Transform::~Transform()] *)
Definition Transform_dtor (this : var) : M unit :=
  p <- get_m_PimpleTransform this ;;
  _ <- delete_PimpleTransform p ;;
  _ <- set_m_PimpleTransform this None ;;
  modify (set_transforms (delete this)).

(** [Transform::Transform( const Transform &txf )] *)
Definition Transform_ctor_copy (this txf : var) : M unit :=
  constructing this None
    (p <- get_m_PimpleTransform txf ;;
     q <- ShallowCopy p ;;
     set_m_PimpleTransform this (Some q)).

(** [Transform::operator=( const Transform & txf )] *)
Definition Transform_assign (this txf : var) : M unit :=
  p <- get_m_PimpleTransform txf ;;
  temp <- ShallowCopy p ;;
  old <- get_m_PimpleTransform this ;;
  _ <- delete_PimpleTransform old ;;
  set_m_PimpleTransform this (Some temp).

(** [Transform::MakeUniqueForWrite] *)
Definition MakeUniqueForWrite (this : var) : M unit :=
  p <- get_m_PimpleTransform this ;;
  n <- GetReferenceCount p ;;
  if 1 <? n then
    temp <- DeepCopy p ;;
    old <- get_m_PimpleTransform this ;;
    _ <- delete_PimpleTransform old ;;
    set_m_PimpleTransform this (Some temp)
  else ret tt.

(** [assert( m_PimpleTransform )], then the call through the pointer: a
    null pointer is undefined behaviour either way. *)
Definition GetITKBase (this : var) : M addr :=
  p <- get_m_PimpleTransform this ;;
  GetTransformBase p.

Definition GetDimension (this : var) : M N :=
  p <- get_m_PimpleTransform this ;;
  GetInputDimension p.

Definition SetParameters (this : var) (parameters : list double) : M unit :=
  _ <- MakeUniqueForWrite this ;;
  p <- get_m_PimpleTransform this ;;
  Pimple_SetParameters p parameters.

Definition GetParameters (this : var) : M (list double) :=
  p <- get_m_PimpleTransform this ;;
  Pimple_GetParameters p.

Definition SetFixedParameters (this : var) (parameters : list double) : M unit :=
  _ <- MakeUniqueForWrite this ;;
  p <- get_m_PimpleTransform this ;;
  Pimple_SetFixedParameters p parameters.

Definition GetFixedParameters (this : var) : M (list double) :=
  p <- get_m_PimpleTransform this ;;
  Pimple_GetFixedParameters p.

(** *** The displacement-field constructor *)

(** Modelled from the spec: [Image()], the empty placeholder image, with an
    empty pixel buffer of its own. *)
Definition Image_ctor : M Image :=
  b <- (fun s => let b := fresh (dom (buffers s)) in
                 Normal b (set_buffers (insert b []) s)) ;;
  ret {| PixelID := sitkUInt8; Dimension := 2; NumberOfComponentsPerPixel := 1;
         m_PixelContainer := {| m_ImportPointer := b; m_ContainerManageMemory := true |} |}.

(** Modelled from the spec: [Image::operator=], which releases the image
    the handle held (with its buffer when the container manages it) and
    installs the new one. *)
Definition Image_assign (this : var) (img : Image) : M unit :=
  old <- (fun s => deref (images s !! this) s) ;;
  _ <- (if m_ContainerManageMemory (m_PixelContainer old)
        then modify (set_buffers (delete (m_ImportPointer (m_PixelContainer old))))
        else ret tt) ;;
  modify (set_images (insert this img)).

(** Modelled from the spec: [GetImageFromVectorImage( img, transferOwnership )]
    of sitkImageConvert.h wraps the pixel buffer of [img] itself in an image
    of vectors, and with [transferOwnership] the buffer is managed by the
    result instead of [img]; the component count has to be the dimension. *)
Definition GetImageFromVectorImage (ImageDimension : N) (img : var) (transferOwnership : bool)
  : M ITKImage :=
  i <- (fun s => deref (images s !! img) s) ;;
  if negb (NumberOfComponentsPerPixel i =? ImageDimension)%N
  then sitkExceptionMacro
         "Expected number of elements in vector image to be the same as the dimension!"
  else
    let c := m_PixelContainer i in
    let transfer := transferOwnership && m_ContainerManageMemory c in
    _ <- modify (set_images (insert img
           {| PixelID := PixelID i; Dimension := Dimension i;
              NumberOfComponentsPerPixel := NumberOfComponentsPerPixel i;
              m_PixelContainer :=
                {| m_ImportPointer := m_ImportPointer c;
                   m_ContainerManageMemory :=
                     m_ContainerManageMemory c && negb transfer |} |})) ;;
    ret {| m_ImportPointer := m_ImportPointer c; m_ContainerManageMemory := transfer |}.

(** Modelled from the spec: [PimpleTransform<DisplacementTransformType>( field )],
    the wrapper around a new displacement-field transform that is given
    [field]. *)
Definition new_PimpleTransform_displacement (d : N) (field : ITKImage) : M addr :=
  o <- allocObject (mkITKTransform DisplacementFieldTransform d [] [] false [] (Some field)) ;;
  allocPimple o.

(** [Transform::InternalDisplacementInitialization<TDisplacementType>],
    for [TDisplacementType = itk::VectorImage<double, ImageDimension>] *)
Definition InternalDisplacementInitialization (ImageDimension : N) (this : var) (inImage : var)
  : M unit :=
  i <- (fun s => deref (images s !! inImage) s) ;;
  (* dynamic_cast < VectorImageType* > ( inImage.GetITKBase() ) *)
  if negb (match PixelID i with sitkVectorFloat64 => (Dimension i =? ImageDimension)%N
                              | _ => false end)
  then sitkExceptionMacro "Unexpected template dispatch error!"
  else
    itkDisplacement <- GetImageFromVectorImage ImageDimension inImage true ;;
    placeholder <- Image_ctor ;;
    _ <- Image_assign inImage placeholder ;;
    p <- new_PimpleTransform_displacement ImageDimension itkDisplacement ;;
    set_m_PimpleTransform this (Some p).

(** Modelled from the spec: the member function factory holds
    [InternalDisplacementInitialization] for the vector-of-doubles pixel id
    in dimensions 3 and 2, and throws for every other request. *)
Definition GetMemberFunction (type : PixelIDValueEnum) (dimension : N)
  : M (var -> var -> M unit) :=
  match type with
  | sitkVectorFloat64 =>
      if (dimension =? 3)%N then ret (InternalDisplacementInitialization 3)
      else if (dimension =? 2)%N then ret (InternalDisplacementInitialization 2)
      else sitkExceptionMacro "Pixel type is not supported in this dimension"
  | _ => sitkExceptionMacro "Pixel type is not supported in this dimension"
  end.

(** [Transform::Transform( Image &displacement, TransformEnum txType )].
    This constructor has no initializer for [m_PimpleTransform]; the
    pointer is not read before it is assigned. *)
Definition Transform_ctor_displacement (this : var) (displacement : var) (txType : TransformEnum)
  : M unit :=
  constructing this None
    (_ <- match txType with
          | sitkDisplacementField => ret tt
          | _ => sitkExceptionMacro
                   "Expected sitkDisplacementField for the Transformation type!"
          end ;;
     i <- (fun s => deref (images s !! displacement) s) ;;
     let type := PixelID i in
     let dimension := Dimension i in
     f <- GetMemberFunction type dimension ;;
     f this displacement).

(** Modelled from the spec: [Transform::SetPimpleTransform], declared in
    sitkTransform.h, the explicit replace-Backend call: it releases the
    wrapper the handle holds and installs the given one. *)
Definition Transform_SetPimpleTransform (this : var) (pimpleTransform : option addr) : M unit :=
  old <- get_m_PimpleTransform this ;;
  _ <- delete_PimpleTransform old ;;
  set_m_PimpleTransform this pimpleTransform.

(** ** class Euler3DTransform (sitkEuler3DTransform.cxx) *)

Definition boundTo (t : option addr) : Euler3DSlots :=
  {| m_pfSetCenter := t; m_pfGetCenter := t;
     m_pfSetTranslation := t; m_pfGetTranslation := t;
     m_pfSetRotation := t;
     m_pfGetAngleX := t; m_pfGetAngleY := t; m_pfGetAngleZ := t;
     m_pfSetComputeZYX := t; m_pfGetComputeZYX := t |}.

(** [Euler3DTransform::InternalInitialization(TransformType *t)]: every
    slot becomes a closure over [t]. *)
Definition Euler3D_InternalInitialization_typed (this : var) (t : addr) : M unit :=
  modify (set_euler3d (insert this (boundTo (Some t)))).

(** [Euler3DTransform::InternalInitialization(itk::TransformBase *transform)] *)
Definition Euler3D_InternalInitialization (this : var) (transform : addr) : M unit :=
  c <- (fun s => deref (objects s !! transform) s) ;;
  (* dynamic_cast<itk::Euler3DTransform<double>*>(transform) *)
  let t := if ITKClass_eqb (NameOfClass (itk c)) Euler3DTransformClass
           then Some transform else None in
  match t with
  | Some t => Euler3D_InternalInitialization_typed this t
  | None => modify (set_euler3d (insert this (boundTo None)))
  end.

(** A derived constructor: the base-class constructor, then the body; when
    the body throws, the base sub-object is destroyed. *)
Definition constructing_derived (this : var) (base body : M unit) : M unit :=
  fun s => match base s with
           | Normal _ s1 =>
               match body s1 with
               | Throws e s2 =>
                   match Transform_dtor this (set_euler3d (delete this) s2) with
                   | Normal _ s3 => Throws e s3
                   | Throws _ _ | Undefined => Undefined
                   end
               | r => r
               end
           | r => r
           end.

(** [Euler3DTransform::Euler3DTransform()] *)
Definition Euler3D_ctor (this : var) : M unit :=
  constructing_derived this (Transform_ctor this 3 sitkEuler)
    (b <- GetITKBase this ;;
     Euler3D_InternalInitialization this b).

(** [params(6)] with the angles, then [std::copy] of the translation from
    index 3: a translation of more than three entries writes past the end. *)
Definition eulerParams (angleX angleY angleZ : double) (translation : list double)
  : option (list double) :=
  if (3 <? length translation)%nat then None
  else Some ([angleX; angleY; angleZ] ++ translation
             ++ zeros (3 - length translation))%list.

(** [Euler3DTransform::Euler3DTransform(fixedCenter, angleX, angleY, angleZ, translation)] *)
Definition Euler3D_ctor_params (this : var) (fixedCenter : list double)
    (angleX angleY angleZ : double) (translation : list double) : M unit :=
  constructing_derived this (Transform_ctor this 3 sitkEuler)
    (b <- GetITKBase this ;;
     _ <- Euler3D_InternalInitialization this b ;;
     _ <- SetFixedParameters this fixedCenter ;;
     params <- deref (eulerParams angleX angleY angleZ translation) ;;
     SetParameters this params).

(** [Euler3DTransform::Euler3DTransform( const Euler3DTransform &arg )] *)
Definition Euler3D_ctor_copy (this arg : var) : M unit :=
  constructing_derived this (Transform_ctor_copy this arg)
    (b <- GetITKBase this ;;
     Euler3D_InternalInitialization this b).

(** [Euler3DTransform::operator=( const Euler3DTransform &arg )] *)
Definition Euler3D_assign (this arg : var) : M unit :=
  Transform_assign this arg.

(** The implicit destructor: the slots go, then [~Transform()]. *)
Definition Euler3D_dtor (this : var) : M unit :=
  _ <- modify (set_euler3d (delete this)) ;;
  Transform_dtor this.

(** A call through a slot: an empty [nsstd::function] throws, a bound one
    runs the member function on the object it was bound to. *)
Definition callSlot {A} (slot : Euler3DSlots -> option addr) (this : var)
    (f : addr -> M A) : M A :=
  sl <- (fun s => deref (euler3d s !! this) s) ;;
  match slot sl with
  | None => throw bad_function_call
  | Some t => f t
  end.

Definition readThrough {A} (g : ITKTransform -> A) (t : addr) : M A :=
  c <- (fun s => deref (objects s !! t) s) ;;
  ret (g (itk c)).

Definition toITK (Dimension : nat) (v : list double) : M (list double) :=
  match sitkSTLVectorToITK Dimension v with
  | Some x => ret x
  | None => sitkExceptionMacro "Unable to convert vector to ITK type"
  end.

Definition Euler3D_SetCenter (this : var) (params : list double) : M unit :=
  _ <- MakeUniqueForWrite this ;;
  callSlot m_pfSetCenter this (fun t =>
    c <- toITK 3 params ;;
    updateObject t (itkSetCenter c)).

Definition Euler3D_GetCenter (this : var) : M (list double) :=
  callSlot m_pfGetCenter this (readThrough itkGetCenter).

Definition Euler3D_GetAngleX (this : var) : M double :=
  callSlot m_pfGetAngleX this (readThrough itkGetAngleX).

Definition Euler3D_GetAngleY (this : var) : M double :=
  callSlot m_pfGetAngleY this (readThrough itkGetAngleY).

Definition Euler3D_GetAngleZ (this : var) : M double :=
  callSlot m_pfGetAngleZ this (readThrough itkGetAngleZ).

Definition Euler3D_SetRotation (this : var) (angleX angleY angleZ : double) : M unit :=
  _ <- MakeUniqueForWrite this ;;
  callSlot m_pfSetRotation this (fun t =>
    updateObject t (itkSetRotation angleX angleY angleZ)).

Definition Euler3D_SetTranslation (this : var) (params : list double) : M unit :=
  _ <- MakeUniqueForWrite this ;;
  callSlot m_pfSetTranslation this (fun t =>
    v <- toITK 3 params ;;
    updateObject t (itkSetTranslation v)).

Definition Euler3D_GetTranslation (this : var) : M (list double) :=
  callSlot m_pfGetTranslation this (readThrough itkGetTranslation).

Definition Euler3D_SetComputeZYX (this : var) (_arg : bool) : M unit :=
  _ <- MakeUniqueForWrite this ;;
  callSlot m_pfSetComputeZYX this (fun t =>
    updateObject t (itkSetComputeZYX _arg)).

Definition Euler3D_GetComputeZYX (this : var) : M bool :=
  callSlot m_pfGetComputeZYX this (readThrough itkGetComputeZYX).

(** [Euler3DTransform::SetPimpleTransform] *)
Definition Euler3D_SetPimpleTransform (this : var) (pimpleTransform : option addr) : M unit :=
  _ <- Transform_SetPimpleTransform this pimpleTransform ;;
  b <- GetITKBase this ;;
  Euler3D_InternalInitialization this b.

(** ** class HolderCommand<T*> (sitkTransform.cxx)

    The command that holds an object until its own destruction: the [T]
    objects that are alive, and the pointer member of each command. *)

Record Holders : Type := {
  aliveT : gset addr;
  m_Object : gmap var (option addr)
}.

(** [HolderCommand() : m_Object(NULL) {}] *)
Definition HolderCommand_ctor (this : var) (s : Holders) : Holders :=
  {| aliveT := aliveT s; m_Object := <[this := None]> (m_Object s) |}.

(** [void Set(ObjectType *object) { this->m_Object = object; }]; a call on
    a command that does not exist is undefined ([None]). *)
Definition HolderCommand_Set (this : var) (object : option addr) (s : Holders)
  : option Holders :=
  match m_Object s !! this with
  | Some _ => Some {| aliveT := aliveT s; m_Object := <[this := object]> (m_Object s) |}
  | None => None
  end.

(** [ObjectType *Get() {return this->m_Object;}] *)
Definition HolderCommand_Get (this : var) (s : Holders) : option (option addr) :=
  m_Object s !! this.

(** [~HolderCommand() { delete m_Object;}]: [delete] of the null pointer
    does nothing; [delete] of a pointer whose object is not alive is
    undefined. *)
Definition HolderCommand_dtor (this : var) (s : Holders) : option Holders :=
  match m_Object s !! this with
  | Some None => Some {| aliveT := aliveT s; m_Object := delete this (m_Object s) |}
  | Some (Some p) =>
      if decide (p ∈ aliveT s)
      then Some {| aliveT := aliveT s ∖ {[p]}; m_Object := delete this (m_Object s) |}
      else None
  | None => None
  end.

(** ** Observations on a state *)

(** The wrapper and the ITK object a handle reaches. *)
Definition wrapperOf (s : State) (h : var) : option addr :=
  match transforms s !! h with
  | Some hd => m_PimpleTransform hd
  | None => None
  end.

Definition backendOf (s : State) (h : var) : option addr :=
  match wrapperOf s h with
  | Some p => match pimples s !! p with
              | Some w => Some (m_Transform w)
              | None => None
              end
  | None => None
  end.

Definition objectOf (s : State) (h : var) : option LightObject :=
  match backendOf s h with
  | Some o => objects s !! o
  | None => None
  end.

Definition contentsOf (s : State) (h : var) : option ITKTransform :=
  match objectOf s h with
  | Some c => Some (itk c)
  | None => None
  end.

(** A handle in its invariant: a wrapper that is alive around an ITK object
    that is alive and counts at least the wrapper's reference. *)
Definition live (s : State) (h : var) : bool :=
  match objectOf s h with
  | Some c => 1 <=? m_ReferenceCount c
  | None => false
  end.

(** The displacement field of the handle's transform, when it has one, is
    backed by a buffer that is alive. *)
Definition fieldLive (s : State) (t : ITKTransform) : bool :=
  match m_DisplacementField t with
  | Some f => match buffers s !! m_ImportPointer f with Some _ => true | None => false end
  | None => true
  end.

Definition cloneable (s : State) (h : var) : bool :=
  match contentsOf s h with
  | Some t => fieldLive s t
  | None => false
  end.

(** The outcome of a read through the library, on the handle's contents. *)
Definition readOutcome {A} (g : ITKTransform -> LibResult A) (s : State) (h : var)
  : Outcome A :=
  match contentsOf s h with
  | Some t => match g t with
              | Done a => Normal a s
              | Raised what => Throws (itkExceptionObject what) s
              | Unspecified => Undefined
              end
  | None => Undefined
  end.

(** ** Predicates of the properties *)

(** The kinds that exist in three dimensions only. *)
Definition only3D (type : TransformEnum) : bool :=
  match type with
  | sitkQuaternionRigid | sitkVersor | sitkVersorRigid => true
  | _ => false
  end.

(** The kinds [Construct(kind, dimension)] builds: every one but the
    displacement field, which has its own constructor. *)
Definition constructible (type : TransformEnum) : bool :=
  match type with
  | sitkDisplacementField => false
  | _ => true
  end.

(** No handle and no Backend came out of a failed construction. *)
Definition nothingBuilt (s s' : State) (this : var) : Prop :=
  transforms s' !! this = None /\ pimples s' = pimples s /\ objects s' = objects s.

(** [this] holds a wrapper and an ITK object that were not there before;
    the object is [t] and its reference count is 1. *)
Definition freshBackend (s s' : State) (this : var) (t : ITKTransform) : Prop :=
  exists p o,
    transforms s' !! this = Some {| m_PimpleTransform := Some p |} /\
    pimples s !! p = None /\
    pimples s' !! p = Some {| m_Transform := o |} /\
    objects s !! o = None /\
    objects s' !! o = Some {| m_ReferenceCount := 1; itk := t |}.

(** The composite a fresh construction leaves: one identity sub-transform,
    flagged to optimize. *)
Definition identityComposite (d : N) : ITKTransform :=
  mkITKTransform CompositeTransform d [] [] false [(itkNew IdentityTransform d, true)] None.

(** The guard and the two flag calls of the composite case, on the
    composite as a value. *)
Definition guarded (d : N) (t : ITKTransform) : ITKTransform :=
  SetOnlyMostRecentTransformToOptimizeOn
    (SetAllTransformsToOptimizeOff
       (if IsTransformQueueEmpty t then itkAddTransform t (itkNew IdentityTransform d) else t)).

(** The sub-transforms of a queue, without their flags. *)
Definition subTransforms (t : ITKTransform) : list ITKTransform :=
  map fst (m_TransformQueue t).

(** The reading of the adopt-existing mode that skips the guard: the
    adopted composite keeps exactly the sub-transforms it came with. *)
Definition adoptsWithoutGuard (s : State) (d : N) (this : var) (b : addr) : Prop :=
  forall c s', objects s !! b = Some c ->
    InternalInitialization d this sitkComposite (Some b) s = Normal tt s' ->
    exists c', objects s' !! b = Some c' /\ subTransforms (itk c') = subTransforms (itk c).






(** The placeholder [Image()] around the buffer [b], and the transform
    that holds the pixel container of [img] as its displacement field. *)
Definition placeholderImage (b : addr) : Image :=
  {| PixelID := sitkUInt8; Dimension := 2; NumberOfComponentsPerPixel := 1;
     m_PixelContainer := {| m_ImportPointer := b; m_ContainerManageMemory := true |} |}.

Definition adoptedField (img : Image) : ITKTransform :=
  mkITKTransform DisplacementFieldTransform (Dimension img) [] [] false []
    (Some (m_PixelContainer img)).

(** The images the displacement-field constructor takes: vectors of
    doubles in dimension 2 or 3, with as many components as dimensions. *)
Definition acceptedField (img : Image) : bool :=
  match PixelID img with
  | sitkVectorFloat64 =>
      ((Dimension img =? 2)%N || (Dimension img =? 3)%N)
      && (NumberOfComponentsPerPixel img =? Dimension img)%N
  | _ => false
  end.


(** The handle [x] ends on the transform [t], up to the buffer behind its
    displacement field (a deep copy has a buffer of its own). *)
Definition endsOn (s' : State) (x : var) (t : ITKTransform) : Prop :=
  exists fld, contentsOf s' x = Some (withField t fld) /\
              live s' x = true /\ cloneable s' x = true.

(** The displacement field [f'] holds in [s'] the pixels the field [f]
    held in [s]: no field on either side, or two buffers that are alive
    with the same contents. *)
Definition samePixels (s s' : State) (f f' : option ITKImage) : Prop :=
  match f, f' with
  | None, None => True
  | Some a, Some b =>
      exists px, buffers s !! m_ImportPointer a = Some px /\
                 buffers s' !! m_ImportPointer b = Some px
  | _, _ => False
  end.

(** A mutation through [x], whose transform is [t], does what the call
    [lib] of the library does on [t]: it returns when the library returns,
    on the library's result; it throws the library's exception, on the
    transform it had; it is undefined when the library is. *)
Definition followsLibrary (r : Outcome unit) (lib : LibResult ITKTransform) (x : var)
    (t : ITKTransform) : Prop :=
  match lib with
  | Done t' => exists s', r = Normal tt s' /\ endsOn s' x t'
  | Raised what => exists s', r = Throws (itkExceptionObject what) s' /\ endsOn s' x t
  | Unspecified => r = Undefined
  end.


(** The slots of the facade [x] are bound to the object that is its
    Backend. *)
Definition boundToBackend (s : State) (x : var) : Prop :=
  exists o, backendOf s x = Some o /\ euler3d s !! x = Some (boundTo (Some o)).

(** What the six getters of the facade [x] return in [s]. *)
Definition facadeReads (s : State) (x : var) (center : list double) (ax ay az : double)
    (translation : list double) (zyx : bool) : Prop :=
  Euler3D_GetCenter x s = Normal center s /\
  Euler3D_GetAngleX x s = Normal ax s /\
  Euler3D_GetAngleY x s = Normal ay s /\
  Euler3D_GetAngleZ x s = Normal az s /\
  Euler3D_GetTranslation x s = Normal translation s /\
  Euler3D_GetComputeZYX x s = Normal zyx s.

(** *** The invariant of the stores *)

(** The number of wrappers around the ITK object [o]. *)
Definition wrappersOf (pm : gmap addr PimpleTransform) (o : addr) : nat :=
  size (filter (fun pw : addr * PimpleTransform => m_Transform (snd pw) = o) pm).

(** The handles, the wrappers and the ITK objects fit together: every
    handle holds a wrapper that is alive, no two handles hold the same
    wrapper, and every wrapper is around an ITK object that is alive and
    whose reference count is at least the number of wrappers around it. *)
Record wf3 (tm : gmap var Transform) (pm : gmap addr PimpleTransform)
    (om : gmap addr LightObject) : Prop := {
  wf_handle : forall h hd, tm !! h = Some hd ->
    exists p w, m_PimpleTransform hd = Some p /\ pm !! p = Some w;
  wf_owner : forall h h' p,
    tm !! h = Some {| m_PimpleTransform := Some p |} ->
    tm !! h' = Some {| m_PimpleTransform := Some p |} -> h = h';
  wf_count : forall p w, pm !! p = Some w ->
    exists c, om !! m_Transform w = Some c /\
              Z.of_nat (wrappersOf pm (m_Transform w)) <= m_ReferenceCount c
}.

Definition wellFormed (s : State) : Prop :=
  wf3 (transforms s) (pimples s) (objects s).

(** The member functions of a handle, as calls. *)
Inductive Operation : Type :=
| Construct (this : var) (dimensions : N) (type : TransformEnum)
| ConstructDefault (this : var)
| Copy (this txf : var)
| Assign (this txf : var)
| Destroy (this : var)
| CallMakeUniqueForWrite (this : var)
| CallSetParameters (this : var) (parameters : list double)
| CallSetFixedParameters (this : var) (parameters : list double).

Definition perform (op : Operation) : M unit :=
  match op with
  | Construct this dimensions type => Transform_ctor this dimensions type
  | ConstructDefault this => Transform_ctor_default this
  | Copy this txf => Transform_ctor_copy this txf
  | Assign this txf => Transform_assign this txf
  | Destroy this => Transform_dtor this
  | CallMakeUniqueForWrite this => MakeUniqueForWrite this
  | CallSetParameters this parameters => SetParameters this parameters
  | CallSetFixedParameters this parameters => SetFixedParameters this parameters
  end.

(** What C++ asks of the caller: a constructor runs on an object that does
    not exist yet, every other member function on objects that exist; a
    displacement field that has to be cloned has its buffer. *)
Definition permitted (s : State) (op : Operation) : Prop :=
  match op with
  | Construct this _ _ | ConstructDefault this => transforms s !! this = None
  | Copy this txf => transforms s !! this = None /\ is_Some (transforms s !! txf)
  | Assign this txf => is_Some (transforms s !! this) /\ is_Some (transforms s !! txf)
  | Destroy this => is_Some (transforms s !! this)
  | CallMakeUniqueForWrite this
  | CallSetParameters this _
  | CallSetFixedParameters this _ =>
      is_Some (transforms s !! this) /\ cloneable s this = true
  end.

(** The states a program reaches from the empty one through the member
    functions of its handles. *)
Inductive reachable : State -> Prop :=
| reachable_empty : reachable emptyState
| reachable_step (s s' : State) (op : Operation) :
    reachable s -> permitted s op -> final (perform op s) = Some s' -> reachable s'.

(** The only way a permitted member function does not end: the setter of
    the library is itself undefined on the transform of the handle. *)
Definition libraryUndefined (s : State) (op : Operation) : Prop :=
  match op with
  | CallSetParameters this v =>
      exists t, contentsOf s this = Some t /\ itkSetParameters t v = Unspecified
  | CallSetFixedParameters this v =>
      exists t, contentsOf s this = Some t /\ itkSetFixedParameters t v = Unspecified
  | _ => False
  end.

(** ** Concrete runs *)

(** The state a computation leaves ([s] itself after undefined behaviour). *)
Definition after {A} (c : M A) (s : State) : State :=
  match final (c s) with Some s' => s' | None => s end.

Module Scenario.

Definition A : var := 1%positive.
Definition B : var := 2%positive.

(** An affine transform in one handle. *)
Definition oneAffine : State := after (Transform_ctor A 3 sitkAffine) emptyState.

(** An empty composite of the library, held by one smart pointer of
    its owner (a transform reader, say), and a composite of two. *)
Definition emptyComposite : State :=
  set_objects (insert 4%positive
    {| m_ReferenceCount := 1; itk := itkNew CompositeTransform 3 |}) emptyState.

Definition twoCompositeObject : LightObject :=
  {| m_ReferenceCount := 1;
     itk := mkITKTransform CompositeTransform 3 [] [] false
              [(itkNew TranslationTransform 3, true); (itkNew AffineTransform 3, true)]
              None |}.
Definition twoComposite : State :=
  set_objects (insert 4%positive twoCompositeObject) emptyState.

(** A translation in one handle: not an Euler3D transform. *)
Definition oneTranslation : State := after (Transform_ctor A 3 sitkTranslation) emptyState.
Definition translationObject : LightObject :=
  {| m_ReferenceCount := 1; itk := itkNew TranslationTransform 3 |}.

(** An Euler3D facade [A] with angles set, and its copy [B]. *)
Definition eulerFresh : State := after (Euler3D_ctor A) emptyState.
Definition eulerAlone : State := after (Euler3D_SetRotation A 0.5 0.25 0.125) eulerFresh.
Definition eulerShared : State := after (Euler3D_ctor_copy B A) eulerAlone.
(** [B.SetCenter([1,2,3])], the mutation that makes [B] copy. *)
Definition eulerDiverged : State :=
  after (Euler3D_SetCenter B [1; 2; 3]%float) eulerShared.
(** [A.SetRotation(0.75, 0, 0)] afterwards. *)
Definition eulerMoved : State :=
  after (Euler3D_SetRotation A 0.75 0 0) eulerDiverged.
(** [A] is destroyed instead. *)
Definition eulerOrphaned : State := after (Euler3D_dtor A) eulerDiverged.
(** The deep copy of [B] installed through [SetPimpleTransform] instead. *)
Definition eulerRebound : State :=
  after (p <- get_m_PimpleTransform B ;; q <- DeepCopy p ;;
         Euler3D_SetPimpleTransform B (Some q)) eulerShared.

(** Two facades of their own, then [B = A]. *)
Definition eulerTwo : State := after (Euler3D_ctor B) eulerFresh.
Definition eulerAssigned : State := after (Euler3D_assign B A) eulerTwo.

(** A 2D image of vectors of two doubles with its pixel buffer. *)
Definition vectorImage : Image :=
  {| PixelID := sitkVectorFloat64; Dimension := 2; NumberOfComponentsPerPixel := 2;
     m_PixelContainer :=
       {| m_ImportPointer := 7%positive; m_ContainerManageMemory := true |} |}.
Definition fieldImage : State :=
  set_buffers (insert 7%positive [1; 2; 3; 4]%float)
    (set_images (insert A vectorImage) emptyState).

End Scenario.

(** Further runs. *)
Module Traces.

(** The facade [B] of [Scenario.eulerShared] after the deep copy of its
    Backend, which is not installed yet. *)
Definition eulerCopied : State :=
  after (p <- get_m_PimpleTransform Scenario.B ;; DeepCopy p) Scenario.eulerShared.

(** An affine transform, its copy, a setter on the copy, and the original
    destroyed. *)
Definition copyOutlives : State :=
  after (Transform_dtor Scenario.A)
    (after (SetParameters Scenario.B (ones 12))
       (after (Transform_ctor_copy Scenario.B Scenario.A) Scenario.oneAffine)).

(** A command that holds the object 5 while the object 6 is alive, and two
    commands that hold the object 5. *)
Definition heldOnce : Holders :=
  {| aliveT := {[5%positive; 6%positive]};
     m_Object := {[Scenario.A := Some 5%positive]} |}.
Definition heldTwice : Holders :=
  {| aliveT := {[5%positive]};
     m_Object := {[Scenario.A := Some 5%positive; Scenario.B := Some 5%positive]} |}.

End Traces.

(** ** Symbolic execution *)

Create HintDb sitk.
#[export] Hint Unfold
  bind ret throw undefined modify deref sitkExceptionMacro
  allocObject Register destroyObject UnRegister Clone
  allocPimple new_PimpleTransform new_PimpleTransform_from delete_PimpleTransform
  thePimple ShallowCopy DeepCopy GetReferenceCount GetTransformBase GetInputDimension
  readObject writeObject Pimple_GetParameters Pimple_GetFixedParameters
  Pimple_SetParameters Pimple_SetFixedParameters
  get_m_PimpleTransform set_m_PimpleTransform constructing updateObject
  Transform_ctor_default Transform_ctor Transform_ctor_composite Transform_dtor
  Transform_ctor_copy Transform_assign MakeUniqueForWrite GetITKBase GetDimension
  SetParameters GetParameters SetFixedParameters GetFixedParameters
  callSlot readThrough : sitk.

(** One step: unfold the member functions, reduce, and read the stores
    with the lookups that are known. *)
Ltac look :=
  match goal with
  | H : ?m !! ?k = _ |- context [?m !! ?k] => rewrite H
  | |- context [<[?k := _]> _ !! ?k] => rewrite lookup_insert_eq
  | |- context [<[?k := _]> _ !! ?j] => rewrite lookup_insert_ne by congruence
  | |- context [delete ?k _ !! ?j] => rewrite lookup_delete_ne by congruence
  end.
Ltac run := repeat first [ progress autounfold with sitk | progress simpl | look ].

(** * Properties *)

Section Stores.
Context {V : Type}.
Implicit Type m : gmap positive V.

Lemma fresh_unused m : m !! fresh (dom m) = None.
Proof. apply not_elem_of_dom, is_fresh. Qed.

Lemma used_not_fresh m k x : m !! k = Some x -> k <> fresh (dom m).
Proof. intros Hk E. rewrite E, fresh_unused in Hk. discriminate. Qed.

Lemma used_not_fresh' m k x : m !! k = Some x -> fresh (dom m) <> k.
Proof. intros Hk E. rewrite <- E, fresh_unused in Hk. discriminate. Qed.
End Stores.

(** ** Construction by kind and dimension *)

(** [PimpleTransform<T>()] installed in a handle under construction. *)
Lemma install_fresh (this : var) (c : ITKClass) (d : N) (s : State) :
  exists s',
    (p <- new_PimpleTransform c d ;; set_m_PimpleTransform this (Some p)) s = Normal tt s' /\
    freshBackend s s' this (itkNew c d) /\
    euler3d s' = euler3d s /\ images s' = images s /\ buffers s' = buffers s.
Proof.
  eexists. split; [reflexivity|]. split; [|auto].
  exists (fresh (dom (pimples s))), (fresh (dom (objects s))).
  run. auto using @fresh_unused.
Qed.

Lemma freshBackend_constructing (s s' : State) (this : var) (t : ITKTransform) :
  freshBackend (set_transforms (insert this {| m_PimpleTransform := None |}) s) s' this t ->
  freshBackend s s' this t.
Proof. exact (fun H => H). Qed.

Lemma InternalInitialization_succeeds (d : N) (this : var) (type : TransformEnum) (s : State) :
  d = 2%N \/ d = 3%N ->
  constructible type = true ->
  (d = 2%N -> only3D type = false) ->
  exists s' t,
    InternalInitialization d this type None s = Normal tt s' /\
    freshBackend s s' this t /\ InputSpaceDimension t = d.
Proof.
  intros Hd Hc H3.
  assert (Hsub : forall c, exists s' t,
             (p <- new_PimpleTransform c d ;; set_m_PimpleTransform this (Some p)) s
               = Normal tt s' /\
             freshBackend s s' this t /\ InputSpaceDimension t = d).
  { intros c. destruct (install_fresh this c d s) as (s' & E & F & _).
    exists s', (itkNew c d). repeat split; auto. destruct c; reflexivity. }
  destruct type; simpl in Hc; try discriminate; try apply Hsub.
  - unfold InternalInitialization. destruct Hd as [-> | ->]; [specialize (H3 eq_refl); discriminate|].
    apply Hsub.
  - unfold InternalInitialization. destruct Hd as [-> | ->]; [specialize (H3 eq_refl); discriminate|].
    apply Hsub.
  - unfold InternalInitialization. destruct Hd as [-> | ->]; [specialize (H3 eq_refl); discriminate|].
    apply Hsub.
  - (* sitkComposite *)
    eexists. exists (identityComposite d). split.
    + unfold InternalInitialization. run. reflexivity.
    + split; [|reflexivity].
      exists (fresh (dom (pimples s))), (fresh (dom (objects s))).
      run. auto using @fresh_unused.
Qed.

Lemma constructing_Normal (this : var) (body : M unit) (s s' : State) :
  body (set_transforms (insert this {| m_PimpleTransform := None |}) s) = Normal tt s' ->
  constructing this None body s = Normal tt s'.
Proof. intros E. unfold constructing. run. rewrite E. reflexivity. Qed.

Lemma constructing_Throws (this : var) (body : M unit) (s : State) (e : Exception) :
  body (set_transforms (insert this {| m_PimpleTransform := None |}) s)
    = Throws e (set_transforms (insert this {| m_PimpleTransform := None |}) s) ->
  exists s', constructing this None body s = Throws e s' /\ nothingBuilt s s' this.
Proof.
  intros E. eexists. split.
  - unfold constructing. run. rewrite E. reflexivity.
  - repeat split. simpl. apply lookup_delete_eq.
Qed.

(** C3: [Transform( dimensions, type )] throws for a dimension other than 2
    and 3, whatever the kind, and for the kinds that exist in 3D only when
    the dimension is 2; for every other kind it builds (every one but the
    displacement field) and dimension 2 or 3 it ends normally with a fresh
    Backend of that dimension, whose reference count is 1. *)
Theorem construct_dimension_validation (this : var) (dimensions : N)
    (type : TransformEnum) (s : State) :
  (dimensions <> 2%N -> dimensions <> 3%N ->
     exists s', Transform_ctor this dimensions type s
                  = Throws (GenericException "Invalid dimension for transform") s' /\
                nothingBuilt s s' this) /\
  (dimensions = 2%N -> only3D type = true ->
     exists what s', Transform_ctor this dimensions type s
                       = Throws (GenericException what) s' /\
                     nothingBuilt s s' this) /\
  (dimensions = 2%N \/ dimensions = 3%N -> constructible type = true ->
   (dimensions = 2%N -> only3D type = false) ->
     exists s' t, Transform_ctor this dimensions type s = Normal tt s' /\
                  freshBackend s s' this t /\ InputSpaceDimension t = dimensions).
Proof.
  split; [|split].
  - intros H2 H3. apply constructing_Throws.
    apply N.eqb_neq in H2, H3. rewrite H2, H3. reflexivity.
  - intros -> H3.
    destruct type; try discriminate; eexists; apply constructing_Throws; reflexivity.
  - intros Hd Hc H3.
    destruct (InternalInitialization_succeeds dimensions this type
                (set_transforms (insert this {| m_PimpleTransform := None |}) s) Hd Hc H3)
      as (s' & t & E & F & Ht).
    exists s', t. split; [|split; [apply freshBackend_constructing, F | exact Ht]].
    apply constructing_Normal. destruct Hd as [-> | ->]; exact E.
Qed.

(** A run of C3: dimension 4 is refused, a 2D versor is refused, a 3D
    versor is built. *)
Lemma construct_dimension_validation_witness :
  (4%N <> 2%N /\ 4%N <> 3%N /\
   exists s', Transform_ctor Scenario.A 4 sitkAffine emptyState
                = Throws (GenericException "Invalid dimension for transform") s' /\
              nothingBuilt emptyState s' Scenario.A) /\
  (only3D sitkVersor = true /\
   exists what s', Transform_ctor Scenario.A 2 sitkVersor emptyState
                     = Throws (GenericException what) s' /\
                   nothingBuilt emptyState s' Scenario.A) /\
  (constructible sitkVersor = true /\
   exists s' t, Transform_ctor Scenario.A 3 sitkVersor emptyState = Normal tt s' /\
                freshBackend emptyState s' Scenario.A t /\ InputSpaceDimension t = 3%N).
Proof.
  split; [|split].
  - split; [discriminate|]. split; [discriminate|].
    apply (construct_dimension_validation Scenario.A 4 sitkAffine emptyState); discriminate.
  - split; [reflexivity|].
    apply (construct_dimension_validation Scenario.A 2 sitkVersor emptyState); reflexivity.
  - split; [reflexivity|].
    apply (construct_dimension_validation Scenario.A 3 sitkVersor emptyState);
      [right; reflexivity | reflexivity | discriminate].
Defined.

(** C7: for dimension 2 and 3, [sitkIdentity] and every value of the enum
    that names no enumerator end in the [default] branch: construction
    succeeds with a fresh identity transform of that dimension. *)
Theorem unknown_kind_falls_back_to_identity (this : var) (dimensions : N)
    (type : TransformEnum) (s : State) :
  dimensions = 2%N \/ dimensions = 3%N ->
  type = sitkIdentity \/ (exists raw, type = sitkUnlisted raw) ->
  exists s', Transform_ctor this dimensions type s = Normal tt s' /\
             freshBackend s s' this (itkNew IdentityTransform dimensions).
Proof.
  intros Hd Ht.
  destruct (install_fresh this IdentityTransform dimensions
              (set_transforms (insert this {| m_PimpleTransform := None |}) s))
    as (s' & E & F & _).
  exists s'. split; [|apply freshBackend_constructing, F].
  apply constructing_Normal.
  destruct Ht as [-> | [raw ->]]; destruct Hd as [-> | ->]; exact E.
Qed.

Lemma unknown_kind_falls_back_to_identity_witness :
  (2%N = 2%N \/ 2%N = 3%N) /\
  (sitkUnlisted 99 = sitkIdentity \/ (exists raw, sitkUnlisted 99 = sitkUnlisted raw)) /\
  exists s', Transform_ctor Scenario.A 2 (sitkUnlisted 99) emptyState = Normal tt s' /\
             freshBackend emptyState s' Scenario.A (itkNew IdentityTransform 2).
Proof.
  split; [left; reflexivity|]. split; [right; exists 99; reflexivity|].
  apply (unknown_kind_falls_back_to_identity Scenario.A 2 (sitkUnlisted 99) emptyState).
  - left; reflexivity.
  - right; exists 99; reflexivity.
Defined.

(** ** Composites *)

Lemma flags_all_off (q : list (ITKTransform * bool)) :
  map snd (map (fun e => (fst e, false)) q) = replicate (length q) false.
Proof. induction q as [|e q IH]; simpl; [reflexivity | now rewrite IH]. Qed.

Lemma subTransforms_off (q : list (ITKTransform * bool)) :
  map fst (map (fun e : ITKTransform * bool => (fst e, false)) q) = map fst q.
Proof. induction q as [|e q IH]; simpl; [reflexivity | now rewrite IH]. Qed.

(** After [SetOnlyMostRecentTransformToOptimizeOn] the last entry of a
    queue that is not empty is the one that is flagged. *)
Lemma most_recent_only (t : ITKTransform) :
  m_TransformQueue t <> [] ->
  toOptimizeFlags (SetOnlyMostRecentTransformToOptimizeOn t)
    = (replicate (length (m_TransformQueue t) - 1) false ++ [true])%list.
Proof.
  unfold toOptimizeFlags, SetOnlyMostRecentTransformToOptimizeOn. simpl.
  destruct (m_TransformQueue t) as [|e q] using rev_ind; [congruence|]. intros _.
  rewrite map_app, !length_app, length_map. simpl.
  replace (length q + 1 - 1)%nat with (length (map (fun e0 : ITKTransform * bool => (fst e0, false)) q) + 0)%nat
    by (rewrite length_map; lia).
  rewrite alter_app_r. simpl. rewrite map_app, flags_all_off. simpl.
  rewrite length_map, Nat.add_0_r. reflexivity.
Qed.

Lemma most_recent_keeps_subTransforms (t : ITKTransform) :
  subTransforms (SetOnlyMostRecentTransformToOptimizeOn t) = subTransforms t.
Proof.
  unfold subTransforms, SetOnlyMostRecentTransformToOptimizeOn. simpl.
  rewrite <- (subTransforms_off (m_TransformQueue t)).
  generalize (map (fun e : ITKTransform * bool => (fst e, false)) (m_TransformQueue t)).
  intros q.
  generalize (length q - 1)%nat. intros n. revert n.
  induction q as [|e q IH]; intros [|n]; simpl; try reflexivity.
  f_equal. apply IH.
Qed.

Lemma all_off_keeps_subTransforms (t : ITKTransform) :
  subTransforms (SetAllTransformsToOptimizeOff t) = subTransforms t.
Proof. apply subTransforms_off. Qed.

Lemma guarded_fresh (d : N) : guarded d (itkNew CompositeTransform d) = identityComposite d.
Proof. reflexivity. Qed.

Lemma guarded_subTransforms (d : N) (t : ITKTransform) :
  subTransforms (guarded d t)
    = if IsTransformQueueEmpty t then [itkNew IdentityTransform d] else subTransforms t.
Proof.
  unfold guarded. rewrite most_recent_keeps_subTransforms, all_off_keeps_subTransforms.
  unfold IsTransformQueueEmpty, subTransforms.
  destruct (m_TransformQueue t) eqn:E; simpl; rewrite ?E; reflexivity.
Qed.

Lemma guarded_not_empty (d : N) (t : ITKTransform) :
  m_TransformQueue (guarded d t) <> [].
Proof.
  intros E. pose proof (guarded_subTransforms d t) as H.
  unfold subTransforms in H at 1. rewrite E in H. simpl in H.
  unfold IsTransformQueueEmpty, subTransforms in H.
  destruct (m_TransformQueue t); simpl in H; discriminate.
Qed.

Lemma guarded_flags (d : N) (t : ITKTransform) :
  toOptimizeFlags (guarded d t)
    = (replicate (length (m_TransformQueue (guarded d t)) - 1) false ++ [true])%list.
Proof.
  unfold guarded at 1.
  set (u := if IsTransformQueueEmpty t then _ else t).
  rewrite most_recent_only.
  - f_equal. f_equal. f_equal. unfold guarded. fold u. simpl.
    rewrite length_alter, !length_map. reflexivity.
  - simpl. intros E. apply (f_equal (@length _)) in E. rewrite length_map in E. simpl in E.
    subst u. unfold IsTransformQueueEmpty in E.
    destruct (m_TransformQueue t) eqn:Q; simpl in E.
    + rewrite Q in E. discriminate.
    + rewrite Q in E. discriminate.
Qed.

(** The build-fresh mode of the composite case. *)
Lemma composite_build_fresh (d : N) (this : var) (s : State) :
  exists s', InternalInitialization d this sitkComposite None s = Normal tt s' /\
             freshBackend s s' this (guarded d (itkNew CompositeTransform d)).
Proof.
  eexists. split.
  - unfold InternalInitialization. run. reflexivity.
  - exists (fresh (dom (pimples s))), (fresh (dom (objects s))).
    run. auto using @fresh_unused.
Qed.

(** The adopt-existing mode: the wrapper is around the object that was
    handed in, which went through the guard and the flag calls in place and
    gained the wrapper's reference. *)
Lemma composite_adopt (d : N) (this : var) (s : State) (b : addr) (c : LightObject) :
  objects s !! b = Some c ->
  isComposite d (itk c) = true ->
  1 <= m_ReferenceCount c ->
  exists s' p,
    InternalInitialization d this sitkComposite (Some b) s = Normal tt s' /\
    transforms s' !! this = Some {| m_PimpleTransform := Some p |} /\
    pimples s !! p = None /\
    pimples s' !! p = Some {| m_Transform := b |} /\
    objects s' = <[b := {| m_ReferenceCount := m_ReferenceCount c + 1;
                           itk := guarded d (itk c) |}]> (objects s).
Proof.
  intros Hb Hc Hrc.
  exists (set_transforms (insert this {| m_PimpleTransform := Some (fresh (dom (pimples s))) |})
            (set_pimples (insert (fresh (dom (pimples s))) {| m_Transform := b |})
               (set_objects (insert b {| m_ReferenceCount := m_ReferenceCount c + 1;
                                         itk := guarded d (itk c) |}) s))),
         (fresh (dom (pimples s))).
  split; [|run; auto using @fresh_unused].
  unfold InternalInitialization. run. rewrite Hc. run.
  destruct (IsTransformQueueEmpty (itk c)) eqn:Q; run;
    match goal with |- context [?x <=? 0] => destruct (Z.leb_spec0 x 0) as [Hle|Hgt]; [lia|] end;
    run; unfold set_transforms, set_pimples, set_objects; simpl; f_equal; f_equal;
    rewrite !insert_insert_eq; unfold guarded; rewrite Q; f_equal; f_equal; lia.
Qed.

(** ** Reads through a handle *)

Lemma readObject_outcome {A} (g : ITKTransform -> LibResult A) (h : var) (s : State) :
  (p <- get_m_PimpleTransform h ;; readObject g p) s = readOutcome g s h.
Proof.
  unfold readOutcome, contentsOf, objectOf, backendOf, wrapperOf. run.
  destruct (transforms s !! h) as [[[p|]]|]; run; try reflexivity.
  destruct (pimples s !! p) as [w|]; run; try reflexivity.
  destruct (objects s !! m_Transform w) as [c|]; run; try reflexivity.
  destruct (g (itk c)); reflexivity.
Qed.

Lemma GetParameters_outcome (h : var) (s : State) :
  GetParameters h s = readOutcome itkGetParameters s h.
Proof. apply readObject_outcome. Qed.

Lemma GetFixedParameters_outcome (h : var) (s : State) :
  GetFixedParameters h s = readOutcome itkGetFixedParameters s h.
Proof. apply readObject_outcome. Qed.

Lemma GetDimension_outcome (h : var) (s : State) :
  GetDimension h s = readOutcome (fun t => Done (InputSpaceDimension t)) s h.
Proof.
  unfold readOutcome, contentsOf, objectOf, backendOf, wrapperOf. run.
  destruct (transforms s !! h) as [[[p|]]|]; run; try reflexivity.
  destruct (pimples s !! p) as [w|]; run; try reflexivity.
  destruct (objects s !! m_Transform w) as [c|]; run; reflexivity.
Qed.

Lemma freshBackend_contents (s s' : State) (this : var) (t : ITKTransform) :
  freshBackend s s' this t -> contentsOf s' this = Some t.
Proof.
  intros (p & o & Ht & _ & Hp & _ & Ho).
  unfold contentsOf, objectOf, backendOf, wrapperOf.
  rewrite Ht; simpl; rewrite Hp; simpl; rewrite Ho. reflexivity.
Qed.

(** C4: [Transform( dimension, sitkComposite )] leaves a composite whose
    queue holds one sub-transform, the identity, and [GetParameters] right
    after it returns normally, with the (empty) parameter vector of an
    identity transform. *)
Theorem composite_never_empty (this : var) (dimension : N) (s : State) :
  dimension = 2%N \/ dimension = 3%N ->
  exists s',
    Transform_ctor this dimension sitkComposite s = Normal tt s' /\
    freshBackend s s' this (identityComposite dimension) /\
    subTransforms (identityComposite dimension) = [itkNew IdentityTransform dimension] /\
    GetParameters this s' = Normal [] s' /\
    itkGetParameters (itkNew IdentityTransform dimension) = Done [].
Proof.
  intros Hd.
  destruct (composite_build_fresh dimension this
              (set_transforms (insert this {| m_PimpleTransform := None |}) s))
    as (s' & E & F).
  rewrite guarded_fresh in F. apply freshBackend_constructing in F.
  exists s'. split; [|split; [exact F|split; [reflexivity|split; [|reflexivity]]]].
  - apply constructing_Normal. destruct Hd as [-> | ->]; exact E.
  - rewrite GetParameters_outcome. unfold readOutcome.
    rewrite (freshBackend_contents _ _ _ _ F). reflexivity.
Qed.

Lemma composite_never_empty_witness :
  (3%N = 2%N \/ 3%N = 3%N) /\
  exists s',
    Transform_ctor Scenario.A 3 sitkComposite emptyState = Normal tt s' /\
    freshBackend emptyState s' Scenario.A (identityComposite 3) /\
    subTransforms (identityComposite 3) = [itkNew IdentityTransform 3] /\
    GetParameters Scenario.A s' = Normal [] s' /\
    itkGetParameters (itkNew IdentityTransform 3) = Done [].
Proof.
  split; [right; reflexivity|].
  apply (composite_never_empty Scenario.A 3 emptyState). right; reflexivity.
Defined.

(** C5 without the guard fails: an empty composite that is handed to the
    adopt-existing mode does not keep its (empty) queue. *)
Lemma adopt_empty_composite_is_guarded :
  ~ adoptsWithoutGuard Scenario.emptyComposite 3 Scenario.A 4%positive.
Proof.
  intros H.
  destruct (H {| m_ReferenceCount := 1; itk := itkNew CompositeTransform 3 |}
              (after (InternalInitialization 3 Scenario.A sitkComposite (Some 4%positive))
                     Scenario.emptyComposite)
              eq_refl eq_refl) as (c' & Hc' & Hq).
  vm_compute in Hc'. injection Hc' as <-. vm_compute in Hq. discriminate.
Qed.

(** C5, amended: the adopt-existing mode wraps the very object it is given
    (no other ITK object appears) and the object gains the wrapper's
    reference; the guard runs in this mode too, so the queue gets an
    identity sub-transform when it is empty and keeps its sub-transforms
    when it is not. *)
Theorem adopt_existing_composite (d : N) (this : var) (s : State) (b : addr)
    (c : LightObject) :
  objects s !! b = Some c ->
  isComposite d (itk c) = true ->
  1 <= m_ReferenceCount c ->
  exists s' p c',
    InternalInitialization d this sitkComposite (Some b) s = Normal tt s' /\
    transforms s' !! this = Some {| m_PimpleTransform := Some p |} /\
    pimples s !! p = None /\
    pimples s' !! p = Some {| m_Transform := b |} /\
    (forall o, o <> b -> objects s' !! o = objects s !! o) /\
    objects s' !! b = Some c' /\
    m_ReferenceCount c' = m_ReferenceCount c + 1 /\
    subTransforms (itk c')
      = if IsTransformQueueEmpty (itk c) then [itkNew IdentityTransform d]
        else subTransforms (itk c).
Proof.
  intros Hb Hc Hrc.
  destruct (composite_adopt d this s b c Hb Hc Hrc) as (s' & p & E & Ht & Hfresh & Hp & Ho).
  exists s', p, {| m_ReferenceCount := m_ReferenceCount c + 1; itk := guarded d (itk c) |}.
  repeat split; auto.
  - intros o Hne. rewrite Ho. apply lookup_insert_ne. congruence.
  - rewrite Ho. apply lookup_insert_eq.
  - apply guarded_subTransforms.
Qed.

Lemma adopt_existing_composite_witness :
  exists c,
    objects Scenario.twoComposite !! 4%positive = Some c /\
    isComposite 3 (itk c) = true /\
    1 <= m_ReferenceCount c /\
    exists s' p c',
      InternalInitialization 3 Scenario.A sitkComposite (Some 4%positive) Scenario.twoComposite
        = Normal tt s' /\
      transforms s' !! Scenario.A = Some {| m_PimpleTransform := Some p |} /\
      pimples Scenario.twoComposite !! p = None /\
      pimples s' !! p = Some {| m_Transform := 4%positive |} /\
      (forall o, o <> 4%positive -> objects s' !! o = objects Scenario.twoComposite !! o) /\
      objects s' !! 4%positive = Some c' /\
      m_ReferenceCount c' = m_ReferenceCount c + 1 /\
      subTransforms (itk c')
        = if IsTransformQueueEmpty (itk c) then [itkNew IdentityTransform 3]
          else subTransforms (itk c).
Proof.
  exists Scenario.twoCompositeObject.
  split; [reflexivity|]. split; [reflexivity|]. split; [simpl; lia|].
  apply (adopt_existing_composite 3 Scenario.A Scenario.twoComposite 4%positive
           Scenario.twoCompositeObject); [reflexivity | reflexivity | simpl; lia].
Defined.

(** C6: in both modes of the composite case the flags that come out are
    off for every sub-transform but the last of the queue, the one added
    most recently, whose flag is on. *)
Theorem composite_optimizes_most_recent_only (d : N) (this : var) (s : State) :
  (exists s' t,
     InternalInitialization d this sitkComposite None s = Normal tt s' /\
     contentsOf s' this = Some t /\
     m_TransformQueue t <> [] /\
     toOptimizeFlags t = (replicate (length (m_TransformQueue t) - 1) false ++ [true])%list) /\
  (forall b c,
     objects s !! b = Some c -> isComposite d (itk c) = true -> 1 <= m_ReferenceCount c ->
     exists s' t,
       InternalInitialization d this sitkComposite (Some b) s = Normal tt s' /\
       contentsOf s' this = Some t /\
       m_TransformQueue t <> [] /\
       toOptimizeFlags t = (replicate (length (m_TransformQueue t) - 1) false ++ [true])%list).
Proof.
  split.
  - destruct (composite_build_fresh d this s) as (s' & E & F).
    exists s', (guarded d (itkNew CompositeTransform d)).
    split; [exact E|]. split; [exact (freshBackend_contents _ _ _ _ F)|].
    split; [apply guarded_not_empty | apply guarded_flags].
  - intros b c Hb Hc Hrc.
    destruct (composite_adopt d this s b c Hb Hc Hrc) as (s' & p & E & Ht & _ & Hp & Ho).
    exists s', (guarded d (itk c)). split; [exact E|]. split.
    + unfold contentsOf, objectOf, backendOf, wrapperOf.
      rewrite Ht. simpl. rewrite Hp. simpl. rewrite Ho, lookup_insert_eq. reflexivity.
    + split; [apply guarded_not_empty | apply guarded_flags].
Qed.

Lemma composite_optimizes_most_recent_only_witness :
  exists c,
    objects Scenario.twoComposite !! 4%positive = Some c /\
    isComposite 3 (itk c) = true /\
    1 <= m_ReferenceCount c /\
    exists s' t,
      InternalInitialization 3 Scenario.A sitkComposite (Some 4%positive) Scenario.twoComposite
        = Normal tt s' /\
      contentsOf s' Scenario.A = Some t /\
      m_TransformQueue t <> [] /\
      toOptimizeFlags t = (replicate (length (m_TransformQueue t) - 1) false ++ [true])%list.
Proof.
  exists Scenario.twoCompositeObject.
  split; [reflexivity|]. split; [reflexivity|]. split; [simpl; lia|].
  apply (proj2 (composite_optimizes_most_recent_only 3 Scenario.A Scenario.twoComposite)
               4%positive Scenario.twoCompositeObject); [reflexivity | reflexivity | simpl; lia].
Defined.


(** ** Handles in their invariant *)

Lemma live_inv (s : State) (h : var) :
  live s h = true ->
  exists p o c,
    transforms s !! h = Some {| m_PimpleTransform := Some p |} /\
    pimples s !! p = Some {| m_Transform := o |} /\
    objects s !! o = Some c /\
    1 <= m_ReferenceCount c.
Proof.
  unfold live, objectOf, backendOf, wrapperOf.
  destruct (transforms s !! h) as [[[p|]]|] eqn:E1; simpl; try discriminate.
  destruct (pimples s !! p) as [[o]|] eqn:E2; simpl; try discriminate.
  destruct (objects s !! o) as [c|] eqn:E3; simpl; try discriminate.
  intros H. exists p, o, c. repeat split; auto. now apply Z.leb_le.
Qed.

Lemma reaches (s : State) (h : var) (p o : addr) (c : LightObject) :
  transforms s !! h = Some {| m_PimpleTransform := Some p |} ->
  pimples s !! p = Some {| m_Transform := o |} ->
  objects s !! o = Some c ->
  wrapperOf s h = Some p /\ backendOf s h = Some o /\
  objectOf s h = Some c /\ contentsOf s h = Some (itk c).
Proof.
  intros H1 H2 H3. unfold contentsOf, objectOf, backendOf, wrapperOf.
  rewrite H1. simpl. rewrite H2. simpl. rewrite H3. auto.
Qed.

Lemma readOutcome_value {A} (g : ITKTransform -> LibResult A) (s s' : State) (h h' : var) :
  contentsOf s' h' = contentsOf s h ->
  value (readOutcome g s' h') = value (readOutcome g s h).
Proof.
  intros E. unfold readOutcome. rewrite E.
  destruct (contentsOf s h) as [t|]; [|reflexivity]. destruct (g t); reflexivity.
Qed.


(** ** Copy-on-write *)

(** The library's setters do not look at the displacement field. *)
Lemma itkSetVector_withField (fixed : bool) (t : ITKTransform) (fld : option ITKImage)
    (v : list double) :
  itkSetVector fixed (withField t fld) v = Unspecified ->
  itkSetVector fixed t v = Unspecified.
Proof.
  destruct t as [c d p f z q fld0]. unfold withField. simpl.
  destruct c; simpl; repeat case_match; congruence.
Qed.






(** [MakeUniqueForWrite] on a handle in its invariant ends normally and
    leaves the bound accessors as they are. *)
Lemma MakeUniqueForWrite_keeps_slots (s : State) (x : var) :
  live s x = true -> cloneable s x = true ->
  exists s', MakeUniqueForWrite x s = Normal tt s' /\ euler3d s' = euler3d s.
Proof.
  intros Hlive Hclone.
  destruct (live_inv _ _ Hlive) as (p & o & c & H1 & H2 & H3 & H4).
  destruct (reaches _ _ _ _ _ H1 H2 H3) as (Hw & Hb & _ & Hc).
  assert (Hf : fieldLive s (itk c) = true).
  { unfold cloneable in Hclone. now rewrite Hc in Hclone. }
  pose proof (used_not_fresh _ _ _ H2) as Hq.
  pose proof (used_not_fresh _ _ _ H3) as Hq'.
  run.
  destruct (Z.ltb_spec0 1 (m_ReferenceCount c)) as [Hrc|Hrc]; [|eexists; split; reflexivity].
  run. unfold fieldLive in Hf.
  destruct (m_DisplacementField (itk c)) as [f|] eqn:Hfld;
    [destruct (buffers s !! m_ImportPointer f) as [px|] eqn:Hpx; [|discriminate]|];
    run; (destruct (Z.leb_spec0 (m_ReferenceCount c - 1) 0); [lia|]); run;
    eexists; split; reflexivity.
Qed.

(** The library's vectors do not depend on the displacement field. *)
Lemma itkGetVector_withField (fixed : bool) (t : ITKTransform) (fld : option ITKImage) :
  itkGetVector fixed (withField t fld) = itkGetVector fixed t.
Proof. destruct t as [c d p f z q fld0]. reflexivity. Qed.

Lemma itkSetVector_withField_result (fixed : bool) (t : ITKTransform)
    (fld : option ITKImage) (v : list double) :
  itkSetVector fixed (withField t fld) v
    = match itkSetVector fixed t v with
      | Done t' => Done (withField t' fld)
      | Raised w => Raised w
      | Unspecified => Unspecified
      end.
Proof.
  destruct t as [c d p f z q fld0]. unfold withField. simpl.
  destruct c; simpl; repeat case_match; simplify_eq; reflexivity.
Qed.

(** [MakeUniqueForWrite] followed by the write, outcome by outcome: the
    handle ends on what the library makes of its transform (up to the
    buffer of a cloned displacement field), and stays in its invariant. *)
Lemma write_result (g : ITKTransform -> LibResult ITKTransform) (s : State) (x : var)
    (t : ITKTransform) :
  live s x = true -> cloneable s x = true ->
  contentsOf s x = Some t ->
  exists fld,
    match g (withField t fld) with
    | Done t' =>
        exists s', (_ <- MakeUniqueForWrite x ;; p <- get_m_PimpleTransform x ;;
                    writeObject g p) s = Normal tt s' /\
                   contentsOf s' x = Some t' /\ live s' x = true /\
                   fieldLive s' (withField t fld) = true /\
                   samePixels s s' (m_DisplacementField t) fld
    | Raised w =>
        exists s', (_ <- MakeUniqueForWrite x ;; p <- get_m_PimpleTransform x ;;
                    writeObject g p) s = Throws (itkExceptionObject w) s' /\
                   contentsOf s' x = Some (withField t fld) /\ live s' x = true /\
                   fieldLive s' (withField t fld) = true /\
                   samePixels s s' (m_DisplacementField t) fld
    | Unspecified =>
        (_ <- MakeUniqueForWrite x ;; p <- get_m_PimpleTransform x ;;
         writeObject g p) s = Undefined
    end.
Proof.
  intros Hlive Hclone Ht.
  destruct (live_inv _ _ Hlive) as (p & o & c & H1 & H2 & H3 & H4).
  destruct (reaches _ _ _ _ _ H1 H2 H3) as (Hw & Hb & _ & Hc).
  assert (t = itk c) as -> by congruence.
  assert (Hf : fieldLive s (itk c) = true).
  { unfold cloneable in Hclone. now rewrite Hc in Hclone. }
  pose proof (used_not_fresh _ _ _ H2) as Hq.
  pose proof (used_not_fresh _ _ _ H3) as Hq'.
  destruct c as [rc [cls d pr fx z q fld]]. unfold fieldLive in Hf. simpl in *.
  destruct (Z.ltb_spec0 1 rc) as [Hrc|Hrc].
  - destruct fld as [f|];
      [destruct (buffers s !! m_ImportPointer f) as [px|] eqn:Hpx; [|discriminate]|].
    + exists (Some {| m_ImportPointer := fresh (dom (buffers s));
                      m_ContainerManageMemory := true |}).
      unfold withField. run.
      (destruct (Z.ltb_spec0 1 rc); [|lia]); run;
        (destruct (Z.leb_spec0 (rc - 1) 0); [lia|]); run.
      unfold withField; simpl;
      match goal with |- context [g ?t] => destruct (g t) as [t'|w|] eqn:Hg end;
        [eexists; split; [reflexivity|] | eexists; split; [reflexivity|] | reflexivity];
        unfold live, fieldLive, samePixels, contentsOf, objectOf, backendOf, wrapperOf; run;
        eauto 8.
    + exists None. unfold withField. run.
      (destruct (Z.ltb_spec0 1 rc); [|lia]); run;
        (destruct (Z.leb_spec0 (rc - 1) 0); [lia|]); run.
      unfold withField; simpl;
      match goal with |- context [g ?t] => destruct (g t) as [t'|w|] eqn:Hg end;
        [eexists; split; [reflexivity|] | eexists; split; [reflexivity|] | reflexivity];
        unfold live, fieldLive, samePixels, contentsOf, objectOf, backendOf, wrapperOf; run;
        auto.
  - exists fld. unfold withField. run.
    (destruct (Z.ltb_spec0 1 rc); [lia|]); run.
    unfold withField; simpl;
    match goal with |- context [g ?t] => destruct (g t) as [t'|w|] eqn:Hg end;
      [eexists; split; [reflexivity|] | eexists; split; [reflexivity|] | reflexivity];
      unfold live, fieldLive, samePixels, contentsOf, objectOf, backendOf, wrapperOf; run;
      (split; [reflexivity|]); (split; [apply Z.leb_le; lia|]);
      (destruct fld as [f|]; simpl in *; [|auto]);
      (destruct (buffers s !! m_ImportPointer f) as [px|] eqn:Hpx; [|discriminate]);
      eauto.
Qed.

Lemma setter_result (fixed : bool) (v : list double) (s : State) (x : var)
    (t : ITKTransform) :
  live s x = true -> cloneable s x = true -> contentsOf s x = Some t ->
  followsLibrary
    ((_ <- MakeUniqueForWrite x ;; p <- get_m_PimpleTransform x ;;
      writeObject (fun t => itkSetVector fixed t v) p) s)
    (itkSetVector fixed t v) x t.
Proof.
  intros Hl Hc Ht.
  destruct (write_result (fun t => itkSetVector fixed t v) s x t Hl Hc Ht) as (fld & W).
  rewrite itkSetVector_withField_result in W. unfold followsLibrary, endsOn.
  destruct (itkSetVector fixed t v) as [t'|w|]; [| |exact W];
    destruct W as (s' & E & C & L & F & _); exists s'; (split; [exact E|]); exists fld;
    (split; [exact C|]); (split; [exact L|]); unfold cloneable; rewrite C; exact F.
Qed.

Lemma bind_Normal {A B} (c : M A) (k : A -> M B) (s s' : State) (a : A) :
  c s = Normal a s' -> (x <- c ;; k x) s = k a s'.
Proof. intros E. unfold bind. now rewrite E. Qed.




(** ** Copy assignment *)

Lemma assign_spec (s : State) (this txf : var) :
  live s this = true -> live s txf = true ->
  exists s',
    Transform_assign this txf s = Normal tt s' /\
    live s' this = true /\
    backendOf s' this = backendOf s txf /\
    contentsOf s' this = contentsOf s txf /\
    (this = txf -> objects s' = objects s).
Proof.
  intros Hthis Htxf.
  destruct (live_inv _ _ Hthis) as (ph & oh & ch & Hh1 & Hh2 & Hh3 & Hh4).
  destruct (live_inv _ _ Htxf) as (pt & ot & ct & Ht1 & Ht2 & Ht3 & Ht4).
  pose proof (used_not_fresh _ _ _ Hh2) as Hq.
  unfold Transform_assign.
  destruct (decide (oh = ot)) as [->|Eo].
  - (* one object behind both: the count goes up, then down again *)
    assert (ch = ct) as -> by congruence. run.
    destruct (Z.leb_spec0 (m_ReferenceCount ct + 1 - 1) 0); [lia|]. run.
    eexists. split; [reflexivity|].
    unfold live, contentsOf, objectOf, backendOf, wrapperOf. run.
    repeat split.
    + apply Z.leb_le. lia.
    + intros _. rewrite insert_insert_eq.
      apply insert_id. rewrite Ht3. f_equal. destruct ct; simpl. f_equal. lia.
  - (* two objects: the old one loses a reference and may be destroyed *)
    run.
    assert (Hself : this = txf -> False).
    { intros ->. rewrite Hh1 in Ht1. injection Ht1 as ->. rewrite Hh2 in Ht2. congruence. }
    assert (Hlive : (1 <=? m_ReferenceCount ct + 1) = true) by (apply Z.leb_le; lia).
    destruct (m_ReferenceCount ch - 1 <=? 0);
      [destruct (m_DisplacementField (itk ch)) as [f|]; [destruct (m_ContainerManageMemory f)|]|];
      (eexists; split; [reflexivity|]);
      unfold live, contentsOf, objectOf, backendOf, wrapperOf; run;
      repeat split; auto; intros E; destruct (Hself E).
Qed.

(** C10: [operator=] takes the shallow copy of the source before it deletes
    the wrapper of the destination.  Whenever both handles are in their
    invariant the assignment ends normally and leaves the destination in
    its invariant, on the Backend of the source; with [t = t] the ITK
    objects (contents and counts) are what they were, and [t] reads the
    parameters, the fixed parameters and the dimension it read before. *)
Theorem copy_assignment_is_safe (s : State) (this txf : var) :
  live s this = true -> live s txf = true ->
  exists s',
    Transform_assign this txf s = Normal tt s' /\
    live s' this = true /\
    backendOf s' this = backendOf s txf /\
    contentsOf s' this = contentsOf s txf /\
    (this = txf ->
       objects s' = objects s /\
       value (GetParameters this s') = value (GetParameters this s) /\
       value (GetFixedParameters this s') = value (GetFixedParameters this s) /\
       value (GetDimension this s') = value (GetDimension this s)).
Proof.
  intros Hthis Htxf.
  destruct (assign_spec s this txf Hthis Htxf) as (s' & E & L & B & C & O).
  exists s'. repeat split; auto; subst txf.
  - rewrite !GetParameters_outcome. apply readOutcome_value, C.
  - rewrite !GetFixedParameters_outcome. apply readOutcome_value, C.
  - rewrite !GetDimension_outcome. apply readOutcome_value, C.
Qed.

Lemma copy_assignment_is_safe_witness :
  live Scenario.oneAffine Scenario.A = true /\
  exists s',
    Transform_assign Scenario.A Scenario.A Scenario.oneAffine = Normal tt s' /\
    live s' Scenario.A = true /\
    backendOf s' Scenario.A = backendOf Scenario.oneAffine Scenario.A /\
    contentsOf s' Scenario.A = contentsOf Scenario.oneAffine Scenario.A /\
    (Scenario.A = Scenario.A ->
       objects s' = objects Scenario.oneAffine /\
       value (GetParameters Scenario.A s') = value (GetParameters Scenario.A Scenario.oneAffine) /\
       value (GetFixedParameters Scenario.A s')
         = value (GetFixedParameters Scenario.A Scenario.oneAffine) /\
       value (GetDimension Scenario.A s') = value (GetDimension Scenario.A Scenario.oneAffine)).
Proof.
  split; [reflexivity|].
  apply (copy_assignment_is_safe Scenario.oneAffine Scenario.A Scenario.A); reflexivity.
Defined.


(** ** The accessors of the Euler3D facade *)

Lemma ITKClass_eqb_neq (a b : ITKClass) : a <> b -> ITKClass_eqb a b = false.
Proof. destruct a, b; simpl; congruence. Qed.


Lemma unbound_setter (slot : Euler3DSlots -> option addr) (f : addr -> M unit)
    (s : State) (this : var) :
  live s this = true -> cloneable s this = true ->
  euler3d s !! this = Some (boundTo None) ->
  slot (boundTo None) = None ->
  exists s', (_ <- MakeUniqueForWrite this ;; callSlot slot this f) s
               = Throws bad_function_call s'.
Proof.
  intros Hl Hc Hs Hslot.
  destruct (MakeUniqueForWrite_keeps_slots s this Hl Hc) as (s' & E & He).
  exists s'. unfold bind at 1. rewrite E. unfold callSlot. run. rewrite He, Hs. run.
  rewrite Hslot. reflexivity.
Qed.

(** C8: when [InternalInitialization] of the facade is given an object
    that is not an [itk::Euler3DTransform<double>], every one of the ten
    slots is left empty, and every accessor called after that throws (the
    [bad_function_call] of a call through an empty function object): the
    getters as they are, the setters after their [MakeUniqueForWrite]. *)
Theorem unbound_slots_throw (s : State) (this : var) (transform : addr) (c : LightObject) :
  objects s !! transform = Some c ->
  NameOfClass (itk c) <> Euler3DTransformClass ->
  exists s1,
    Euler3D_InternalInitialization this transform s = Normal tt s1 /\
    euler3d s1 !! this = Some (boundTo None) /\
    Euler3D_GetCenter this s1 = Throws bad_function_call s1 /\
    Euler3D_GetAngleX this s1 = Throws bad_function_call s1 /\
    Euler3D_GetAngleY this s1 = Throws bad_function_call s1 /\
    Euler3D_GetAngleZ this s1 = Throws bad_function_call s1 /\
    Euler3D_GetTranslation this s1 = Throws bad_function_call s1 /\
    Euler3D_GetComputeZYX this s1 = Throws bad_function_call s1 /\
    (live s1 this = true -> cloneable s1 this = true ->
     forall (v : list double) (x y z : double) (flag : bool),
       (exists s2, Euler3D_SetCenter this v s1 = Throws bad_function_call s2) /\
       (exists s2, Euler3D_SetTranslation this v s1 = Throws bad_function_call s2) /\
       (exists s2, Euler3D_SetRotation this x y z s1 = Throws bad_function_call s2) /\
       (exists s2, Euler3D_SetComputeZYX this flag s1 = Throws bad_function_call s2)).
Proof.
  intros Ho Hcls.
  exists (set_euler3d (insert this (boundTo None)) s).
  split.
  { unfold Euler3D_InternalInitialization. run.
    rewrite (ITKClass_eqb_neq _ _ Hcls). reflexivity. }
  assert (Hs : euler3d (set_euler3d (insert this (boundTo None)) s) !! this
               = Some (boundTo None)) by (simpl; apply lookup_insert_eq).
  split; [exact Hs|].
  repeat (split; [unfold Euler3D_GetCenter, Euler3D_GetAngleX, Euler3D_GetAngleY,
                    Euler3D_GetAngleZ, Euler3D_GetTranslation, Euler3D_GetComputeZYX;
                  run; reflexivity|]).
  intros Hl Hc v x y z flag.
  repeat split; apply unbound_setter; auto.
Qed.

Lemma unbound_slots_throw_witness :
  objects Scenario.oneTranslation !! 1%positive = Some Scenario.translationObject /\
  NameOfClass (itk Scenario.translationObject) <> Euler3DTransformClass /\
  exists s1,
    Euler3D_InternalInitialization Scenario.A 1%positive Scenario.oneTranslation
      = Normal tt s1 /\
    euler3d s1 !! Scenario.A = Some (boundTo None) /\
    Euler3D_GetCenter Scenario.A s1 = Throws bad_function_call s1 /\
    Euler3D_GetAngleX Scenario.A s1 = Throws bad_function_call s1 /\
    Euler3D_GetAngleY Scenario.A s1 = Throws bad_function_call s1 /\
    Euler3D_GetAngleZ Scenario.A s1 = Throws bad_function_call s1 /\
    Euler3D_GetTranslation Scenario.A s1 = Throws bad_function_call s1 /\
    Euler3D_GetComputeZYX Scenario.A s1 = Throws bad_function_call s1 /\
    (live s1 Scenario.A = true -> cloneable s1 Scenario.A = true ->
     forall (v : list double) (x y z : double) (flag : bool),
       (exists s2, Euler3D_SetCenter Scenario.A v s1 = Throws bad_function_call s2) /\
       (exists s2, Euler3D_SetTranslation Scenario.A v s1 = Throws bad_function_call s2) /\
       (exists s2, Euler3D_SetRotation Scenario.A x y z s1 = Throws bad_function_call s2) /\
       (exists s2, Euler3D_SetComputeZYX Scenario.A flag s1 = Throws bad_function_call s2)).
Proof.
  split; [reflexivity|]. split; [discriminate|].
  apply (unbound_slots_throw Scenario.oneTranslation Scenario.A 1%positive
           Scenario.translationObject); [reflexivity | discriminate].
Defined.

(** The defect in general: a setter of a facade whose Backend is shared
    (count above 1) and whose slots are bound to it makes the deep copy,
    which becomes the Backend, and then writes through the slot into the
    object that is still shared; the slots are as they were. *)
Lemma shared_facade_setter_misses_its_backend (s : State) (this : var) (p o : addr)
    (c : LightObject) (v ctr : list double) :
  transforms s !! this = Some {| m_PimpleTransform := Some p |} ->
  pimples s !! p = Some {| m_Transform := o |} ->
  objects s !! o = Some c ->
  1 < m_ReferenceCount c ->
  m_DisplacementField (itk c) = None ->
  euler3d s !! this = Some (boundTo (Some o)) ->
  sitkSTLVectorToITK 3 v = Some ctr ->
  exists s' c',
    Euler3D_SetCenter this v s = Normal tt s' /\
    backendOf s' this = Some (fresh (dom (objects s))) /\
    objects s !! fresh (dom (objects s)) = None /\
    euler3d s' !! this = Some (boundTo (Some o)) /\
    contentsOf s' this = Some (itk c) /\
    objects s' !! o = Some c' /\
    m_ReferenceCount c' = m_ReferenceCount c - 1 /\
    itk c' = itkSetCenter ctr (itk c).
Proof.
  intros H1 H2 H3 Hrc Hfld Hs Hv.
  pose proof (used_not_fresh _ _ _ H2) as Hq.
  pose proof (used_not_fresh _ _ _ H3) as Hq'.
  eexists. exists {| m_ReferenceCount := m_ReferenceCount c - 1;
                     itk := itkSetCenter ctr (itk c) |}.
  split.
  - unfold Euler3D_SetCenter, toITK. run.
    destruct (Z.ltb_spec0 1 (m_ReferenceCount c)); [|lia]. run. rewrite Hfld. run.
    destruct (Z.leb_spec0 (m_ReferenceCount c - 1) 0); [lia|]. run.
    rewrite Hv. run. reflexivity.
  - unfold contentsOf, objectOf, backendOf, wrapperOf. run.
    repeat split; auto using @fresh_unused.
Qed.

(** C2, on the code: [B] is a copy of the facade [A]; [B.SetCenter] makes
    its deep copy, and the Backend of [B] is a new object, but the slots of
    [B] stay bound to the object it shared with [A].  The centre is written
    into the object of [A] and not into the Backend of [B]; afterwards
    [B.GetAngleX()] returns what [A.SetRotation] has set, not the angle in
    the parameters of [B]; and once [A] is destroyed the object behind the
    slots is gone and [B.GetAngleX()] is undefined. *)
Theorem setter_leaves_slots_on_replaced_backend :
  Euler3D_ctor Scenario.A emptyState = Normal tt Scenario.eulerFresh /\
  Euler3D_SetRotation Scenario.A 0.5 0.25 0.125 Scenario.eulerFresh
    = Normal tt Scenario.eulerAlone /\
  Euler3D_ctor_copy Scenario.B Scenario.A Scenario.eulerAlone
    = Normal tt Scenario.eulerShared /\
  Euler3D_SetCenter Scenario.B [1; 2; 3]%float Scenario.eulerShared
    = Normal tt Scenario.eulerDiverged /\
  backendOf Scenario.eulerShared Scenario.A = Some 1%positive /\
  backendOf Scenario.eulerShared Scenario.B = Some 1%positive /\
  backendOf Scenario.eulerDiverged Scenario.B = Some 2%positive /\
  euler3d Scenario.eulerDiverged !! Scenario.B = Some (boundTo (Some 1%positive)) /\
  value (GetFixedParameters Scenario.A Scenario.eulerShared) = Some [0; 0; 0]%float /\
  value (GetFixedParameters Scenario.A Scenario.eulerDiverged) = Some [1; 2; 3]%float /\
  value (GetFixedParameters Scenario.B Scenario.eulerDiverged) = Some [0; 0; 0]%float /\
  value (Euler3D_GetCenter Scenario.B Scenario.eulerDiverged) = Some [1; 2; 3]%float /\
  Euler3D_SetRotation Scenario.A 0.75 0 0 Scenario.eulerDiverged
    = Normal tt Scenario.eulerMoved /\
  value (Euler3D_GetAngleX Scenario.B Scenario.eulerMoved) = Some 0.75%float /\
  value (GetParameters Scenario.B Scenario.eulerMoved)
    = Some [0.5; 0.25; 0.125; 0; 0; 0]%float /\
  Euler3D_dtor Scenario.A Scenario.eulerDiverged = Normal tt Scenario.eulerOrphaned /\
  Euler3D_GetAngleX Scenario.B Scenario.eulerOrphaned = Undefined.
Proof. repeat split; vm_compute; reflexivity. Qed.

(** The assignment of one facade to another changes the Backend of the
    destination without binding its slots again: they stay on the object
    the destination had, which the assignment has destroyed. *)
Lemma assignment_leaves_slots_dangling :
  Euler3D_ctor Scenario.B Scenario.eulerFresh = Normal tt Scenario.eulerTwo /\
  backendOf Scenario.eulerTwo Scenario.B = Some 2%positive /\
  Euler3D_assign Scenario.B Scenario.A Scenario.eulerTwo = Normal tt Scenario.eulerAssigned /\
  backendOf Scenario.eulerAssigned Scenario.B = Some 1%positive /\
  euler3d Scenario.eulerAssigned !! Scenario.B = Some (boundTo (Some 2%positive)) /\
  objects Scenario.eulerAssigned !! 2%positive = None /\
  Euler3D_GetAngleX Scenario.B Scenario.eulerAssigned = Undefined.
Proof. repeat split; vm_compute; reflexivity. Qed.

(** The replacement of the Backend through [SetPimpleTransform] does bind
    the slots again, to the new object. *)
Lemma SetPimpleTransform_rebinds :
  backendOf Scenario.eulerRebound Scenario.B = Some 2%positive /\
  euler3d Scenario.eulerRebound !! Scenario.B = Some (boundTo (Some 2%positive)) /\
  backendOf Scenario.eulerRebound Scenario.A = Some 1%positive.
Proof. repeat split; vm_compute; reflexivity. Qed.


(** ** The displacement-field constructor *)

Lemma InternalDisplacementInitialization_adopts (d : N) (this displacement : var) (s : State)
    (img : Image) :
  images s !! displacement = Some img ->
  PixelID img = sitkVectorFloat64 ->
  Dimension img = d ->
  NumberOfComponentsPerPixel img = d ->
  exists s',
    InternalDisplacementInitialization d this displacement s = Normal tt s' /\
    freshBackend s s' this (adoptedField img) /\
    images s' !! displacement = Some (placeholderImage (fresh (dom (buffers s)))) /\
    buffers s' = <[fresh (dom (buffers s)) := []]> (buffers s).
Proof.
  intros Hi Hpx Hd Hn. destruct img as [px dim n [ptr manage]]. simpl in *. subst.
  exists (set_transforms (insert this {| m_PimpleTransform := Some (fresh (dom (pimples s))) |})
            (set_pimples (insert (fresh (dom (pimples s)))
                                 {| m_Transform := fresh (dom (objects s)) |})
               (set_objects (insert (fresh (dom (objects s)))
                  {| m_ReferenceCount := 1;
                     itk := adoptedField
                              {| PixelID := sitkVectorFloat64; Dimension := d;
                                 NumberOfComponentsPerPixel := d;
                                 m_PixelContainer :=
                                   {| m_ImportPointer := ptr;
                                      m_ContainerManageMemory := manage |} |} |})
                  (set_images (insert displacement (placeholderImage (fresh (dom (buffers s)))))
                     (set_buffers (insert (fresh (dom (buffers s))) []) s))))).
  split.
  - unfold InternalDisplacementInitialization, GetImageFromVectorImage, Image_ctor, Image_assign,
      new_PimpleTransform_displacement.
    run. rewrite N.eqb_refl. run. rewrite N.eqb_refl. run.
    destruct manage; run; unfold set_transforms, set_pimples, set_objects, set_images,
      set_buffers; simpl; rewrite insert_insert_eq; reflexivity.
  - split; [|split; [simpl; now rewrite lookup_insert_eq | reflexivity]].
    exists (fresh (dom (pimples s))), (fresh (dom (objects s))).
    run. auto using @fresh_unused.
Qed.

(** C9: the constructor from an image of vectors of doubles, whose
    component count is its dimension (2 or 3), ends normally.  The fresh
    Backend is a displacement-field transform around the pixel container
    the image had: the same buffer address, managed by the transform now
    if the image managed it.  No pixel buffer was copied: the buffers are
    those of before and the empty one of the placeholder, which is what the
    caller's image handle has become. *)
Theorem displacement_field_is_adopted (this displacement : var) (s : State) (img : Image)
    (px : list double) :
  images s !! displacement = Some img ->
  PixelID img = sitkVectorFloat64 ->
  Dimension img = 2%N \/ Dimension img = 3%N ->
  NumberOfComponentsPerPixel img = Dimension img ->
  buffers s !! m_ImportPointer (m_PixelContainer img) = Some px ->
  exists s' b,
    Transform_ctor_displacement this displacement sitkDisplacementField s = Normal tt s' /\
    freshBackend s s' this (adoptedField img) /\
    buffers s !! b = None /\
    buffers s' = <[b := []]> (buffers s) /\
    buffers s' !! m_ImportPointer (m_PixelContainer img) = Some px /\
    images s' !! displacement = Some (placeholderImage b).
Proof.
  intros Hi Hpx Hd Hn Hb.
  destruct (InternalDisplacementInitialization_adopts (Dimension img) this displacement
              (set_transforms (insert this {| m_PimpleTransform := None |}) s) img
              Hi Hpx eq_refl Hn) as (s' & E & F & Himg & Hbuf).
  exists s', (fresh (dom (buffers s))). simpl in Himg, Hbuf.
  split; [|split; [exact F|split; [apply fresh_unused|split; [exact Hbuf|split; [|exact Himg]]]]].
  - apply constructing_Normal. unfold GetMemberFunction. run. rewrite Hpx.
    destruct Hd as [Hd|Hd]; rewrite Hd in *; exact E.
  - rewrite Hbuf, lookup_insert_ne; [exact Hb|]. apply (used_not_fresh' _ _ _ Hb).
Qed.

Lemma displacement_field_is_adopted_witness :
  images Scenario.fieldImage !! Scenario.A = Some Scenario.vectorImage /\
  PixelID Scenario.vectorImage = sitkVectorFloat64 /\
  (Dimension Scenario.vectorImage = 2%N \/ Dimension Scenario.vectorImage = 3%N) /\
  NumberOfComponentsPerPixel Scenario.vectorImage = Dimension Scenario.vectorImage /\
  buffers Scenario.fieldImage !! m_ImportPointer (m_PixelContainer Scenario.vectorImage)
    = Some [1; 2; 3; 4]%float /\
  exists s' b,
    Transform_ctor_displacement Scenario.B Scenario.A sitkDisplacementField Scenario.fieldImage
      = Normal tt s' /\
    freshBackend Scenario.fieldImage s' Scenario.B (adoptedField Scenario.vectorImage) /\
    buffers Scenario.fieldImage !! b = None /\
    buffers s' = <[b := []]> (buffers Scenario.fieldImage) /\
    buffers s' !! m_ImportPointer (m_PixelContainer Scenario.vectorImage)
      = Some [1; 2; 3; 4]%float /\
    images s' !! Scenario.A = Some (placeholderImage b).
Proof.
  split; [reflexivity|]. split; [reflexivity|]. split; [left; reflexivity|].
  split; [reflexivity|]. split; [reflexivity|].
  apply (displacement_field_is_adopted Scenario.B Scenario.A Scenario.fieldImage
           Scenario.vectorImage [1; 2; 3; 4]%float);
    [reflexivity | reflexivity | left; reflexivity | reflexivity | reflexivity].
Defined.


(** * Further properties of the two files *)

(** ** Construction: the remaining paths *)

(** X1: [Transform()] builds a 3D identity transform: a fresh Backend of count
    1, dimension 3 and an empty parameter vector. *)
Theorem default_constructor_is_identity3D (this : var) (s : State) :
  exists s',
    Transform_ctor_default this s = Normal tt s' /\
    freshBackend s s' this (itkNew IdentityTransform 3) /\
    GetDimension this s' = Normal 3%N s' /\
    GetParameters this s' = Normal [] s' /\
    GetFixedParameters this s' = Normal [] s'.
Proof.
  destruct (install_fresh this IdentityTransform 3
              (set_transforms (insert this {| m_PimpleTransform := None |}) s))
    as (s' & E & F & _).
  apply freshBackend_constructing in F.
  exists s'. split; [apply constructing_Normal, E|]. split; [exact F|].
  pose proof (freshBackend_contents _ _ _ _ F) as C.
  rewrite GetDimension_outcome, GetParameters_outcome, GetFixedParameters_outcome.
  unfold readOutcome. rewrite C. auto.
Qed.

(** X2: The displacement-field kind is refused by [Transform( dimensions, type )]
    in dimension 2 and 3 alike, with its own message, and nothing is built. *)
Theorem displacement_kind_needs_its_constructor (this : var) (dimensions : N) (s : State) :
  dimensions = 2%N \/ dimensions = 3%N ->
  exists s',
    Transform_ctor this dimensions sitkDisplacementField s
      = Throws (GenericException "Incorrect constructor for transform type.") s' /\
    nothingBuilt s s' this.
Proof.
  intros [-> | ->]; apply constructing_Throws; reflexivity.
Qed.

Lemma displacement_kind_needs_its_constructor_witness :
  (2%N = 2%N \/ 2%N = 3%N) /\
  exists s',
    Transform_ctor Scenario.A 2 sitkDisplacementField emptyState
      = Throws (GenericException "Incorrect constructor for transform type.") s' /\
    nothingBuilt emptyState s' Scenario.A.
Proof.
  split; [left; reflexivity|].
  apply (displacement_kind_needs_its_constructor Scenario.A 2 emptyState). left; reflexivity.
Defined.

(** X3: A [base] object that is not a composite of the dimension asked for
    makes the composite case throw before anything is touched: the stores
    are those of before, and the object keeps its count. *)
Theorem composite_cast_failure_changes_nothing (d : N) (this : var) (s : State) (b : addr)
    (c : LightObject) :
  objects s !! b = Some c ->
  isComposite d (itk c) = false ->
  InternalInitialization d this sitkComposite (Some b) s
    = Throws (GenericException "Unexpectedly unable to convert to CompositeTransform") s.
Proof.
  intros Hb Hc. unfold InternalInitialization. run. rewrite Hc. reflexivity.
Qed.

Lemma composite_cast_failure_changes_nothing_witness :
  objects Scenario.twoComposite !! 4%positive = Some Scenario.twoCompositeObject /\
  isComposite 2 (itk Scenario.twoCompositeObject) = false /\
  InternalInitialization 2 Scenario.A sitkComposite (Some 4%positive) Scenario.twoComposite
    = Throws (GenericException "Unexpectedly unable to convert to CompositeTransform")
        Scenario.twoComposite.
Proof.
  split; [reflexivity|]. split; [reflexivity|].
  apply (composite_cast_failure_changes_nothing 2 Scenario.A Scenario.twoComposite 4%positive
           Scenario.twoCompositeObject); reflexivity.
Defined.

(** X4: Whatever kind was built, [GetDimension] returns the dimension that was
    asked for. *)
Theorem constructed_dimension (this : var) (dimensions : N) (type : TransformEnum)
    (s : State) :
  dimensions = 2%N \/ dimensions = 3%N ->
  constructible type = true ->
  (dimensions = 2%N -> only3D type = false) ->
  exists s',
    Transform_ctor this dimensions type s = Normal tt s' /\
    GetDimension this s' = Normal dimensions s'.
Proof.
  intros Hd Hc H3.
  destruct (InternalInitialization_succeeds dimensions this type
              (set_transforms (insert this {| m_PimpleTransform := None |}) s) Hd Hc H3)
    as (s' & t & E & F & Ht).
  exists s'. split.
  - apply constructing_Normal. destruct Hd as [-> | ->]; exact E.
  - rewrite GetDimension_outcome. unfold readOutcome.
    rewrite (freshBackend_contents _ _ _ _ F), Ht. reflexivity.
Qed.

Lemma constructed_dimension_witness :
  (3%N = 2%N \/ 3%N = 3%N) /\
  constructible sitkVersor = true /\
  (3%N = 2%N -> only3D sitkVersor = false) /\
  exists s',
    Transform_ctor Scenario.A 3 sitkVersor emptyState = Normal tt s' /\
    GetDimension Scenario.A s' = Normal 3%N s'.
Proof.
  split; [right; reflexivity|]. split; [reflexivity|]. split; [discriminate|].
  apply (constructed_dimension Scenario.A 3 sitkVersor emptyState);
    [right; reflexivity | reflexivity | discriminate].
Defined.


(** X5: A construction from an image that fails consumes nothing: when the
    kind is not [sitkDisplacementField], or the image is not one of vectors
    of doubles in dimension 2 or 3 with as many components as dimensions,
    the constructor throws, no Backend is built, and the caller's image
    and the pixel buffers are what they were. *)
Theorem refused_image_is_kept (this displacement : var) (txType : TransformEnum)
    (s : State) (img : Image) :
  images s !! displacement = Some img ->
  txType <> sitkDisplacementField \/ acceptedField img = false ->
  exists what s',
    Transform_ctor_displacement this displacement txType s
      = Throws (GenericException what) s' /\
    nothingBuilt s s' this /\
    images s' = images s /\
    buffers s' = buffers s.
Proof.
  intros Hi Hbad.
  assert (Hthrow : forall what,
    Transform_ctor_displacement this displacement txType s
      = Throws (GenericException what)
          (set_transforms (delete this)
             (set_transforms (insert this {| m_PimpleTransform := None |}) s)) ->
    exists what s',
      Transform_ctor_displacement this displacement txType s
        = Throws (GenericException what) s' /\
      nothingBuilt s s' this /\ images s' = images s /\ buffers s' = buffers s).
  { intros what E. eexists _, _. split; [exact E|].
    repeat split. simpl. apply lookup_delete_eq. }
  destruct txType;
    try (eapply Hthrow; unfold Transform_ctor_displacement; run; reflexivity).
  destruct Hbad as [Hbad | Hbad]; [congruence|].
  unfold acceptedField in Hbad. destruct img as [px dim n cont]. simpl in *.
  destruct px;
    try (eapply Hthrow; unfold Transform_ctor_displacement, GetMemberFunction; run;
         reflexivity).
  destruct (dim =? 3)%N eqn:E3; [apply N.eqb_eq in E3; subst dim|].
  - simpl in Hbad.
    eapply Hthrow; unfold Transform_ctor_displacement, GetMemberFunction,
      InternalDisplacementInitialization, GetImageFromVectorImage; run.
    rewrite Hbad. reflexivity.
  - destruct (dim =? 2)%N eqn:E2; [apply N.eqb_eq in E2; subst dim|].
    + simpl in Hbad.
      eapply Hthrow; unfold Transform_ctor_displacement, GetMemberFunction,
        InternalDisplacementInitialization, GetImageFromVectorImage; run.
      rewrite Hbad. reflexivity.
    + eapply Hthrow; unfold Transform_ctor_displacement, GetMemberFunction; run.
      rewrite E3, E2. reflexivity.
Qed.

Lemma refused_image_is_kept_witness :
  images Scenario.fieldImage !! Scenario.A = Some Scenario.vectorImage /\
  (sitkAffine <> sitkDisplacementField \/ acceptedField Scenario.vectorImage = false) /\
  exists what s',
    Transform_ctor_displacement Scenario.B Scenario.A sitkAffine Scenario.fieldImage
      = Throws (GenericException what) s' /\
    nothingBuilt Scenario.fieldImage s' Scenario.B /\
    images s' = images Scenario.fieldImage /\
    buffers s' = buffers Scenario.fieldImage.
Proof.
  split; [reflexivity|]. split; [left; discriminate|].
  apply (refused_image_is_kept Scenario.B Scenario.A sitkAffine Scenario.fieldImage
           Scenario.vectorImage); [reflexivity | left; discriminate].
Defined.


(** ** The lifetime of a handle *)

Lemma State_eq (s s' : State) :
  transforms s' = transforms s -> euler3d s' = euler3d s -> images s' = images s ->
  pimples s' = pimples s -> objects s' = objects s -> buffers s' = buffers s ->
  s' = s.
Proof. destruct s, s'; simpl; intros; subst; reflexivity. Qed.

(** X6: A handle that is built and destroyed leaves no trace: the wrapper and
    the ITK object it brought are gone, and the state is the one of
    before. *)
Theorem construct_then_destroy (this : var) (dimensions : N) (type : TransformEnum)
    (s : State) :
  transforms s !! this = None ->
  dimensions = 2%N \/ dimensions = 3%N ->
  constructible type = true ->
  (dimensions = 2%N -> only3D type = false) ->
  (_ <- Transform_ctor this dimensions type ;; Transform_dtor this) s = Normal tt s.
Proof.
  intros Hfree Hd Hc H3.
  assert (Hleaf : forall c,
    (_ <- constructing this None
            (p <- new_PimpleTransform c dimensions ;; set_m_PimpleTransform this (Some p)) ;;
     Transform_dtor this) s = Normal tt s).
  { intros c. unfold constructing. run.
    replace (m_DisplacementField (itkNew c dimensions)) with (@None ITKImage)
      by (destruct c; reflexivity).
    f_equal. apply State_eq; simpl; auto; rewrite ?insert_insert_eq;
      apply delete_insert_id; first [exact Hfree | apply fresh_unused]. }
  destruct type; simpl in Hc; try discriminate;
    try (destruct Hd as [-> | ->]; apply Hleaf).
  1-3: destruct Hd as [-> | ->]; [specialize (H3 eq_refl); discriminate | apply Hleaf].
  (* sitkComposite *)
  destruct Hd as [-> | ->]; unfold Transform_ctor, constructing, InternalInitialization;
    run; f_equal; apply State_eq; simpl; auto.
  all: rewrite ?insert_insert_eq; apply delete_insert_id;
    first [exact Hfree | apply fresh_unused].
Qed.

Lemma construct_then_destroy_witness :
  transforms Scenario.oneAffine !! Scenario.B = None /\
  (3%N = 2%N \/ 3%N = 3%N) /\
  constructible sitkComposite = true /\
  (3%N = 2%N -> only3D sitkComposite = false) /\
  (_ <- Transform_ctor Scenario.B 3 sitkComposite ;; Transform_dtor Scenario.B)
    Scenario.oneAffine = Normal tt Scenario.oneAffine.
Proof.
  split; [reflexivity|]. split; [right; reflexivity|]. split; [reflexivity|].
  split; [discriminate|].
  apply (construct_then_destroy Scenario.B 3 sitkComposite Scenario.oneAffine);
    [reflexivity | right; reflexivity | reflexivity | discriminate].
Defined.

(** X7: A copy that is made and destroyed leaves no trace either: the count
    of the shared object is back where it was. *)
Theorem copy_then_destroy (a b : var) (s : State) :
  live s a = true ->
  transforms s !! b = None ->
  (_ <- Transform_ctor_copy b a ;; Transform_dtor b) s = Normal tt s.
Proof.
  intros Hl Hfree.
  destruct (live_inv _ _ Hl) as (p & o & c & H1 & H2 & H3 & H4).
  assert (Hne : b <> a) by (intros ->; congruence).
  pose proof (used_not_fresh' _ _ _ H2) as Hq.
  unfold constructing. run. unfold constructing. run.
  destruct (Z.leb_spec0 (m_ReferenceCount c + 1 - 1) 0); [lia|]. run.
  f_equal. apply State_eq; simpl; auto; rewrite ?insert_insert_eq.
  - apply delete_insert_id, Hfree.
  - apply delete_insert_id, fresh_unused.
  - apply insert_id. rewrite H3. f_equal. destruct c; simpl. f_equal. lia.
Qed.

Lemma copy_then_destroy_witness :
  live Scenario.oneAffine Scenario.A = true /\
  transforms Scenario.oneAffine !! Scenario.B = None /\
  (_ <- Transform_ctor_copy Scenario.B Scenario.A ;; Transform_dtor Scenario.B)
    Scenario.oneAffine = Normal tt Scenario.oneAffine.
Proof.
  split; [reflexivity|]. split; [reflexivity|].
  apply (copy_then_destroy Scenario.A Scenario.B Scenario.oneAffine); reflexivity.
Defined.


(** ** Setters and getters of a handle *)


(** X8: [SetParameters] and [SetFixedParameters] do to the transform of the
    handle what the library's setter does to it, whether the Backend was
    shared or not: they return on the library's result, they throw the
    library's exception with the transform as it was, and the handle stays
    in its invariant either way. *)
Theorem setters_follow_the_library (s : State) (x : var) (v : list double)
    (t : ITKTransform) :
  live s x = true -> cloneable s x = true -> contentsOf s x = Some t ->
  followsLibrary (SetParameters x v s) (itkSetParameters t v) x t /\
  followsLibrary (SetFixedParameters x v s) (itkSetFixedParameters t v) x t.
Proof. intros Hl Hc Ht. split; apply setter_result; assumption. Qed.

Lemma setters_follow_the_library_witness :
  live Scenario.oneAffine Scenario.A = true /\
  cloneable Scenario.oneAffine Scenario.A = true /\
  contentsOf Scenario.oneAffine Scenario.A = Some (itkNew AffineTransform 3) /\
  followsLibrary (SetParameters Scenario.A (zeros 12) Scenario.oneAffine)
    (itkSetParameters (itkNew AffineTransform 3) (zeros 12)) Scenario.A
    (itkNew AffineTransform 3) /\
  followsLibrary (SetFixedParameters Scenario.A (zeros 12) Scenario.oneAffine)
    (itkSetFixedParameters (itkNew AffineTransform 3) (zeros 12)) Scenario.A
    (itkNew AffineTransform 3).
Proof.
  split; [reflexivity|]. split; [reflexivity|]. split; [reflexivity|].
  apply (setters_follow_the_library Scenario.oneAffine Scenario.A (zeros 12)); reflexivity.
Defined.

(** The reads of a handle that ends on [t] are the library's reads of [t]. *)
Lemma endsOn_reads (s' : State) (x : var) (t : ITKTransform) (fixed : bool) :
  endsOn s' x t ->
  readOutcome (itkGetVector fixed) s' x
    = match itkGetVector fixed t with
      | Done a => Normal a s'
      | Raised what => Throws (itkExceptionObject what) s'
      | Unspecified => Undefined
      end.
Proof.
  intros (fld & C & _). unfold readOutcome. rewrite C, itkGetVector_withField. reflexivity.
Qed.

Lemma endsOn_dimension (s' : State) (x : var) (t : ITKTransform) :
  endsOn s' x t -> GetDimension x s' = Normal (InputSpaceDimension t) s'.
Proof.
  intros (fld & C & _). rewrite GetDimension_outcome. unfold readOutcome. rewrite C.
  reflexivity.
Qed.

Lemma endsOn_self (s : State) (x : var) (t : ITKTransform) :
  live s x = true -> cloneable s x = true -> contentsOf s x = Some t -> endsOn s x t.
Proof.
  intros Hl Hc Ht. exists (m_DisplacementField t). rewrite Ht. now destruct t.
Qed.


(** X9: a vector the library rejects.  The setter throws the library's
    exception, and the handle, still in its invariant, reads the
    parameters, the fixed parameters and the dimension it read before. *)
Theorem rejected_vector_keeps_reads (fixed : bool) (s : State) (x : var) (v : list double)
    (t : ITKTransform) (what : string) :
  live s x = true -> cloneable s x = true -> contentsOf s x = Some t ->
  itkSetVector fixed t v = Raised what ->
  exists s',
    (if fixed then SetFixedParameters x v else SetParameters x v) s
      = Throws (itkExceptionObject what) s' /\
    live s' x = true /\
    value (GetParameters x s') = value (GetParameters x s) /\
    value (GetFixedParameters x s') = value (GetFixedParameters x s) /\
    value (GetDimension x s') = value (GetDimension x s).
Proof.
  intros Hl Hc Ht Hg.
  pose proof (setter_result fixed v s x t Hl Hc Ht) as W.
  unfold followsLibrary in W. rewrite Hg in W. destruct W as (s' & E & N).
  exists s'. split; [destruct fixed; exact E|].
  split; [destruct N as (? & _ & L & _); exact L|].
  pose proof (endsOn_self s x t Hl Hc Ht) as N0.
  rewrite !GetParameters_outcome, !GetFixedParameters_outcome.
  unfold itkGetParameters, itkGetFixedParameters.
  rewrite !(endsOn_reads s' x t _ N), !(endsOn_reads s x t _ N0).
  rewrite (endsOn_dimension s' x t N), (endsOn_dimension s x t N0).
  repeat split; destruct (itkGetVector _ t); reflexivity.
Qed.

Lemma rejected_vector_keeps_reads_witness :
  live Scenario.oneAffine Scenario.A = true /\
  cloneable Scenario.oneAffine Scenario.A = true /\
  contentsOf Scenario.oneAffine Scenario.A = Some (itkNew AffineTransform 3) /\
  itkSetVector false (itkNew AffineTransform 3) (zeros 3) = Raised sizeMismatch /\
  exists s',
    SetParameters Scenario.A (zeros 3) Scenario.oneAffine
      = Throws (itkExceptionObject sizeMismatch) s' /\
    live s' Scenario.A = true /\
    value (GetParameters Scenario.A s') = value (GetParameters Scenario.A Scenario.oneAffine) /\
    value (GetFixedParameters Scenario.A s')
      = value (GetFixedParameters Scenario.A Scenario.oneAffine) /\
    value (GetDimension Scenario.A s') = value (GetDimension Scenario.A Scenario.oneAffine).
Proof.
  split; [reflexivity|]. split; [reflexivity|]. split; [reflexivity|]. split; [reflexivity|].
  apply (rejected_vector_keeps_reads false Scenario.oneAffine Scenario.A (zeros 3)
           (itkNew AffineTransform 3) sizeMismatch); reflexivity.
Defined.

(** X10: two setters and then the getters, through the library.  When the
    library's setters return, first [t1] for the parameters and then [t2]
    for the fixed parameters, [SetParameters] followed by
    [SetFixedParameters] returns, whether the Backend was shared or not;
    the handle is then on [t2], and each getter returns, throws or is
    undefined as the library's getter is on [t2]. *)
Theorem setters_then_getters_follow_the_library (s : State) (x : var)
    (t t1 t2 : ITKTransform) (v f : list double) :
  live s x = true -> cloneable s x = true -> contentsOf s x = Some t ->
  itkSetParameters t v = Done t1 ->
  itkSetFixedParameters t1 f = Done t2 ->
  exists s',
    (_ <- SetParameters x v ;; SetFixedParameters x f) s = Normal tt s' /\
    endsOn s' x t2 /\
    GetParameters x s'
      = match itkGetParameters t2 with
        | Done a => Normal a s'
        | Raised what => Throws (itkExceptionObject what) s'
        | Unspecified => Undefined
        end /\
    GetFixedParameters x s'
      = match itkGetFixedParameters t2 with
        | Done a => Normal a s'
        | Raised what => Throws (itkExceptionObject what) s'
        | Unspecified => Undefined
        end /\
    GetDimension x s' = Normal (InputSpaceDimension t2) s'.
Proof.
  intros Hl Hc Ht H1 H2.
  pose proof (setter_result false v s x t Hl Hc Ht) as W1.
  unfold itkSetParameters in H1. unfold followsLibrary in W1. rewrite H1 in W1.
  destruct W1 as (s1 & E1 & fld1 & C1 & L1 & K1).
  pose proof (setter_result true f s1 x _ L1 K1 C1) as W2.
  unfold itkSetFixedParameters in H2. unfold followsLibrary in W2.
  rewrite itkSetVector_withField_result, H2 in W2.
  destruct W2 as (s2 & E2 & fld2 & C2 & L2 & K2).
  assert (N2 : endsOn s2 x t2) by (exists fld2; auto).
  exists s2. split; [exact (eq_trans (bind_Normal _ _ _ _ _ E1) E2)|].
  split; [exact N2|].
  rewrite GetParameters_outcome, GetFixedParameters_outcome.
  unfold itkGetParameters, itkGetFixedParameters.
  rewrite !(endsOn_reads _ _ _ _ N2), (endsOn_dimension _ _ _ N2). auto.
Qed.

Lemma setters_then_getters_follow_the_library_witness :
  live Scenario.oneAffine Scenario.A = true /\
  cloneable Scenario.oneAffine Scenario.A = true /\
  contentsOf Scenario.oneAffine Scenario.A = Some (itkNew AffineTransform 3) /\
  itkSetParameters (itkNew AffineTransform 3) (ones 12)
    = Done (leaf AffineTransform 3 (ones 12) (zeros 3)) /\
  itkSetFixedParameters (leaf AffineTransform 3 (ones 12) (zeros 3)) (ones 3)
    = Done (leaf AffineTransform 3 (ones 12) (ones 3)) /\
  exists s',
    (_ <- SetParameters Scenario.A (ones 12) ;; SetFixedParameters Scenario.A (ones 3))
      Scenario.oneAffine = Normal tt s' /\
    endsOn s' Scenario.A (leaf AffineTransform 3 (ones 12) (ones 3)) /\
    GetParameters Scenario.A s' = Normal (ones 12) s' /\
    GetFixedParameters Scenario.A s' = Normal (ones 3) s' /\
    GetDimension Scenario.A s' = Normal 3%N s'.
Proof.
  split; [reflexivity|]. split; [reflexivity|]. split; [reflexivity|].
  split; [reflexivity|]. split; [reflexivity|].
  apply (setters_then_getters_follow_the_library Scenario.oneAffine Scenario.A
           (itkNew AffineTransform 3) (leaf AffineTransform 3 (ones 12) (zeros 3))
           (leaf AffineTransform 3 (ones 12) (ones 3)) (ones 12) (ones 3));
    reflexivity.
Defined.

(** X11: a handle that alone refers to its object writes in place.  Neither
    setter allocates or frees anything: after a return the state is the one
    of before with the library's result in the same object, and after the
    library's exception the state is exactly the one of before. *)
Theorem unique_handle_writes_in_place (fixed : bool) (s : State) (x : var) (o : addr)
    (c : LightObject) (v : list double) :
  backendOf s x = Some o -> objects s !! o = Some c -> m_ReferenceCount c <= 1 ->
  match itkSetVector fixed (itk c) v with
  | Done t' =>
      (if fixed then SetFixedParameters x v else SetParameters x v) s
        = Normal tt (set_objects (insert o {| m_ReferenceCount := m_ReferenceCount c;
                                              itk := t' |}) s)
  | Raised what =>
      (if fixed then SetFixedParameters x v else SetParameters x v) s
        = Throws (itkExceptionObject what) s
  | Unspecified =>
      (if fixed then SetFixedParameters x v else SetParameters x v) s = Undefined
  end.
Proof.
  unfold backendOf, wrapperOf. intros Hb Ho Hrc.
  destruct (transforms s !! x) as [[[p|]]|] eqn:E1; simpl in Hb; try discriminate.
  destruct (pimples s !! p) as [[o']|] eqn:E2; simpl in Hb; try discriminate.
  injection Hb as ->.
  assert (forall g, (_ <- MakeUniqueForWrite x ;; p <- get_m_PimpleTransform x ;;
                     writeObject g p) s
                    = match g (itk c) with
                      | Done t' => Normal tt (set_objects (insert o
                                     {| m_ReferenceCount := m_ReferenceCount c; itk := t' |}) s)
                      | Raised what => Throws (itkExceptionObject what) s
                      | Unspecified => Undefined
                      end) as W.
  { intros g. run. destruct (Z.ltb_spec0 1 (m_ReferenceCount c)); [lia|]. run.
    destruct (g (itk c)); reflexivity. }
  destruct fixed; [pose proof (W (fun t => itkSetFixedParameters t v)) as W'
                  | pose proof (W (fun t => itkSetParameters t v)) as W'];
    simpl in W'; unfold itkSetFixedParameters, itkSetParameters in W';
    destruct (itkSetVector _ (itk c) v); exact W'.
Qed.

Lemma unique_handle_writes_in_place_witness :
  backendOf Scenario.oneAffine Scenario.A = Some 1%positive /\
  objects Scenario.oneAffine !! 1%positive
    = Some {| m_ReferenceCount := 1; itk := itkNew AffineTransform 3 |} /\
  1 <= 1 /\
  SetParameters Scenario.A (zeros 3) Scenario.oneAffine
    = Throws (itkExceptionObject sizeMismatch) Scenario.oneAffine.
Proof.
  split; [reflexivity|]. split; [reflexivity|]. split; [lia|].
  apply (unique_handle_writes_in_place false Scenario.oneAffine Scenario.A 1%positive
           {| m_ReferenceCount := 1; itk := itkNew AffineTransform 3 |} (zeros 3));
    [reflexivity | reflexivity | simpl; lia].
Defined.

(** X12: [MakeUniqueForWrite] on a handle in its invariant.  It returns, the
    handle is then the only reference to its object (count 1) and reads
    what it read before; called again, it changes nothing. *)
Theorem MakeUniqueForWrite_is_idempotent (s : State) (x : var) :
  live s x = true -> cloneable s x = true ->
  exists s' c',
    MakeUniqueForWrite x s = Normal tt s' /\
    objectOf s' x = Some c' /\ m_ReferenceCount c' = 1 /\
    value (GetParameters x s') = value (GetParameters x s) /\
    value (GetFixedParameters x s') = value (GetFixedParameters x s) /\
    value (GetDimension x s') = value (GetDimension x s) /\
    MakeUniqueForWrite x s' = Normal tt s'.
Proof.
  intros Hlive Hclone.
  destruct (live_inv _ _ Hlive) as (p & o & c & H1 & H2 & H3 & H4).
  destruct (reaches _ _ _ _ _ H1 H2 H3) as (Hw & Hb & Hobj & Hc).
  assert (Hf : fieldLive s (itk c) = true).
  { unfold cloneable in Hclone. now rewrite Hc in Hclone. }
  pose proof (used_not_fresh _ _ _ H2) as Hq.
  pose proof (used_not_fresh _ _ _ H3) as Hq'.
  unfold fieldLive in Hf.
  destruct (Z.ltb_spec0 1 (m_ReferenceCount c)) as [Hrc|Hrc].
  - destruct (m_DisplacementField (itk c)) as [f|] eqn:Hfld;
      [destruct (buffers s !! m_ImportPointer f) as [px|] eqn:Hpx; [|discriminate]|];
      eexists; eexists;
      (split; [run; (destruct (Z.ltb_spec0 1 (m_ReferenceCount c)); [|lia]); run;
               rewrite ?Hfld; run;
               (destruct (Z.leb_spec0 (m_ReferenceCount c - 1) 0); [lia|]); run;
               reflexivity|]);
      rewrite !GetParameters_outcome, !GetFixedParameters_outcome, !GetDimension_outcome;
      unfold readOutcome; rewrite Hc;
      unfold contentsOf, objectOf, backendOf, wrapperOf; run;
      (split; [reflexivity|]); (split; [reflexivity|]);
      unfold itkGetParameters, itkGetFixedParameters;
      rewrite ?itkGetVector_withField; repeat split; try reflexivity;
      destruct (itkGetVector _ (itk c)); reflexivity.
  - exists s, c.
    split; [run; (destruct (Z.ltb_spec0 1 (m_ReferenceCount c)); [lia|]); reflexivity|].
    split; [exact Hobj|]. split; [lia|].
    repeat split. run. destruct (Z.ltb_spec0 1 (m_ReferenceCount c)); [lia|]. reflexivity.
Qed.

Lemma MakeUniqueForWrite_is_idempotent_witness :
  live Scenario.eulerShared Scenario.B = true /\
  cloneable Scenario.eulerShared Scenario.B = true /\
  exists s' c',
    MakeUniqueForWrite Scenario.B Scenario.eulerShared = Normal tt s' /\
    objectOf s' Scenario.B = Some c' /\ m_ReferenceCount c' = 1 /\
    value (GetParameters Scenario.B s') = value (GetParameters Scenario.B Scenario.eulerShared) /\
    value (GetFixedParameters Scenario.B s')
      = value (GetFixedParameters Scenario.B Scenario.eulerShared) /\
    value (GetDimension Scenario.B s') = value (GetDimension Scenario.B Scenario.eulerShared) /\
    MakeUniqueForWrite Scenario.B s' = Normal tt s'.
Proof.
  split; [reflexivity|]. split; [reflexivity|].
  apply (MakeUniqueForWrite_is_idempotent Scenario.eulerShared Scenario.B); reflexivity.
Defined.

(** ** The Euler3D facade on its own Backend *)

Lemma facadeReads_bound (s : State) (x : var) (o : addr) (c : LightObject) :
  euler3d s !! x = Some (boundTo (Some o)) ->
  objects s !! o = Some c ->
  facadeReads s x (itkGetCenter (itk c)) (itkGetAngleX (itk c)) (itkGetAngleY (itk c))
    (itkGetAngleZ (itk c)) (itkGetTranslation (itk c)) (itkGetComputeZYX (itk c)).
Proof.
  intros Hs Ho.
  unfold facadeReads, Euler3D_GetCenter, Euler3D_GetAngleX, Euler3D_GetAngleY,
    Euler3D_GetAngleZ, Euler3D_GetTranslation, Euler3D_GetComputeZYX.
  run. auto 10.
Qed.

(** X13: the default constructor of the facade.  It always returns, on a
    fresh Backend that is the identity Euler transform in three dimensions,
    with every slot bound to that Backend: the getters return zero angles,
    a zero centre, a zero translation and [ComputeZYX] off. *)
Theorem Euler3D_default_is_bound_identity (this : var) (s : State) :
  exists s',
    Euler3D_ctor this s = Normal tt s' /\
    freshBackend s s' this (itkNew Euler3DTransformClass 3) /\
    boundToBackend s' this /\
    facadeReads s' this (zeros 3) 0%float 0%float 0%float (zeros 3) false.
Proof.
  eexists. split.
  - unfold Euler3D_ctor, constructing_derived, Euler3D_InternalInitialization,
      Euler3D_InternalInitialization_typed, InternalInitialization.
    run. reflexivity.
  - split; [|split].
    + exists (fresh (dom (pimples s))), (fresh (dom (objects s))).
      run. auto using @fresh_unused.
    + exists (fresh (dom (objects s))). unfold backendOf, wrapperOf. run. auto.
    + apply (facadeReads_bound _ _ (fresh (dom (objects s)))
               {| m_ReferenceCount := 1; itk := itkNew Euler3DTransformClass 3 |});
        run; reflexivity.
Qed.

Lemma eulerParams_length (ax ay az : double) (tr : list double) :
  (length tr <= 3)%nat ->
  eulerParams ax ay az tr = Some ([ax; ay; az] ++ tr ++ zeros (3 - length tr))%list /\
  length (tr ++ zeros (3 - length tr))%list = 3%nat.
Proof.
  intros H. unfold eulerParams, zeros.
  destruct (Nat.ltb_spec0 3 (length tr)); [lia|]. split; [reflexivity|].
  rewrite length_app, length_replicate. lia.
Qed.

(** X14: the constructor from a centre, three angles and a translation.
    With a centre of three entries and a translation of at most three, it
    returns on a fresh Backend that holds them (a short translation is
    completed with zeros), every slot is bound to that Backend, and the
    getters of the facade and of the handle return what was given. *)
Theorem Euler3D_ctor_params_round_trip (this : var) (s : State) (fixedCenter : list double)
    (angleX angleY angleZ : double) (translation : list double) :
  length fixedCenter = 3%nat -> (length translation <= 3)%nat ->
  exists s',
    Euler3D_ctor_params this fixedCenter angleX angleY angleZ translation s = Normal tt s' /\
    freshBackend s s' this
      (leaf Euler3DTransformClass 3
         ([angleX; angleY; angleZ] ++ translation ++ zeros (3 - length translation))%list
         fixedCenter) /\
    boundToBackend s' this /\
    facadeReads s' this fixedCenter angleX angleY angleZ
      (translation ++ zeros (3 - length translation))%list false /\
    GetParameters this s'
      = Normal ([angleX; angleY; angleZ] ++ translation
                ++ zeros (3 - length translation))%list s' /\
    GetFixedParameters this s' = Normal fixedCenter s'.
Proof.
  intros Hc Ht. destruct (eulerParams_length angleX angleY angleZ translation Ht) as (Hp & Hl).
  eexists. split.
  - unfold Euler3D_ctor_params, constructing_derived, Euler3D_InternalInitialization,
      Euler3D_InternalInitialization_typed, InternalInitialization.
    run. unfold itkSetFixedParameters, itkSetParameters, EulerTransformType, leaf. run.
    rewrite Hc. run. rewrite Hp. run. rewrite Hl. run. reflexivity.
  - split; [|split; [|split]].
    + exists (fresh (dom (pimples s))), (fresh (dom (objects s))).
      run. auto using @fresh_unused.
    + exists (fresh (dom (objects s))). unfold backendOf, wrapperOf. run. auto.
    + apply (facadeReads_bound _ _ (fresh (dom (objects s)))
               {| m_ReferenceCount := 1;
                  itk := leaf Euler3DTransformClass 3
                           ([angleX; angleY; angleZ] ++ translation
                            ++ zeros (3 - length translation))%list fixedCenter |});
        run; reflexivity.
    + rewrite GetParameters_outcome, GetFixedParameters_outcome.
      unfold readOutcome, contentsOf, objectOf, backendOf, wrapperOf. run. auto.
Qed.

Lemma Euler3D_ctor_params_round_trip_witness :
  length [1; 2; 3]%float = 3%nat /\ (length [4]%float <= 3)%nat /\
  exists s',
    Euler3D_ctor_params Scenario.A [1; 2; 3]%float 0.5 0.25 0.125 [4]%float emptyState
      = Normal tt s' /\
    freshBackend emptyState s' Scenario.A
      (leaf Euler3DTransformClass 3
         ([0.5; 0.25; 0.125]%float ++ [4]%float ++ zeros (3 - length [4]%float))%list
         [1; 2; 3]%float) /\
    boundToBackend s' Scenario.A /\
    facadeReads s' Scenario.A [1; 2; 3]%float 0.5 0.25 0.125
      ([4]%float ++ zeros (3 - length [4]%float))%list false /\
    GetParameters Scenario.A s'
      = Normal ([0.5; 0.25; 0.125]%float ++ [4]%float
                ++ zeros (3 - length [4]%float))%list s' /\
    GetFixedParameters Scenario.A s' = Normal [1; 2; 3]%float s'.
Proof.
  split; [reflexivity|]. split; [simpl; lia|].
  apply (Euler3D_ctor_params_round_trip Scenario.A emptyState [1; 2; 3]%float
           0.5 0.25 0.125 [4]%float); [reflexivity | simpl; lia].
Defined.

(** X15: the same constructor with a centre that has not three entries.
    The library rejects the centre inside the constructor and the base
    sub-object is destroyed again: the state is exactly the one of before,
    with no handle, no slot table, no wrapper and no ITK object left. *)
Theorem Euler3D_ctor_params_bad_centre_leaks_nothing (this : var) (s : State)
    (fixedCenter : list double) (angleX angleY angleZ : double) (translation : list double) :
  transforms s !! this = None -> euler3d s !! this = None ->
  length fixedCenter <> 3%nat ->
  exists what,
    Euler3D_ctor_params this fixedCenter angleX angleY angleZ translation s
      = Throws (itkExceptionObject what) s.
Proof.
  intros Hfree Hslots Hc. exists sizeMismatch.
  unfold Euler3D_ctor_params, constructing_derived, Euler3D_InternalInitialization,
    Euler3D_InternalInitialization_typed, InternalInitialization.
  run. unfold itkSetFixedParameters, itkSetParameters, EulerTransformType, leaf. run.
  destruct (Nat.eqb_spec (length fixedCenter) 3); [contradiction|]. run.
  f_equal. apply State_eq; simpl;
    rewrite ?insert_insert_eq, ?delete_insert_eq;
    try reflexivity;
    apply delete_id; first [exact Hfree | exact Hslots | apply fresh_unused].
Qed.

Lemma Euler3D_ctor_params_bad_centre_leaks_nothing_witness :
  transforms emptyState !! Scenario.A = None /\ euler3d emptyState !! Scenario.A = None /\
  length [1; 2]%float <> 3%nat /\
  exists what,
    Euler3D_ctor_params Scenario.A [1; 2]%float 0 0 0 [] emptyState
      = Throws (itkExceptionObject what) emptyState.
Proof.
  split; [reflexivity|]. split; [reflexivity|]. split; [discriminate|].
  apply (Euler3D_ctor_params_bad_centre_leaks_nothing Scenario.A emptyState [1; 2]%float
           0 0 0 []); [reflexivity | reflexivity | discriminate].
Defined.

(** X16: the same constructor with a translation of more than three
    entries, after a centre that is accepted: [std::copy] writes past the
    end of the six parameters, which is undefined. *)
Theorem Euler3D_ctor_params_long_translation_is_undefined (this : var) (s : State)
    (fixedCenter : list double) (angleX angleY angleZ : double) (translation : list double) :
  length fixedCenter = 3%nat -> (3 < length translation)%nat ->
  Euler3D_ctor_params this fixedCenter angleX angleY angleZ translation s = Undefined.
Proof.
  intros Hc Ht.
  unfold Euler3D_ctor_params, constructing_derived, Euler3D_InternalInitialization,
    Euler3D_InternalInitialization_typed, InternalInitialization, eulerParams.
  run. unfold itkSetFixedParameters, itkSetParameters, EulerTransformType, leaf. run.
  rewrite Hc. run.
  destruct (Nat.ltb_spec0 3 (length translation)); [|lia]. reflexivity.
Qed.

Lemma Euler3D_ctor_params_long_translation_is_undefined_witness :
  length [1; 2; 3]%float = 3%nat /\ (3 < length [1; 2; 3; 4]%float)%nat /\
  Euler3D_ctor_params Scenario.A [1; 2; 3]%float 0 0 0 [1; 2; 3; 4]%float emptyState
    = Undefined.
Proof.
  split; [reflexivity|]. split; [simpl; lia|].
  apply (Euler3D_ctor_params_long_translation_is_undefined Scenario.A emptyState
           [1; 2; 3]%float 0 0 0 [1; 2; 3; 4]%float); [reflexivity | simpl; lia].
Defined.

Lemma backendOf_inv (s : State) (x : var) (o : addr) :
  backendOf s x = Some o ->
  exists p, transforms s !! x = Some {| m_PimpleTransform := Some p |} /\
            pimples s !! p = Some {| m_Transform := o |}.
Proof.
  unfold backendOf, wrapperOf. intros Hb.
  destruct (transforms s !! x) as [[[p|]]|] eqn:E1; simpl in Hb; try discriminate.
  destruct (pimples s !! p) as [[o']|] eqn:E2; simpl in Hb; try discriminate.
  injection Hb as ->. now exists p.
Qed.

(** X17: the accessors of a facade that alone refers to its Backend and
    whose slots are bound to it.  The four setters, one after the other,
    return and allocate nothing; the six getters then return what was set
    (the first three entries of the centre and of the translation), the
    slots are still bound to the Backend, and the vectors of the handle are
    the angles followed by the translation, and the centre. *)
Theorem unique_facade_round_trip (s : State) (x : var) (o : addr) (c : LightObject)
    (center translation : list double) (angleX angleY angleZ : double) (zyx : bool) :
  backendOf s x = Some o -> objects s !! o = Some c -> m_ReferenceCount c <= 1 ->
  euler3d s !! x = Some (boundTo (Some o)) ->
  NameOfClass (itk c) = Euler3DTransformClass ->
  (3 <= length center)%nat -> (3 <= length translation)%nat ->
  exists s',
    (_ <- Euler3D_SetCenter x center ;; _ <- Euler3D_SetRotation x angleX angleY angleZ ;;
     _ <- Euler3D_SetTranslation x translation ;; Euler3D_SetComputeZYX x zyx) s
      = Normal tt s' /\
    boundToBackend s' x /\
    pimples s' = pimples s /\ dom (objects s') = dom (objects s) /\
    facadeReads s' x (take 3 center) angleX angleY angleZ (take 3 translation) zyx /\
    GetParameters x s' = Normal ([angleX; angleY; angleZ] ++ take 3 translation)%list s' /\
    GetFixedParameters x s' = Normal (take 3 center) s'.
Proof.
  intros Hb Ho Hrc Hs Hcls Hctr Htr.
  destruct (backendOf_inv _ _ _ Hb) as (p & H1 & H2).
  destruct c as [rc [cls d pr fx z q fld]]. simpl in *. subst cls.
  eexists. split.
  - unfold Euler3D_SetCenter, Euler3D_SetRotation, Euler3D_SetTranslation,
      Euler3D_SetComputeZYX, toITK, sitkSTLVectorToITK.
    run. destruct (Z.ltb_spec0 1 rc); [lia|]. run.
    destruct (Nat.ltb_spec0 (length center) 3); [lia|]. run.
    destruct (Z.ltb_spec0 1 rc); [lia|]. run.
    destruct (Z.ltb_spec0 1 rc); [lia|]. run.
    destruct (Nat.ltb_spec0 (length translation) 3); [lia|]. run.
    destruct (Z.ltb_spec0 1 rc); [lia|]. run.
    reflexivity.
  - split; [|split; [|split; [|split]]].
    + exists o. unfold backendOf, wrapperOf. run. auto.
    + reflexivity.
    + simpl. repeat (rewrite dom_insert_lookup_L; [|run; eauto]). reflexivity.
    + unfold facadeReads, Euler3D_GetCenter, Euler3D_GetAngleX, Euler3D_GetAngleY,
        Euler3D_GetAngleZ, Euler3D_GetTranslation, Euler3D_GetComputeZYX.
      run. auto 10.
    + rewrite GetParameters_outcome, GetFixedParameters_outcome.
      unfold readOutcome, contentsOf, objectOf, backendOf, wrapperOf. run. auto.
Qed.

Lemma unique_facade_round_trip_witness :
  backendOf Scenario.eulerFresh Scenario.A = Some 1%positive /\
  objects Scenario.eulerFresh !! 1%positive
    = Some {| m_ReferenceCount := 1; itk := itkNew Euler3DTransformClass 3 |} /\
  1 <= 1 /\
  euler3d Scenario.eulerFresh !! Scenario.A = Some (boundTo (Some 1%positive)) /\
  NameOfClass (itkNew Euler3DTransformClass 3) = Euler3DTransformClass /\
  (3 <= length [1; 2; 3]%float)%nat /\ (3 <= length [4; 5; 6; 7]%float)%nat /\
  exists s',
    (_ <- Euler3D_SetCenter Scenario.A [1; 2; 3]%float ;;
     _ <- Euler3D_SetRotation Scenario.A 0.5 0.25 0.125 ;;
     _ <- Euler3D_SetTranslation Scenario.A [4; 5; 6; 7]%float ;;
     Euler3D_SetComputeZYX Scenario.A true) Scenario.eulerFresh = Normal tt s' /\
    boundToBackend s' Scenario.A /\
    pimples s' = pimples Scenario.eulerFresh /\
    dom (objects s') = dom (objects Scenario.eulerFresh) /\
    facadeReads s' Scenario.A (take 3 [1; 2; 3]%float) 0.5 0.25 0.125
      (take 3 [4; 5; 6; 7]%float) true /\
    GetParameters Scenario.A s'
      = Normal ([0.5; 0.25; 0.125]%float ++ take 3 [4; 5; 6; 7]%float)%list s' /\
    GetFixedParameters Scenario.A s' = Normal (take 3 [1; 2; 3]%float) s'.
Proof.
  split; [reflexivity|]. split; [reflexivity|]. split; [lia|]. split; [reflexivity|].
  split; [reflexivity|]. split; [simpl; lia|]. split; [simpl; lia|].
  apply (unique_facade_round_trip Scenario.eulerFresh Scenario.A 1%positive
           {| m_ReferenceCount := 1; itk := itkNew Euler3DTransformClass 3 |}
           [1; 2; 3]%float [4; 5; 6; 7]%float 0.5 0.25 0.125 true);
    [reflexivity | reflexivity | simpl; lia | reflexivity | reflexivity
     | simpl; lia | simpl; lia].
Defined.

(** X18: a centre or a translation of fewer than three entries.  The
    conversion to the library's point throws; on a facade that alone refers
    to its Backend nothing has changed. *)
Theorem short_vector_is_refused (s : State) (x : var) (o : addr) (c : LightObject)
    (v : list double) :
  backendOf s x = Some o -> objects s !! o = Some c -> m_ReferenceCount c <= 1 ->
  euler3d s !! x = Some (boundTo (Some o)) ->
  (length v < 3)%nat ->
  exists what,
    Euler3D_SetCenter x v s = Throws (GenericException what) s /\
    Euler3D_SetTranslation x v s = Throws (GenericException what) s.
Proof.
  intros Hb Ho Hrc Hs Hv.
  destruct (backendOf_inv _ _ _ Hb) as (p & H1 & H2).
  unfold Euler3D_SetCenter, Euler3D_SetTranslation, toITK, sitkSTLVectorToITK.
  eexists. split; run; (destruct (Z.ltb_spec0 1 (m_ReferenceCount c)); [lia|]); run;
    (destruct (Nat.ltb_spec0 (length v) 3); [|lia]); reflexivity.
Qed.

Lemma short_vector_is_refused_witness :
  backendOf Scenario.eulerFresh Scenario.A = Some 1%positive /\
  objects Scenario.eulerFresh !! 1%positive
    = Some {| m_ReferenceCount := 1; itk := itkNew Euler3DTransformClass 3 |} /\
  1 <= 1 /\
  euler3d Scenario.eulerFresh !! Scenario.A = Some (boundTo (Some 1%positive)) /\
  (length [1; 2]%float < 3)%nat /\
  exists what,
    Euler3D_SetCenter Scenario.A [1; 2]%float Scenario.eulerFresh
      = Throws (GenericException what) Scenario.eulerFresh /\
    Euler3D_SetTranslation Scenario.A [1; 2]%float Scenario.eulerFresh
      = Throws (GenericException what) Scenario.eulerFresh.
Proof.
  split; [reflexivity|]. split; [reflexivity|]. split; [lia|]. split; [reflexivity|].
  split; [simpl; lia|].
  apply (short_vector_is_refused Scenario.eulerFresh Scenario.A 1%positive
           {| m_ReferenceCount := 1; itk := itkNew Euler3DTransformClass 3 |} [1; 2]%float);
    [reflexivity | reflexivity | simpl; lia | reflexivity | simpl; lia].
Defined.

(** ** Copies and assignments of the facade *)

(** X19: the copy constructor of the facade.  The copy gets a wrapper of
    its own around the object of the source, whose count goes up by one,
    and its slots are bound to that object when it is an Euler3D transform
    and left empty when it is not; the slots of every other facade are as
    they were. *)
Theorem Euler3D_copy_binds_shared_backend (s : State) (this arg : var) (o : addr)
    (c : LightObject) :
  backendOf s arg = Some o -> objects s !! o = Some c -> this <> arg ->
  exists s',
    Euler3D_ctor_copy this arg s = Normal tt s' /\
    backendOf s' this = Some o /\ backendOf s' arg = Some o /\
    wrapperOf s' this <> wrapperOf s' arg /\
    objects s' = <[o := {| m_ReferenceCount := m_ReferenceCount c + 1; itk := itk c |}]>
                   (objects s) /\
    euler3d s' !! this
      = Some (boundTo (if ITKClass_eqb (NameOfClass (itk c)) Euler3DTransformClass
                       then Some o else None)) /\
    (forall y, y <> this -> euler3d s' !! y = euler3d s !! y).
Proof.
  intros Hb Ho Hne.
  destruct (backendOf_inv _ _ _ Hb) as (p & H1 & H2).
  pose proof (used_not_fresh' _ _ _ H2) as Hq.
  exists (set_euler3d
            (insert this (boundTo (if ITKClass_eqb (NameOfClass (itk c)) Euler3DTransformClass
                                   then Some o else None)))
            (set_transforms
               (insert this {| m_PimpleTransform := Some (fresh (dom (pimples s))) |})
               (set_pimples (insert (fresh (dom (pimples s))) {| m_Transform := o |})
                  (set_objects (insert o {| m_ReferenceCount := m_ReferenceCount c + 1;
                                            itk := itk c |})
                     (set_transforms (insert this {| m_PimpleTransform := None |}) s))))).
  split.
  - unfold Euler3D_ctor_copy, constructing_derived, Euler3D_InternalInitialization,
      Euler3D_InternalInitialization_typed.
    run. destruct (ITKClass_eqb (NameOfClass (itk c)) Euler3DTransformClass); reflexivity.
  - unfold backendOf, wrapperOf.
    destruct (ITKClass_eqb (NameOfClass (itk c)) Euler3DTransformClass); run;
      (repeat split; auto; try congruence);
      intros y Hy; now rewrite lookup_insert_ne by congruence.
Qed.

Lemma Euler3D_copy_binds_shared_backend_witness :
  backendOf Scenario.eulerAlone Scenario.A = Some 1%positive /\
  objects Scenario.eulerAlone !! 1%positive
    = Some {| m_ReferenceCount := 1;
              itk := leaf Euler3DTransformClass 3 [0.5; 0.25; 0.125; 0; 0; 0]%float
                       (zeros 3) |} /\
  Scenario.B <> Scenario.A /\
  exists s',
    Euler3D_ctor_copy Scenario.B Scenario.A Scenario.eulerAlone = Normal tt s' /\
    backendOf s' Scenario.B = Some 1%positive /\ backendOf s' Scenario.A = Some 1%positive /\
    wrapperOf s' Scenario.B <> wrapperOf s' Scenario.A /\
    objects s' = <[1%positive :=
                     {| m_ReferenceCount := 1 + 1;
                        itk := leaf Euler3DTransformClass 3
                                 [0.5; 0.25; 0.125; 0; 0; 0]%float (zeros 3) |}]>
                   (objects Scenario.eulerAlone) /\
    euler3d s' !! Scenario.B = Some (boundTo (Some 1%positive)) /\
    (forall y, y <> Scenario.B -> euler3d s' !! y = euler3d Scenario.eulerAlone !! y).
Proof.
  split; [reflexivity|]. split; [reflexivity|]. split; [discriminate|].
  apply (Euler3D_copy_binds_shared_backend Scenario.eulerAlone Scenario.B Scenario.A
           1%positive
           {| m_ReferenceCount := 1;
              itk := leaf Euler3DTransformClass 3 [0.5; 0.25; 0.125; 0; 0; 0]%float
                       (zeros 3) |});
    [reflexivity | reflexivity | discriminate].
Defined.

(** X20: the assignment of one facade to another.  The destination ends on
    the Backend of the source, and its slots are not bound again: the slot
    tables are exactly what they were.  When the destination alone referred
    to the object its slots are bound to, that object is destroyed by the
    assignment, and a getter of the destination is undefined afterwards. *)
Theorem Euler3D_assign_keeps_slots (s : State) (this arg : var) (o : addr) (c : LightObject) :
  live s arg = true ->
  backendOf s this = Some o -> objects s !! o = Some c -> 1 <= m_ReferenceCount c ->
  exists s',
    Euler3D_assign this arg s = Normal tt s' /\
    backendOf s' this = backendOf s arg /\
    euler3d s' = euler3d s /\
    (m_ReferenceCount c = 1 -> backendOf s arg <> Some o ->
     euler3d s !! this = Some (boundTo (Some o)) ->
     objects s' !! o = None /\
     Euler3D_GetAngleX this s' = Undefined /\ Euler3D_GetCenter this s' = Undefined).
Proof.
  intros Harg Hb Ho Hrc.
  destruct (backendOf_inv _ _ _ Hb) as (ph & Hh1 & Hh2).
  destruct (live_inv _ _ Harg) as (pt & ot & ct & Ht1 & Ht2 & Ht3 & Ht4).
  destruct (reaches _ _ _ _ _ Ht1 Ht2 Ht3) as (_ & Hbt & _).
  pose proof (used_not_fresh _ _ _ Hh2) as Hq.
  unfold Euler3D_assign, Transform_assign. rewrite Hbt.
  destruct (decide (o = ot)) as [->|Eo].
  - assert (c = ct) as -> by congruence. run.
    destruct (Z.leb_spec0 (m_ReferenceCount ct + 1 - 1) 0); [lia|]. run.
    eexists. split; [reflexivity|].
    unfold backendOf, wrapperOf. run. repeat split; congruence.
  - run.
    destruct (Z.leb_spec0 (m_ReferenceCount c - 1) 0) as [Hz|Hz];
      [destruct (m_DisplacementField (itk c)) as [f|]; [destruct (m_ContainerManageMemory f)|]|];
      (eexists; split; [reflexivity|]);
      unfold backendOf, wrapperOf, Euler3D_GetAngleX, Euler3D_GetCenter; run;
      (split; [reflexivity|]); (split; [reflexivity|]);
      intros Hone _ Hs; try lia; run; rewrite lookup_delete_eq; auto.
Qed.

Lemma Euler3D_assign_keeps_slots_witness :
  live Scenario.eulerTwo Scenario.A = true /\
  backendOf Scenario.eulerTwo Scenario.B = Some 2%positive /\
  objects Scenario.eulerTwo !! 2%positive
    = Some {| m_ReferenceCount := 1; itk := itkNew Euler3DTransformClass 3 |} /\
  1 <= 1 /\
  exists s',
    Euler3D_assign Scenario.B Scenario.A Scenario.eulerTwo = Normal tt s' /\
    backendOf s' Scenario.B = backendOf Scenario.eulerTwo Scenario.A /\
    euler3d s' = euler3d Scenario.eulerTwo /\
    (1 = 1 -> backendOf Scenario.eulerTwo Scenario.A <> Some 2%positive ->
     euler3d Scenario.eulerTwo !! Scenario.B = Some (boundTo (Some 2%positive)) ->
     objects s' !! 2%positive = None /\
     Euler3D_GetAngleX Scenario.B s' = Undefined /\
     Euler3D_GetCenter Scenario.B s' = Undefined).
Proof.
  split; [reflexivity|]. split; [reflexivity|]. split; [reflexivity|]. split; [lia|].
  apply (Euler3D_assign_keeps_slots Scenario.eulerTwo Scenario.B Scenario.A 2%positive
           {| m_ReferenceCount := 1; itk := itkNew Euler3DTransformClass 3 |});
    [reflexivity | reflexivity | reflexivity | simpl; lia].
Defined.

Lemma shared_facade_setter_misses_its_backend_witness :
  transforms Scenario.eulerShared !! Scenario.B = Some {| m_PimpleTransform := Some 2%positive |} /\
  pimples Scenario.eulerShared !! 2%positive = Some {| m_Transform := 1%positive |} /\
  objects Scenario.eulerShared !! 1%positive
    = Some {| m_ReferenceCount := 2;
              itk := leaf Euler3DTransformClass 3 [0.5; 0.25; 0.125; 0; 0; 0]%float
                       (zeros 3) |} /\
  1 < 2 /\
  euler3d Scenario.eulerShared !! Scenario.B = Some (boundTo (Some 1%positive)) /\
  sitkSTLVectorToITK 3 [1; 2; 3]%float = Some [1; 2; 3]%float /\
  exists s' c',
    Euler3D_SetCenter Scenario.B [1; 2; 3]%float Scenario.eulerShared = Normal tt s' /\
    backendOf s' Scenario.B = Some (fresh (dom (objects Scenario.eulerShared))) /\
    objects Scenario.eulerShared !! fresh (dom (objects Scenario.eulerShared)) = None /\
    euler3d s' !! Scenario.B = Some (boundTo (Some 1%positive)) /\
    contentsOf s' Scenario.B
      = Some (leaf Euler3DTransformClass 3 [0.5; 0.25; 0.125; 0; 0; 0]%float (zeros 3)) /\
    objects s' !! 1%positive = Some c' /\
    m_ReferenceCount c' = 2 - 1 /\
    itk c' = itkSetCenter [1; 2; 3]%float
               (leaf Euler3DTransformClass 3 [0.5; 0.25; 0.125; 0; 0; 0]%float (zeros 3)).
Proof.
  split; [reflexivity|]. split; [reflexivity|]. split; [reflexivity|]. split; [lia|].
  split; [reflexivity|]. split; [reflexivity|].
  apply (shared_facade_setter_misses_its_backend Scenario.eulerShared Scenario.B 2%positive
           1%positive
           {| m_ReferenceCount := 2;
              itk := leaf Euler3DTransformClass 3 [0.5; 0.25; 0.125; 0; 0; 0]%float
                       (zeros 3) |} [1; 2; 3]%float [1; 2; 3]%float);
    [reflexivity | reflexivity | reflexivity | simpl; lia | reflexivity | reflexivity
     | reflexivity].
Defined.

(** ** The invariant of the stores *)

Section Wrappers.

Implicit Types (pm : gmap addr PimpleTransform) (om : gmap addr LightObject).
Implicit Types (tm : gmap var Transform).

Lemma wrappersOf_insert pm q w o :
  pm !! q = None ->
  wrappersOf (<[q := w]> pm) o
    = (wrappersOf pm o + (if decide (m_Transform w = o) then 1 else 0))%nat.
Proof.
  intros Hq. unfold wrappersOf. rewrite map_filter_insert. simpl.
  destruct (decide (m_Transform w = o)).
  - rewrite map_size_insert_None; [lia|]. apply map_lookup_filter_None. now left.
  - rewrite delete_id by exact Hq. lia.
Qed.

Lemma wrappersOf_delete pm p w o :
  pm !! p = Some w ->
  (wrappersOf (delete p pm) o + (if decide (m_Transform w = o) then 1 else 0))%nat
    = wrappersOf pm o.
Proof.
  intros Hp. unfold wrappersOf. rewrite map_filter_delete, map_size_delete.
  destruct (decide (m_Transform w = o)) as [E|E].
  - assert (H : filter (fun pw : addr * PimpleTransform => m_Transform (snd pw) = o) pm !! p
                = Some w) by (apply map_lookup_filter_Some; auto).
    rewrite H. simpl.
    assert (size (filter (fun pw : addr * PimpleTransform => m_Transform (snd pw) = o) pm)
            <> 0%nat); [|lia].
    intros Z. apply map_size_empty_iff in Z. rewrite Z in H. now rewrite lookup_empty in H.
  - assert (H : filter (fun pw : addr * PimpleTransform => m_Transform (snd pw) = o) pm !! p
                = None) by (apply map_lookup_filter_None; right; intros ? ?; simpl; congruence).
    rewrite H. simpl. lia.
Qed.

Lemma wrappersOf_pos pm p w : pm !! p = Some w -> (1 <= wrappersOf pm (m_Transform w))%nat.
Proof.
  intros Hp. rewrite <- (wrappersOf_delete pm p w _ Hp).
  destruct (decide (m_Transform w = m_Transform w)); [lia | congruence].
Qed.

Lemma wrappersOf_none pm o :
  (forall p w, pm !! p = Some w -> m_Transform w <> o) -> wrappersOf pm o = 0%nat.
Proof.
  intros H. unfold wrappersOf. apply map_size_empty_iff, map_empty.
  intros p. apply map_lookup_filter_None. right. intros w Hp. simpl. exact (H p w Hp).
Qed.

Lemma wrappersOf_dead tm pm om o :
  wf3 tm pm om -> om !! o = None -> wrappersOf pm o = 0%nat.
Proof.
  intros W Ho. apply wrappersOf_none. intros p w Hp <-.
  destruct (wf_count _ _ _ W p w Hp) as (c & Hc & _). congruence.
Qed.

(** The moves the member functions are made of. *)

Lemma wf_write tm pm om o c c' :
  wf3 tm pm om -> om !! o = Some c -> m_ReferenceCount c <= m_ReferenceCount c' ->
  wf3 tm pm (<[o := c']> om).
Proof.
  intros [W1 W2 W3] Ho Hc. split; auto.
  intros p w Hp. destruct (W3 p w Hp) as (c0 & Hc0 & Hn).
  destruct (decide (m_Transform w = o)) as [E|E].
  - exists c'. rewrite E, lookup_insert_eq. split; [reflexivity|].
    rewrite E in Hc0, Hn. assert (c0 = c) as -> by congruence. lia.
  - exists c0. rewrite lookup_insert_ne by congruence. auto.
Qed.

Lemma wf_alloc tm pm om o c' :
  wf3 tm pm om -> om !! o = None -> wf3 tm pm (<[o := c']> om).
Proof.
  intros W Ho. destruct W as [W1 W2 W3]. split; auto.
  intros p w Hp. destruct (W3 p w Hp) as (c0 & Hc0 & Hn).
  exists c0. rewrite lookup_insert_ne by congruence. auto.
Qed.

Lemma wf_attach tm pm om h q o c :
  wf3 tm pm om -> tm !! h = None -> pm !! q = None ->
  om !! o = Some c -> Z.of_nat (wrappersOf pm o) < m_ReferenceCount c ->
  wf3 (<[h := {| m_PimpleTransform := Some q |}]> tm) (<[q := {| m_Transform := o |}]> pm) om.
Proof.
  intros [W1 W2 W3] Hh Hq Ho Hn. split.
  - intros h0 hd H0. destruct (decide (h0 = h)) as [->|Eh].
    + rewrite lookup_insert_eq in H0. injection H0 as <-.
      exists q, {| m_Transform := o |}. now rewrite lookup_insert_eq.
    + rewrite lookup_insert_ne in H0 by congruence.
      destruct (W1 h0 hd H0) as (p & w & Hp & Hw). exists p, w. split; [exact Hp|].
      rewrite lookup_insert_ne; [exact Hw | congruence].
  - intros h1 h2 p H1 H2.
    assert (Hold : forall h0, h0 <> h -> tm !! h0 = Some {| m_PimpleTransform := Some p |} ->
                              p <> q).
    { intros h0 _ H0 ->. destruct (W1 _ _ H0) as (p' & w' & [= <-] & Hw). congruence. }
    destruct (decide (h1 = h)) as [->|E1], (decide (h2 = h)) as [->|E2]; auto.
    + rewrite lookup_insert_eq in H1. rewrite lookup_insert_ne in H2 by congruence.
      injection H1 as <-. destruct (Hold h2 E2 H2 eq_refl).
    + rewrite lookup_insert_eq in H2. rewrite lookup_insert_ne in H1 by congruence.
      injection H2 as <-. destruct (Hold h1 E1 H1 eq_refl).
    + rewrite lookup_insert_ne in H1, H2 by congruence. eauto.
  - intros p w Hp. destruct (decide (p = q)) as [->|Ep].
    + rewrite lookup_insert_eq in Hp. injection Hp as <-. simpl.
      exists c. split; [exact Ho|]. rewrite wrappersOf_insert by exact Hq. simpl.
      destruct (decide (o = o)); [lia | congruence].
    + rewrite lookup_insert_ne in Hp by congruence.
      destruct (W3 p w Hp) as (c0 & Hc0 & Hn0). exists c0. split; [exact Hc0|].
      rewrite wrappersOf_insert by exact Hq. simpl.
      destruct (decide (o = m_Transform w)) as [E|E]; [|lia].
      rewrite <- E in *. assert (c0 = c) as -> by congruence. lia.
Qed.

Lemma wf_detach tm pm om h p :
  wf3 tm pm om -> tm !! h = Some {| m_PimpleTransform := Some p |} ->
  wf3 (delete h tm) (delete p pm) om.
Proof.
  intros [W1 W2 W3] Hh. split.
  - intros h0 hd H0. apply lookup_delete_Some in H0 as [Eh H0].
    destruct (W1 h0 hd H0) as (p0 & w & Hp & Hw). exists p0, w. split; [exact Hp|].
    rewrite lookup_delete_ne; [exact Hw|]. intros <-.
    destruct hd as [pp]. simpl in Hp. subst pp. apply Eh. exact (W2 _ _ _ Hh H0).
  - intros h1 h2 p0 H1 H2. apply lookup_delete_Some in H1 as [_ H1], H2 as [_ H2]. eauto.
  - intros p0 w Hp. apply lookup_delete_Some in Hp as [Ep Hp].
    destruct (W3 p0 w Hp) as (c0 & Hc0 & Hn0). exists c0. split; [exact Hc0|].
    destruct (W1 _ _ Hh) as (p' & w' & [= <-] & Hw').
    pose proof (wrappersOf_delete pm p w' (m_Transform w) Hw'). lia.
Qed.

Lemma wf_release_keep tm pm om o c :
  wf3 tm pm om -> om !! o = Some c -> Z.of_nat (wrappersOf pm o) < m_ReferenceCount c ->
  wf3 tm pm (<[o := {| m_ReferenceCount := m_ReferenceCount c - 1; itk := itk c |}]> om).
Proof.
  intros [W1 W2 W3] Ho Hn. split; auto.
  intros p w Hp. destruct (W3 p w Hp) as (c0 & Hc0 & Hn0).
  destruct (decide (m_Transform w = o)) as [E|E].
  - eexists. rewrite E, lookup_insert_eq. split; [reflexivity|]. simpl. lia.
  - exists c0. rewrite lookup_insert_ne by congruence. auto.
Qed.

Lemma wf_release_delete tm pm om o c :
  wf3 tm pm om -> om !! o = Some c -> Z.of_nat (wrappersOf pm o) < m_ReferenceCount c ->
  m_ReferenceCount c - 1 <= 0 ->
  wf3 tm pm (delete o om).
Proof.
  intros [W1 W2 W3] Ho Hn Hz. split; auto.
  intros p w Hp. destruct (W3 p w Hp) as (c0 & Hc0 & Hn0).
  destruct (decide (m_Transform w = o)) as [E|E].
  - pose proof (wrappersOf_pos pm p w Hp). rewrite E in *. lia.
  - exists c0. rewrite lookup_delete_ne by congruence. auto.
Qed.

Lemma wf_handle_live tm pm om h hd :
  wf3 tm pm om -> tm !! h = Some hd ->
  exists p o c, tm !! h = Some {| m_PimpleTransform := Some p |} /\
                pm !! p = Some {| m_Transform := o |} /\ om !! o = Some c /\
                1 <= Z.of_nat (wrappersOf pm o) <= m_ReferenceCount c.
Proof.
  intros W Hh. destruct (wf_handle _ _ _ W h hd Hh) as (p & w & Hp & Hw).
  destruct (wf_count _ _ _ W p w Hw) as (c & Hc & Hn).
  pose proof (wrappersOf_pos pm p w Hw).
  destruct hd as [pp], w as [o]. simpl in *. subst pp.
  exists p, o, c. repeat split; auto; lia.
Qed.

End Wrappers.

Lemma wellFormed_handle (s : State) (h : var) :
  wellFormed s -> is_Some (transforms s !! h) ->
  exists p o c, transforms s !! h = Some {| m_PimpleTransform := Some p |} /\
                pimples s !! p = Some {| m_Transform := o |} /\ objects s !! o = Some c /\
                1 <= Z.of_nat (wrappersOf (pimples s) o) <= m_ReferenceCount c.
Proof. intros W [hd Hh]. exact (wf_handle_live _ _ _ _ _ W Hh). Qed.

(** A constructor that throws leaves the stores as they were. *)
Lemma wf_thrown (s : State) (this : var) :
  wellFormed s -> transforms s !! this = None ->
  wellFormed (set_transforms (delete this)
                (set_transforms (insert this {| m_PimpleTransform := None |}) s)).
Proof.
  intros W Hfree. unfold wellFormed. simpl. rewrite delete_insert_id by exact Hfree. exact W.
Qed.

(** A constructor that returns has attached a fresh wrapper around a fresh
    object to the new handle. *)
Lemma wf_built (s : State) (this : var) (c' : LightObject) :
  wellFormed s -> transforms s !! this = None -> 1 <= m_ReferenceCount c' ->
  wf3 (<[this := {| m_PimpleTransform := Some (fresh (dom (pimples s))) |}]> (transforms s))
      (<[fresh (dom (pimples s)) := {| m_Transform := fresh (dom (objects s)) |}]> (pimples s))
      (<[fresh (dom (objects s)) := c']> (objects s)).
Proof.
  intros W Hfree Hc.
  apply (wf_attach _ _ _ _ _ _ c');
    [apply wf_alloc; [exact W | apply fresh_unused] | exact Hfree | apply fresh_unused
     | apply lookup_insert_eq |].
  rewrite (wrappersOf_dead _ _ _ _ W (fresh_unused _)). simpl. lia.
Qed.

Lemma construct_preserves (s : State) (this : var) (dimensions : N) (type : TransformEnum) :
  wellFormed s -> transforms s !! this = None ->
  match Transform_ctor this dimensions type s with
  | Normal _ s' | Throws _ s' => wellFormed s'
  | Undefined => False
  end.
Proof.
  intros W Hfree.
  assert (Hleaf : forall c d,
    match constructing this None
            (p <- new_PimpleTransform c d ;; set_m_PimpleTransform this (Some p)) s with
    | Normal _ s' | Throws _ s' => wellFormed s'
    | Undefined => False
    end).
  { intros c d. unfold constructing. run. unfold wellFormed. simpl.
    rewrite insert_insert_eq. apply wf_built; [exact W | exact Hfree | simpl; lia]. }
  assert (Hthrow : forall what,
    match constructing this None (sitkExceptionMacro what) s with
    | Normal _ s' | Throws _ s' => wellFormed s'
    | Undefined => False
    end).
  { intros what. unfold constructing. run. apply wf_thrown; assumption. }
  assert (Hcomp : forall d,
    match constructing this None (InternalInitialization d this sitkComposite None) s with
    | Normal _ s' | Throws _ s' => wellFormed s'
    | Undefined => False
    end).
  { intros d. unfold constructing, InternalInitialization. run. unfold wellFormed. simpl.
    rewrite !insert_insert_eq. apply wf_built; [exact W | exact Hfree | simpl; lia]. }
  unfold Transform_ctor.
  destruct (dimensions =? 2)%N; [|destruct (dimensions =? 3)%N; [|apply Hthrow]];
    destruct type; first [apply Hleaf | apply Hthrow | apply Hcomp].
Qed.

Lemma construct_default_preserves (s : State) (this : var) :
  wellFormed s -> transforms s !! this = None ->
  match Transform_ctor_default this s with
  | Normal _ s' | Throws _ s' => wellFormed s'
  | Undefined => False
  end.
Proof.
  intros W Hfree. unfold Transform_ctor_default, constructing. run. unfold wellFormed. simpl.
  rewrite insert_insert_eq. apply wf_built; [exact W | exact Hfree | simpl; lia].
Qed.

Lemma copy_preserves (s : State) (this txf : var) :
  wellFormed s -> transforms s !! this = None -> is_Some (transforms s !! txf) ->
  match Transform_ctor_copy this txf s with
  | Normal _ s' | Throws _ s' => wellFormed s'
  | Undefined => False
  end.
Proof.
  intros W Hfree Htxf.
  destruct (wellFormed_handle s txf W Htxf) as (p & o & c & H1 & H2 & H3 & Hn).
  assert (Hne : this <> txf) by (intros ->; congruence).
  unfold Transform_ctor_copy, constructing. run. unfold wellFormed. simpl.
  rewrite insert_insert_eq.
  apply (wf_attach _ _ _ _ _ _ {| m_ReferenceCount := m_ReferenceCount c + 1; itk := itk c |});
    [apply (wf_write _ _ _ _ c); [exact W | exact H3 | simpl; lia]
    | exact Hfree | apply fresh_unused | apply lookup_insert_eq | simpl; lia].
Qed.

Lemma destroy_preserves (s : State) (this : var) :
  wellFormed s -> is_Some (transforms s !! this) ->
  match Transform_dtor this s with
  | Normal _ s' | Throws _ s' => wellFormed s'
  | Undefined => False
  end.
Proof.
  intros W Hthis.
  destruct (wellFormed_handle s this W Hthis) as (p & o & c & H1 & H2 & H3 & Hn).
  pose proof (wf_detach _ _ _ _ _ W H1) as D.
  pose proof (wrappersOf_delete _ _ _ o H2) as Hd. simpl in Hd.
  destruct (decide (o = o)); [|congruence].
  unfold Transform_dtor. run.
  destruct (Z.leb_spec0 (m_ReferenceCount c - 1) 0) as [Hz|Hz].
  - destruct (m_DisplacementField (itk c)) as [f|]; [destruct (m_ContainerManageMemory f)|];
      run; unfold wellFormed; simpl; rewrite delete_insert_eq;
      apply (wf_release_delete _ _ _ _ c); auto; lia.
  - run. unfold wellFormed. simpl. rewrite delete_insert_eq.
    apply (wf_release_keep _ _ _ _ c); auto; lia.
Qed.

Lemma assign_preserves (s : State) (this txf : var) :
  wellFormed s -> is_Some (transforms s !! this) -> is_Some (transforms s !! txf) ->
  match Transform_assign this txf s with
  | Normal _ s' | Throws _ s' => wellFormed s'
  | Undefined => False
  end.
Proof.
  intros W Hthis Htxf.
  destruct (wellFormed_handle s this W Hthis) as (ph & oh & ch & Hh1 & Hh2 & Hh3 & Hhn).
  destruct (wellFormed_handle s txf W Htxf) as (pt & ot & ct & Ht1 & Ht2 & Ht3 & Htn).
  pose proof (used_not_fresh _ _ _ Hh2) as Hq.
  pose proof (wrappersOf_delete _ _ _ oh Hh2) as Hdh. simpl in Hdh.
  pose proof (wrappersOf_delete _ _ _ ot Hh2) as Hdt. simpl in Hdt.
  destruct (decide (oh = oh)); [|congruence].
  (* the moves, in an order that keeps the invariant *)
  pose proof (wf_write _ _ _ ot ct {| m_ReferenceCount := m_ReferenceCount ct + 1; itk := itk ct |}
                W Ht3 ltac:(simpl; lia)) as W1.
  pose proof (wf_detach _ _ _ _ _ W1 Hh1) as W2.
  unfold Transform_assign. run.
  destruct (decide (oh = ot)) as [->|Eo].
  - assert (ch = ct) as -> by congruence. destruct (decide (ot = ot)); [|congruence]. run.
    destruct (Z.leb_spec0 (m_ReferenceCount ct + 1 - 1) 0); [lia|]. run.
    unfold wellFormed. simpl.
    rewrite <- (insert_delete_eq (transforms s)), delete_insert_ne by congruence.
    eapply wf_attach;
      [apply (wf_release_keep _ _ _ ot
                {| m_ReferenceCount := m_ReferenceCount ct + 1; itk := itk ct |});
       [exact W2 | apply lookup_insert_eq | simpl; lia]
      | apply lookup_delete_eq | rewrite lookup_delete_ne by congruence; apply fresh_unused
      | apply lookup_insert_eq | simpl; lia].
  - destruct (decide (oh = ot)); [congruence|]. run.
    destruct (Z.leb_spec0 (m_ReferenceCount ch - 1) 0) as [Hz|Hz].
    + destruct (m_DisplacementField (itk ch)) as [f|]; [destruct (m_ContainerManageMemory f)|];
        run; unfold wellFormed; simpl;
        rewrite <- (insert_delete_eq (transforms s)), delete_insert_ne by congruence;
        (eapply wf_attach;
         [eapply (wf_release_delete _ _ _ oh ch);
          [exact W2 | rewrite lookup_insert_ne by congruence; exact Hh3 | lia | lia]
         | apply lookup_delete_eq | rewrite lookup_delete_ne by congruence; apply fresh_unused
         | rewrite lookup_delete_ne by congruence; apply lookup_insert_eq | simpl; lia]).
    + run. unfold wellFormed. simpl.
      rewrite <- (insert_delete_eq (transforms s)), delete_insert_ne by congruence.
      eapply wf_attach;
        [eapply (wf_release_keep _ _ _ oh ch);
         [exact W2 | rewrite lookup_insert_ne by congruence; exact Hh3 | lia]
        | apply lookup_delete_eq | rewrite lookup_delete_ne by congruence; apply fresh_unused
        | rewrite lookup_insert_ne by congruence; apply lookup_insert_eq | simpl; lia].
Qed.

Lemma makeUnique_preserves (s : State) (x : var) :
  wellFormed s -> is_Some (transforms s !! x) -> cloneable s x = true ->
  exists s1,
    MakeUniqueForWrite x s = Normal tt s1 /\ wellFormed s1 /\
    is_Some (transforms s1 !! x) /\
    exists t fld, contentsOf s x = Some t /\ contentsOf s1 x = Some (withField t fld).
Proof.
  intros W Hx Hclone.
  destruct (wellFormed_handle s x W Hx) as (p & o & c & H1 & H2 & H3 & Hn).
  destruct (reaches _ _ _ _ _ H1 H2 H3) as (Hw & Hb & _ & Hc).
  assert (Hf : fieldLive s (itk c) = true).
  { unfold cloneable in Hclone. now rewrite Hc in Hclone. }
  pose proof (used_not_fresh _ _ _ H2) as Hq.
  pose proof (used_not_fresh _ _ _ H3) as Hq'.
  pose proof (wrappersOf_delete _ _ _ o H2) as Hd. simpl in Hd.
  destruct (decide (o = o)); [|congruence].
  assert (Hshared : forall t',
    wf3 (<[x := {| m_PimpleTransform := Some (fresh (dom (pimples s))) |}]> (transforms s))
        (delete p (<[fresh (dom (pimples s)) := {| m_Transform := fresh (dom (objects s)) |}]>
                     (pimples s)))
        (<[o := {| m_ReferenceCount := m_ReferenceCount c - 1; itk := itk c |}]>
           (<[fresh (dom (objects s)) := {| m_ReferenceCount := 1 + 1 - 1; itk := t' |}]>
              (<[fresh (dom (objects s)) := {| m_ReferenceCount := 1 + 1; itk := t' |}]>
                 (<[fresh (dom (objects s)) := {| m_ReferenceCount := 1; itk := t' |}]>
                    (objects s)))))).
  { intros t'.
    rewrite <- (insert_delete_eq (transforms s)), delete_insert_ne by congruence.
    pose proof (wf_alloc _ _ _ (fresh (dom (objects s)))
                  {| m_ReferenceCount := 1; itk := t' |} W (fresh_unused _)) as W1.
    pose proof (wf_write _ _ _ (fresh (dom (objects s))) _
                  {| m_ReferenceCount := 1 + 1; itk := t' |} W1 (lookup_insert_eq _ _ _)
                  ltac:(simpl; lia)) as W2.
    pose proof (wrappersOf_dead _ _ _ _ W (fresh_unused (objects s))) as Hz.
    pose proof (wf_release_keep _ _ _ (fresh (dom (objects s)))
                  {| m_ReferenceCount := 1 + 1; itk := t' |} W2 (lookup_insert_eq _ _ _)
                  ltac:(rewrite Hz; simpl; lia)) as W3.
    pose proof (wf_detach _ _ _ _ _ W3 H1) as W4.
    pose proof (wrappersOf_dead _ _ _ _ (wf_detach _ _ _ _ _ W H1) (fresh_unused (objects s)))
      as Hz'.
    eapply wf_attach;
      [apply (wf_release_keep _ _ _ o c);
       [exact W4 | rewrite !lookup_insert_ne by congruence; exact H3 | lia]
      | apply lookup_delete_eq | rewrite lookup_delete_ne by congruence; apply fresh_unused
      | rewrite lookup_insert_ne by congruence; apply lookup_insert_eq
      | rewrite Hz'; simpl; lia]. }
  destruct (Z.ltb_spec0 1 (m_ReferenceCount c)) as [Hrc|Hrc].
  - unfold fieldLive in Hf.
    destruct (m_DisplacementField (itk c)) as [f|] eqn:Hfld;
      [destruct (buffers s !! m_ImportPointer f) as [px|] eqn:Hpx; [|discriminate]|];
      eexists;
      (split; [run; (destruct (Z.ltb_spec0 1 (m_ReferenceCount c)); [|lia]); run;
               rewrite ?Hfld; run;
               (destruct (Z.leb_spec0 (m_ReferenceCount c - 1) 0); [lia|]); run;
               reflexivity|]);
      (split; [unfold wellFormed; simpl; apply Hshared|]);
      (split; [simpl; rewrite lookup_insert_eq; eauto|]).
    + exists (itk c). eexists. split; [exact Hc|].
      unfold contentsOf, objectOf, backendOf, wrapperOf. run. reflexivity.
    + exists (itk c), None. split; [exact Hc|].
      unfold contentsOf, objectOf, backendOf, wrapperOf. run.
      f_equal. destruct (itk c). simpl in Hfld. subst. reflexivity.
  - exists s.
    split; [run; (destruct (Z.ltb_spec0 1 (m_ReferenceCount c)); [lia|]); reflexivity|].
    split; [exact W|]. split; [exact Hx|].
    exists (itk c), (m_DisplacementField (itk c)). split; [exact Hc|].
    rewrite Hc. f_equal. now destruct (itk c).
Qed.

Lemma write_preserves (g : ITKTransform -> LibResult ITKTransform) (s : State) (x : var) :
  wellFormed s -> is_Some (transforms s !! x) ->
  match (p <- get_m_PimpleTransform x ;; writeObject g p) s with
  | Normal _ s' | Throws _ s' => wellFormed s'
  | Undefined => exists t, contentsOf s x = Some t /\ g t = Unspecified
  end.
Proof.
  intros W Hx.
  destruct (wellFormed_handle s x W Hx) as (p & o & c & H1 & H2 & H3 & Hn).
  destruct (reaches _ _ _ _ _ H1 H2 H3) as (_ & _ & _ & Hc).
  run. destruct (g (itk c)) as [t'|what|] eqn:Hg.
  - unfold wellFormed. simpl. apply (wf_write _ _ _ _ c); [exact W | exact H3 | simpl; lia].
  - exact W.
  - exists (itk c). auto.
Qed.

Lemma setter_preserves (fixed : bool) (v : list double) (s : State) (x : var) :
  wellFormed s -> is_Some (transforms s !! x) -> cloneable s x = true ->
  match (_ <- MakeUniqueForWrite x ;; p <- get_m_PimpleTransform x ;;
         writeObject (fun t => itkSetVector fixed t v) p) s with
  | Normal _ s' | Throws _ s' => wellFormed s'
  | Undefined => exists t, contentsOf s x = Some t /\ itkSetVector fixed t v = Unspecified
  end.
Proof.
  intros W Hx Hclone.
  destruct (makeUnique_preserves s x W Hx Hclone) as (s1 & E & W1 & Hx1 & t & fld & Ct & Ct1).
  rewrite (bind_Normal _ _ _ _ _ E).
  pose proof (write_preserves (fun t => itkSetVector fixed t v) s1 x W1 Hx1) as P.
  destruct ((p <- get_m_PimpleTransform x ;;
             writeObject (fun t => itkSetVector fixed t v) p) s1); try exact P.
  destruct P as (t1 & Ht1 & Hg). exists t. split; [exact Ct|].
  assert (t1 = withField t fld) as -> by congruence.
  exact (itkSetVector_withField _ _ _ _ Hg).
Qed.

Lemma emptyState_wellFormed : wellFormed emptyState.
Proof.
  split; simpl.
  - intros h hd H. now rewrite lookup_empty in H.
  - intros h h' p H. now rewrite lookup_empty in H.
  - intros p w H. now rewrite lookup_empty in H.
Qed.

(** Outcome by outcome: a permitted member function ends in the invariant,
    or the setter of the library is itself undefined. *)
Lemma perform_outcome (s : State) (op : Operation) :
  wellFormed s -> permitted s op ->
  match perform op s with
  | Normal _ s' | Throws _ s' => wellFormed s'
  | Undefined => libraryUndefined s op
  end.
Proof.
  intros W P. destruct op as [this d type|this|this txf|this txf|this|this|this v|this v];
    simpl in P |- *.
  - exact (construct_preserves s this d type W P).
  - exact (construct_default_preserves s this W P).
  - destruct P as [P1 P2]. exact (copy_preserves s this txf W P1 P2).
  - destruct P as [P1 P2]. exact (assign_preserves s this txf W P1 P2).
  - exact (destroy_preserves s this W P).
  - destruct P as [P1 P2].
    destruct (makeUnique_preserves s this W P1 P2) as (s1 & -> & W1 & _). exact W1.
  - destruct P as [P1 P2]. exact (setter_preserves false v s this W P1 P2).
  - destruct P as [P1 P2]. exact (setter_preserves true v s this W P1 P2).
Qed.

(** X22: every member function of a handle keeps the stores in their
    invariant.  From a state where handles, wrappers and ITK objects fit
    together (every handle on a live wrapper of its own, every wrapper on a
    live object that counts at least its wrappers), a constructor on a new
    object, the copy constructor, the assignment, the destructor,
    [MakeUniqueForWrite] and the two setters all end, normally or with an
    exception, in such a state again; the only call that does not end is a
    setter whose library call is itself undefined. *)
Theorem member_functions_keep_the_invariant (s : State) (op : Operation) :
  wellFormed s -> permitted s op ->
  (perform op s = Undefined -> libraryUndefined s op) /\
  (forall s', final (perform op s) = Some s' -> wellFormed s').
Proof.
  intros W P. pose proof (perform_outcome s op W P) as K.
  destruct (perform op s) as [[] s1|e s1|]; split.
  - discriminate.
  - intros s' [= <-]. exact K.
  - discriminate.
  - intros s' [= <-]. exact K.
  - intros _. exact K.
  - discriminate.
Qed.

Lemma member_functions_keep_the_invariant_witness :
  wellFormed Scenario.oneAffine /\
  permitted Scenario.oneAffine (Copy Scenario.B Scenario.A) /\
  (perform (Copy Scenario.B Scenario.A) Scenario.oneAffine = Undefined ->
   libraryUndefined Scenario.oneAffine (Copy Scenario.B Scenario.A)) /\
  (forall s', final (perform (Copy Scenario.B Scenario.A) Scenario.oneAffine) = Some s' ->
              wellFormed s').
Proof.
  assert (W : wellFormed Scenario.oneAffine).
  { exact (perform_outcome emptyState (Construct Scenario.A 3 sitkAffine)
             emptyState_wellFormed eq_refl). }
  assert (P : permitted Scenario.oneAffine (Copy Scenario.B Scenario.A)).
  { split; [vm_compute; reflexivity | eexists; vm_compute; reflexivity]. }
  split; [exact W|]. split; [exact P|].
  exact (member_functions_keep_the_invariant Scenario.oneAffine
           (Copy Scenario.B Scenario.A) W P).
Defined.

Lemma reachable_wellFormed (s : State) : reachable s -> wellFormed s.
Proof.
  induction 1 as [|s s' op R IH P F]; [exact emptyState_wellFormed|].
  pose proof (perform_outcome s op IH P) as K.
  destruct (perform op s) as [[] s1|e s1|]; simpl in F; try discriminate;
    injection F as <-; exact K.
Qed.

(** X23: no handle ever dangles.  In every state a program reaches from
    the empty one through constructors, copies, assignments, destructors,
    [MakeUniqueForWrite] and the setters, in any order and whatever they
    threw, each handle that exists is in its invariant: it holds a wrapper
    that no other handle holds, around a live ITK object whose reference
    count is at least the number of wrappers around it, and [GetDimension]
    returns. *)
Theorem reachable_handles_are_live (s : State) (h : var) :
  reachable s -> is_Some (transforms s !! h) ->
  live s h = true /\
  (forall h', h' <> h -> wrapperOf s h' <> wrapperOf s h) /\
  exists o c, backendOf s h = Some o /\ objects s !! o = Some c /\
              1 <= Z.of_nat (wrappersOf (pimples s) o) <= m_ReferenceCount c /\
              GetDimension h s = Normal (InputSpaceDimension (itk c)) s.
Proof.
  intros R Hh. pose proof (reachable_wellFormed s R) as W.
  destruct (wellFormed_handle s h W Hh) as (p & o & c & H1 & H2 & H3 & Hn).
  destruct (reaches _ _ _ _ _ H1 H2 H3) as (Hw & Hb & Ho & Hc).
  split; [unfold live; rewrite Ho; apply Z.leb_le; lia|]. split.
  - intros h' Hne E. rewrite Hw in E. unfold wrapperOf in E.
    destruct (transforms s !! h') as [[pp]|] eqn:H'; [|discriminate]. simpl in E. subst pp.
    exact (Hne (wf_owner _ _ _ W h' h p H' H1)).
  - exists o, c. repeat split; auto; try lia.
    rewrite GetDimension_outcome. unfold readOutcome. now rewrite Hc.
Qed.

Lemma reachable_handles_are_live_witness :
  reachable Traces.copyOutlives /\
  is_Some (transforms Traces.copyOutlives !! Scenario.B) /\
  live Traces.copyOutlives Scenario.B = true /\
  (forall h', h' <> Scenario.B ->
     wrapperOf Traces.copyOutlives h' <> wrapperOf Traces.copyOutlives Scenario.B) /\
  exists o c, backendOf Traces.copyOutlives Scenario.B = Some o /\
              objects Traces.copyOutlives !! o = Some c /\
              1 <= Z.of_nat (wrappersOf (pimples Traces.copyOutlives) o)
                <= m_ReferenceCount c /\
              GetDimension Scenario.B Traces.copyOutlives
                = Normal (InputSpaceDimension (itk c)) Traces.copyOutlives.
Proof.
  assert (R : reachable Traces.copyOutlives).
  { apply (reachable_step
             (after (SetParameters Scenario.B (ones 12))
                (after (Transform_ctor_copy Scenario.B Scenario.A) Scenario.oneAffine))
             _ (Destroy Scenario.A));
      [|eexists; vm_compute; reflexivity | vm_compute; reflexivity].
    apply (reachable_step (after (Transform_ctor_copy Scenario.B Scenario.A) Scenario.oneAffine)
             _ (CallSetParameters Scenario.B (ones 12)));
      [|split; [eexists; vm_compute; reflexivity | vm_compute; reflexivity]
       | vm_compute; reflexivity].
    apply (reachable_step Scenario.oneAffine _ (Copy Scenario.B Scenario.A));
      [|split; [vm_compute; reflexivity | eexists; vm_compute; reflexivity]
       | vm_compute; reflexivity].
    apply (reachable_step emptyState _ (Construct Scenario.A 3 sitkAffine));
      [exact reachable_empty | vm_compute; reflexivity | vm_compute; reflexivity]. }
  split; [exact R|]. split; [eexists; vm_compute; reflexivity|].
  apply (reachable_handles_are_live Traces.copyOutlives Scenario.B R).
  eexists; vm_compute; reflexivity.
Defined.

(** ** The replacement of the Backend of a facade *)

(** X24: the explicit replacement of the Backend of a facade.  Unlike the
    setters and the assignment, [SetPimpleTransform] runs
    [InternalInitialization] again: the facade ends on the wrapper it was
    given, and its slots are bound to the object of that wrapper when it is
    an Euler3D transform and are all empty when it is not. *)
Theorem Euler3D_SetPimpleTransform_binds_again (s : State) (this : var) (p q o o' : addr)
    (c c' : LightObject) :
  transforms s !! this = Some {| m_PimpleTransform := Some p |} ->
  pimples s !! p = Some {| m_Transform := o |} -> objects s !! o = Some c ->
  pimples s !! q = Some {| m_Transform := o' |} -> objects s !! o' = Some c' ->
  q <> p -> o' <> o ->
  exists s',
    Euler3D_SetPimpleTransform this (Some q) s = Normal tt s' /\
    wrapperOf s' this = Some q /\ backendOf s' this = Some o' /\
    pimples s' !! p = None /\
    euler3d s' !! this
      = Some (boundTo (if ITKClass_eqb (NameOfClass (itk c')) Euler3DTransformClass
                       then Some o' else None)).
Proof.
  intros H1 H2 H3 Hq Ho' Hne Hno.
  unfold Euler3D_SetPimpleTransform, Transform_SetPimpleTransform,
    Euler3D_InternalInitialization, Euler3D_InternalInitialization_typed.
  destruct (Z.leb_spec0 (m_ReferenceCount c - 1) 0) as [Hz|Hz];
    [destruct (m_DisplacementField (itk c)) as [f|] eqn:Hf;
     [destruct (m_ContainerManageMemory f) eqn:Hm|]|];
    destruct (ITKClass_eqb (NameOfClass (itk c')) Euler3DTransformClass) eqn:Hcls;
    (eexists; split;
     [run; (destruct (Z.leb_spec0 (m_ReferenceCount c - 1) 0); [|try lia]; try lia); run;
      rewrite ?Hf; run; rewrite ?Hm; run; rewrite ?Hcls; reflexivity|]);
    unfold backendOf, wrapperOf; run; rewrite ?lookup_delete_eq; auto.
Qed.

Lemma Euler3D_SetPimpleTransform_binds_again_witness :
  transforms Traces.eulerCopied !! Scenario.B = Some {| m_PimpleTransform := Some 2%positive |} /\
  pimples Traces.eulerCopied !! 2%positive = Some {| m_Transform := 1%positive |} /\
  objects Traces.eulerCopied !! 1%positive
    = Some {| m_ReferenceCount := 2;
              itk := leaf Euler3DTransformClass 3 [0.5; 0.25; 0.125; 0; 0; 0]%float
                       (zeros 3) |} /\
  pimples Traces.eulerCopied !! 3%positive = Some {| m_Transform := 2%positive |} /\
  objects Traces.eulerCopied !! 2%positive
    = Some {| m_ReferenceCount := 1;
              itk := leaf Euler3DTransformClass 3 [0.5; 0.25; 0.125; 0; 0; 0]%float
                       (zeros 3) |} /\
  3%positive <> 2%positive /\ 2%positive <> 1%positive /\
  exists s',
    Euler3D_SetPimpleTransform Scenario.B (Some 3%positive) Traces.eulerCopied
      = Normal tt s' /\
    wrapperOf s' Scenario.B = Some 3%positive /\ backendOf s' Scenario.B = Some 2%positive /\
    pimples s' !! 2%positive = None /\
    euler3d s' !! Scenario.B = Some (boundTo (Some 2%positive)).
Proof.
  split; [reflexivity|]. split; [reflexivity|]. split; [reflexivity|]. split; [reflexivity|].
  split; [reflexivity|]. split; [discriminate|]. split; [discriminate|].
  apply (Euler3D_SetPimpleTransform_binds_again Traces.eulerCopied Scenario.B 2%positive
           3%positive 1%positive 2%positive
           {| m_ReferenceCount := 2;
              itk := leaf Euler3DTransformClass 3 [0.5; 0.25; 0.125; 0; 0; 0]%float
                       (zeros 3) |}
           {| m_ReferenceCount := 1;
              itk := leaf Euler3DTransformClass 3 [0.5; 0.25; 0.125; 0; 0; 0]%float
                       (zeros 3) |});
    [reflexivity | reflexivity | reflexivity | reflexivity | reflexivity
     | discriminate | discriminate].
Defined.

(** ** The holder command *)

(** X25: a holder deletes exactly the object it holds last.  [Set] only
    overwrites the pointer: after [Set(q)] and the destruction of the
    command, [q] is gone and every other object is as alive as before, the
    object the command held until then included; and [Get] before the
    destruction returns [q]. *)
Theorem holder_deletes_what_it_holds_last (s : Holders) (this : var) (old : option addr)
    (q : addr) :
  m_Object s !! this = Some old -> q ∈ aliveT s ->
  exists s1 s2,
    HolderCommand_Set this (Some q) s = Some s1 /\
    HolderCommand_Get this s1 = Some (Some q) /\
    HolderCommand_dtor this s1 = Some s2 /\
    aliveT s2 = aliveT s ∖ {[q]} /\
    m_Object s2 !! this = None /\
    (forall p, old = Some p -> p <> q -> p ∈ aliveT s -> p ∈ aliveT s2).
Proof.
  intros Hold Hq. unfold HolderCommand_Set, HolderCommand_Get, HolderCommand_dtor.
  rewrite Hold. eexists. eexists. split; [reflexivity|]. simpl.
  rewrite lookup_insert_eq. split; [reflexivity|].
  destruct (decide (q ∈ aliveT s)); [|contradiction].
  split; [reflexivity|]. simpl. split; [reflexivity|]. split; [apply lookup_delete_eq|].
  intros p _ Hne Hp. apply elem_of_difference. split; [exact Hp|].
  rewrite elem_of_singleton. exact Hne.
Qed.

Lemma holder_deletes_what_it_holds_last_witness :
  m_Object Traces.heldOnce !! Scenario.A = Some (Some 5%positive) /\
  6%positive ∈ aliveT Traces.heldOnce /\
  exists s1 s2,
    HolderCommand_Set Scenario.A (Some 6%positive) Traces.heldOnce = Some s1 /\
    HolderCommand_Get Scenario.A s1 = Some (Some 6%positive) /\
    HolderCommand_dtor Scenario.A s1 = Some s2 /\
    aliveT s2 = aliveT Traces.heldOnce ∖ {[6%positive]} /\
    m_Object s2 !! Scenario.A = None /\
    (forall p, Some 5%positive = Some p -> p <> 6%positive ->
               p ∈ aliveT Traces.heldOnce -> p ∈ aliveT s2).
Proof.
  split; [reflexivity|]. split; [vm_compute; reflexivity|].
  apply (holder_deletes_what_it_holds_last Traces.heldOnce Scenario.A (Some 5%positive)
           6%positive); [reflexivity | vm_compute; reflexivity].
Defined.

(** X26: two commands that were given the same pointer.  The destruction
    of the first deletes the object, and the destruction of the second
    deletes it again, which is undefined: nothing in the class keeps one
    object from being held twice. *)
Theorem two_holders_delete_twice (s : Holders) (a b : var) (p : addr) :
  a <> b ->
  m_Object s !! a = Some (Some p) -> m_Object s !! b = Some (Some p) -> p ∈ aliveT s ->
  exists s1, HolderCommand_dtor a s = Some s1 /\ (p ∉ aliveT s1) /\
             HolderCommand_dtor b s1 = None.
Proof.
  intros Hne Ha Hb Hp. unfold HolderCommand_dtor. rewrite Ha.
  destruct (decide (p ∈ aliveT s)); [|contradiction].
  assert (Hgone : p ∉ aliveT s ∖ {[p]}).
  { rewrite elem_of_difference, elem_of_singleton. tauto. }
  eexists. split; [reflexivity|]. simpl. split; [exact Hgone|].
  rewrite lookup_delete_ne by congruence. rewrite Hb.
  destruct (decide (p ∈ aliveT s ∖ {[p]})) as [Hin|]; [contradiction | reflexivity].
Qed.

Lemma two_holders_delete_twice_witness :
  Scenario.A <> Scenario.B /\
  m_Object Traces.heldTwice !! Scenario.A = Some (Some 5%positive) /\
  m_Object Traces.heldTwice !! Scenario.B = Some (Some 5%positive) /\
  5%positive ∈ aliveT Traces.heldTwice /\
  exists s1,
    HolderCommand_dtor Scenario.A Traces.heldTwice = Some s1 /\
    (5%positive ∉ aliveT s1) /\ HolderCommand_dtor Scenario.B s1 = None.
Proof.
  split; [discriminate|]. split; [reflexivity|]. split; [reflexivity|].
  split; [vm_compute; reflexivity|].
  apply (two_holders_delete_twice Traces.heldTwice Scenario.A Scenario.B 5%positive);
    [discriminate | reflexivity | reflexivity | vm_compute; reflexivity].
Defined.
